(** * HackTheBias: lesson/quiz generation, scoring, progression and the
      camera hand-sign quiz

    A shallow embedding of the quiz logic of the sign-language learning
    application:

    - [Beginner.tsx]: the alphabet table, [getIconBank], [shuffle],
      [getLevelData], [handleDrop], [calculateScore], [handleSubmitQuiz];
    - [CameraQuizPage] (the camera quiz page): its letter table, question
      sequence, threshold table, [handleCheck] and [handleSkip];
    - [AICameraEvaluation.tsx]: its threshold table, [handleCheck] and
      [handleNext];
    - [Home.tsx], [BeginnerLevels.tsx] and the routes of [App.tsx]: the tier
      progress and its refresh, [getTierStatus], [handleSignOut],
      [loadProgress] and the two [handleLevelClick].

    Modelling conventions.

    - JavaScript numbers that hold confidences and score ratios are binary64
      floats ([PrimFloat]); counters, indices and level numbers are integers
      ([nat] where the code can only produce a non-negative value, [Z] for
      level numbers parsed from the URL; a level that parses to NaN or lies
      beyond the safe integers is not modelled).
    - [Math.random()] is an oracle: a list of natural numbers consumed from
      the left.  A draw [r] taken for [Math.floor(Math.random() * k)] yields
      [r mod k], so that every oracle is valid and every index below [k] can
      be drawn; an exhausted oracle keeps answering [0].
    - React state is a record; an event handler is a function from the state
      (and the world: local storage, the requests sent so far) to the next
      one.  The handler sees the state of the latest render.  In
      [CameraQuizPage.handleCheck] and [AICameraEvaluation.handleCheck] the
      answer of the classifier and the delayed updates ([setTimeout]) are
      applied with the click; [CameraQuizAsync] has the click, the answer
      and the timers of the camera quiz page as separate events.
    - A [fetch] either fails or answers; what the backend answers is an input
      of the handler.
    - Strings are byte strings; [toUpperCase] is the ASCII one. *)

From Stdlib Require Import ZArith Floats Ascii String Permutation.
From stdpp Require Import base tactics option list gmap strings pretty.

Set Warnings "-inexact-float".

Open Scope string_scope.
Open Scope list_scope.

(** ** JavaScript prelude *)

Module JS.

(** *** The random oracle *)

Definition Rand (A : Type) : Type := list nat -> A * list nat.

Definition ret {A} (a : A) : Rand A := fun rs => (a, rs).

Definition bind {A B} (m : Rand A) (k : A -> Rand B) : Rand B :=
  fun rs => let (a, rs') := m rs in k a rs'.

(** [Math.floor(Math.random() * k)] *)
Definition random_int (k : nat) : Rand nat :=
  fun rs =>
    match rs with
    | [] => (0, [])
    | r :: rs' => (r mod k, rs')
    end.

Definition run {A} (m : Rand A) (rs : list nat) : A := fst (m rs).

(** *** Arrays *)

(** The relative index of [Array.prototype.slice]: a negative index counts
    from the end, and the result is clamped to [0, len]. *)
Definition relativeIndex (len : nat) (k : Z) : nat :=
  if (k <? 0)%Z then Z.to_nat (Z.max (Z.of_nat len + k) 0)
  else Z.to_nat (Z.min k (Z.of_nat len)).

(** [array.slice(start, end)] *)
Definition slice {A} (start end_ : Z) (array : list A) : list A :=
  let from := relativeIndex (length array) start in
  let to := relativeIndex (length array) end_ in
  take (to - from) (drop from array).

(** [[a[i], a[j]] = [a[j], a[i]]]: the right-hand side is read first, then
    [a[i]] and [a[j]] are written in that order.  The loop of [shuffle] only
    swaps positions inside the array; outside it (where JavaScript would
    grow the array with [undefined]) the model leaves the array alone. *)
Definition swap {A} (i j : nat) (a : list A) : list A :=
  match a !! j, a !! i with
  | Some aj, Some ai => <[j := ai]> (<[i := aj]> a)
  | _, _ => a
  end.

(** *** Strings *)

Definition upper_ascii (c : ascii) : ascii :=
  let n := nat_of_ascii c in
  if ((97 <=? n) && (n <=? 122))%nat then ascii_of_nat (n - 32) else c.

(** [s.toUpperCase()] on ASCII *)
Fixpoint toUpperCase (s : string) : string :=
  match s with
  | EmptyString => EmptyString
  | String c s' => String (upper_ascii c) (toUpperCase s')
  end.

(** [s.split("")] *)
Fixpoint split_chars (s : string) : list string :=
  match s with
  | EmptyString => []
  | String c s' => String c EmptyString :: split_chars s'
  end.

(** Truthiness of a [string | null | undefined]. *)
Definition truthy (o : option string) : bool :=
  match o with
  | Some s => negb (bool_decide (s = ""))
  | None => false
  end.

(** *** Numbers *)

(** The float of a non-negative integer (exact below 2^53). *)
Definition Number (n : nat) : float :=
  PrimFloat.of_uint63 (Uint63.of_Z (Z.of_nat n)).

(** [Math.round(x)]: the integer closest to [x], ties towards +infinity;
    [None] stands for NaN and the infinities, which have no integer value.
    A finite float is [v * 2^e] for an integer [v]. *)
Definition Math_round (x : float) : option Z :=
  match Prim2SF x with
  | S754_zero _ => Some 0%Z
  | S754_finite s m e =>
      let v := if s then Z.neg m else Z.pos m in
      Some (if (0 <=? e)%Z then (v * 2 ^ e)%Z
            else ((2 * v + 2 ^ (- e)) / 2 ^ (- e + 1))%Z)
  | _ => None
  end.

(** [Math.round((count / total) * 100)] *)
Definition percentOf (count total : nat) : option Z :=
  Math_round (PrimFloat.mul (PrimFloat.div (Number count) (Number total)) 100%float).

End JS.

Import JS.

Notation "'let*' x ':=' m 'in' k" := (JS.bind m (fun x => k))
  (at level 10, x name, m at level 100, k at level 200,
   format "'[v' 'let*'  x  ':='  m  'in' '/' k ']'").

(** ** [shuffle] (Beginner.tsx and the camera quiz page: the same text) *)

(** The body of the [for] loop, from [i] down to [1]. *)
Fixpoint shuffle_loop {A} (i : nat) (shuffled : list A) : Rand (list A) :=
  match i with
  | 0 => JS.ret shuffled
  | S i' =>
      let* j := random_int (i + 1) in
      shuffle_loop i' (swap i j shuffled)
  end.

Definition shuffle {A} (array : list A) : Rand (list A) :=
  let shuffled := array in
  shuffle_loop (length shuffled - 1) shuffled.

(** *** The same function over a store of arrays

    JavaScript arrays are references.  [shuffle_ref] is [shuffle] with the
    array argument a location of a store: [[...array]] allocates a new
    array, and the loop writes into that one. *)

Module Store.

Definition loc := nat.

Section arrays.
Context {A : Type}.

Definition arr_get (σ : gmap loc (list A)) (a : loc) (i : nat) : option A :=
  σ !! a ≫= fun arr => arr !! i.

Definition arr_set (σ : gmap loc (list A)) (a : loc) (i : nat) (v : A)
  : gmap loc (list A) :=
  alter (fun arr => <[i := v]> arr) a σ.

(** [const shuffled = [...array]] *)
Definition spread (σ : gmap loc (list A)) (array : loc)
  : loc * gmap loc (list A) :=
  let shuffled := fresh (dom σ) in
  (shuffled, <[shuffled := default [] (σ !! array)]> σ).

Definition swap_ref (a : loc) (i j : nat) (σ : gmap loc (list A))
  : gmap loc (list A) :=
  match arr_get σ a j, arr_get σ a i with
  | Some aj, Some ai => arr_set (arr_set σ a i aj) a j ai
  | _, _ => σ
  end.

Fixpoint shuffle_loop_ref (i : nat) (shuffled : loc) (σ : gmap loc (list A))
  : Rand (gmap loc (list A)) :=
  match i with
  | 0 => JS.ret σ
  | S i' =>
      let* j := random_int (i + 1) in
      shuffle_loop_ref i' shuffled (swap_ref shuffled i j σ)
  end.

Definition shuffle_ref (array : loc) (σ : gmap loc (list A))
  : Rand (loc * gmap loc (list A)) :=
  let (shuffled, σ1) := spread σ array in
  let* σ2 := shuffle_loop_ref (length (default [] (σ1 !! shuffled)) - 1) shuffled σ1 in
  JS.ret (shuffled, σ2).
End arrays.

End Store.

(** ** Data shared by the pages *)

Inductive TierType := beginner | intermediate | expert | pro.

#[global] Instance TierType_eq_dec : EqDecision TierType.
Proof. solve_decision. Defined.

(** The tier as the string sent to the backend and kept in local storage. *)
Definition tierName (t : TierType) : string :=
  match t with
  | beginner => "beginner"
  | intermediate => "intermediate"
  | expert => "expert"
  | pro => "pro"
  end.

(** A request to the backend.  [user_id] is the stored string (the code
    sends [parseInt(userId)]); [score] is [None] when the percentage is NaN;
    of the landmarks sent to the classifier the model keeps their number. *)
Inductive Request :=
  | SaveScore (user_id : string) (level_type : string) (level_number : Z)
              (score : option Z)
  | UpdateProgress (user_id : string) (level_type : string) (level_number : Z)
  | AslCheck (target : string) (landmarks : nat).

Definition isUpdateProgress (r : Request) : bool :=
  match r with
  | UpdateProgress _ _ _ => true
  | _ => false
  end.

(** The world outside the page: the browser's local storage and the requests
    sent to the backend, oldest first. *)
Record World := mkWorld {
  localStorage : gmap string string;
  sent : list Request;
}.

Definition send (r : Request) (w : World) : World :=
  mkWorld (localStorage w) (sent w ++ [r]).

Definition setItem (k v : string) (w : World) : World :=
  mkWorld (<[k := v]> (localStorage w)) (sent w).

(** What a [fetch] followed by [response.json()] gives: an exception, or the
    status flag [response.ok] with the decoded body. *)
Inductive Fetched (A : Type) :=
  | Failed
  | Answered (ok : bool) (data : A).
Arguments Failed {A}.
Arguments Answered {A} ok data.

(** The answer of [/asl/check]. *)
Record CheckResult := mkCheckResult {
  success : bool;
  match_ : bool;
  cr_target : string;
  prediction : string;
  confidence : float;
  message : option string;
}.

(** A point of the hand detector. *)
Record Landmark := mkLandmark { lx : float; ly : float; lz : float }.

(** One entry of [evaluationResults]. *)
Record Evaluation := mkEvaluation {
  ev_letter : string;
  ev_correct : bool;
}.

(** [array.indexOf(x)]: the first position holding [x], or [-1]. *)
Definition indexOf {A} `{EqDecision A} (x : A) (array : list A) : Z :=
  match list_find (fun y => y = x) array with
  | Some (i, _) => Z.of_nat i
  | None => (-1)%Z
  end.

(** ** Beginner.tsx *)

Module Beginner.

Inductive QuestionType := matching | typing | true_false | word_spelling.

#[global] Instance QuestionType_eq_dec : EqDecision QuestionType.
Proof. solve_decision. Defined.

(** A value of type [string | number]. *)
Inductive JsValue :=
  | JsString (s : string)
  | JsNumber (n : Z).

#[global] Instance JsValue_eq_dec : EqDecision JsValue.
Proof. solve_decision. Defined.

(** [String(v)] for a [string | number | undefined]. *)
Definition String_ (v : option JsValue) : string :=
  match v with
  | None => "undefined"
  | Some (JsString s) => s
  | Some (JsNumber n) => pretty n
  end.

Record Pair := mkPair {
  pair_letter : string;
  sign : string;
}.

Record Question := mkQuestion {
  id : nat;
  type : QuestionType;
  question : string;
  correctAnswer : JsValue;
  pairs : option (list Pair);
  imageSrc : option string;
  fallbackEmoji : option string;
  word : option string;
}.

Inductive ImageKind := image | emoji_kind.

Record ImageData := mkImageData {
  kind : ImageKind;
  src : string;
}.

Definition imageLetters : list string :=
  ["A"; "B"; "C"; "D"; "E"; "F"; "G"; "H"; "I"; "J"; "K"; "L"; "M"; "N"; "O";
   "P"; "Q"; "R"; "S"; "T"; "U"; "V"; "W"].

Definition getImageSrc (letter fallbackEmoji : string) : ImageData :=
  if bool_decide (letter ∈ imageLetters)
  then mkImageData image ("/" +:+ letter +:+ ".png")
  else mkImageData emoji_kind fallbackEmoji.

Record LetterData := mkLetterData {
  letter : string;
  instruction : string;
  emoji : string;
}.

#[global] Instance LetterData_eq_dec : EqDecision LetterData.
Proof. solve_decision. Defined.

Definition allLettersData : list LetterData :=
  [ mkLetterData "A" "Make a fist with your thumb on the side" "✊";
    mkLetterData "B" "Hold your hand flat with fingers together, thumb across palm" "🖐️";
    mkLetterData "C" "Curve your hand to form a C shape" "🤌";
    mkLetterData "D" "Point your index finger up, other fingers touch thumb" "☝️";
    mkLetterData "E" "Curl all fingers down toward palm, thumb across them" "✊";
    mkLetterData "F" "Touch thumb and index finger, other fingers up" "👌";
    mkLetterData "G" "Point index and middle fingers up" "✌️";
    mkLetterData "H" "Index and middle finger together pointing up" "✌️";
    mkLetterData "I" "Pinky finger up" "🤘";
    mkLetterData "J" "Pinky draws J in air" "✍️";
    mkLetterData "K" "Index and middle finger up like V" "✌️";
    mkLetterData "L" "Index finger and thumb form L" "👌";
    mkLetterData "M" "Three fingers down, thumb tucked" "✊";
    mkLetterData "N" "Two fingers down, thumb tucked" "✊";
    mkLetterData "O" "Form a circle with thumb and index finger" "👌";
    mkLetterData "P" "Index finger points down, thumb touches middle finger" "👌";
    mkLetterData "Q" "Make a circle with thumb and index, point down" "👌";
    mkLetterData "R" "Index and middle finger cross" "✌️";
    mkLetterData "S" "Fist with thumb over fingers" "✊";
    mkLetterData "T" "Fist with thumb between index and middle" "✊";
    mkLetterData "U" "Index and middle finger together up" "✌️";
    mkLetterData "V" "Index and middle finger spread apart up" "✌️";
    mkLetterData "W" "Index, middle, and ring finger up, spread apart" "✌️" ].

Record BankIcon := mkBankIcon {
  bank_letter : string;
  bank_imageData : ImageData;
}.

(** The [for] loop runs for [i] from [0] below [endIdx]; [allLettersData[i]]
    is defined for each of them since [endIdx] is at most the table's
    length. *)
Definition getIconBank (currentLevel : Z) : list BankIcon :=
  let lettersPerLevel := 4%Z in
  let endIdx := Z.min (currentLevel * lettersPerLevel) (Z.of_nat (length allLettersData)) in
  (fun letterData => mkBankIcon (letter letterData)
                       (getImageSrc (letter letterData) (emoji letterData)))
    <$> take (Z.to_nat endIdx) allLettersData.

Record LessonLetter := mkLessonLetter {
  lesson_letter : string;
  lesson_instruction : string;
  lesson_imageData : ImageData;
}.

Record WordOption := mkWordOption {
  wo_word : string;
  wo_letters : list string;
}.

#[global] Instance WordOption_eq_dec : EqDecision WordOption.
Proof. solve_decision. Defined.

Definition allWordOptions : list WordOption :=
  [ mkWordOption "BAD" ["B"; "A"; "D"];
    mkWordOption "CAB" ["C"; "A"; "B"];
    mkWordOption "FED" ["F"; "E"; "D"];
    mkWordOption "ACE" ["A"; "C"; "E"];
    mkWordOption "BED" ["B"; "E"; "D"];
    mkWordOption "CAD" ["C"; "A"; "D"];
    mkWordOption "DAB" ["D"; "A"; "B"];
    mkWordOption "BEAD" ["B"; "E"; "A"; "D"];
    mkWordOption "FACE" ["F"; "A"; "C"; "E"];
    mkWordOption "FADE" ["F"; "A"; "D"; "E"];
    mkWordOption "FEED" ["F"; "E"; "E"; "D"];
    mkWordOption "CABE" ["C"; "A"; "B"; "E"];
    mkWordOption "HELLO" ["H"; "E"; "L"; "L"; "O"];
    mkWordOption "BELLE" ["B"; "E"; "L"; "L"; "E"];
    mkWordOption "FACED" ["F"; "A"; "C"; "E"; "D"];
    mkWordOption "CAFED" ["C"; "A"; "F"; "E"; "D"];
    mkWordOption "BACHELOR" ["B"; "A"; "C"; "H"; "E"; "L"; "O"; "R"];
    mkWordOption "CABLED" ["C"; "A"; "B"; "L"; "E"; "D"];
    mkWordOption "FABLED" ["F"; "A"; "B"; "L"; "E"; "D"] ].

Definition typingQuestion (id : nat) (ld : LetterData) : Question :=
  {| id := id;
     type := typing;
     question := "What letter is this sign?";
     correctAnswer := JsString (letter ld);
     pairs := None;
     imageSrc := match kind (getImageSrc (letter ld) (emoji ld)) with
                 | image => Some ("/" +:+ letter ld +:+ ".png")
                 | emoji_kind => None
                 end;
     fallbackEmoji := Some (emoji ld);
     word := None |}.

Definition matchingQuestion (id : nat) (pairs : list Pair) : Question :=
  {| id := id;
     type := matching;
     question := "Match each letter to its sign";
     correctAnswer := JsString "matched";
     pairs := Some pairs;
     imageSrc := None;
     fallbackEmoji := None;
     word := None |}.

Definition dquote : string := String (ascii_of_nat 34) EmptyString.

Definition wordQuestion (id : nat) (selectedWord : WordOption) : Question :=
  {| id := id;
     type := word_spelling;
     question := "Spell the word " +:+ dquote +:+ toUpperCase (wo_word selectedWord)
                 +:+ dquote +:+ " using hand signs";
     correctAnswer := JsString (toUpperCase (wo_word selectedWord));
     pairs := None;
     imageSrc := None;
     fallbackEmoji := None;
     word := Some (toUpperCase (wo_word selectedWord)) |}.

(** The [forEach] that pushes one typing question per shuffled letter. *)
Definition pushTyping (questions : list Question) (shuffledQuizLetters : list LetterData)
  : list Question :=
  foldl (fun questions ld => questions ++ [typingQuestion (length questions) ld])
        questions shuffledQuizLetters.

(** The loop that adds the word-spelling questions; [n] is the number of
    iterations [numWordQuestions - i] still allowed.  [indexOf] compares
    object identities in the code; the entries of the table are pairwise
    different, so comparing their contents finds the same position. *)
Fixpoint pushWords (n : nat) (wordOptions : list WordOption) (questions : list Question)
  : Rand (list Question) :=
  match n with
  | 0 => JS.ret questions
  | S n' =>
      if bool_decide (0 < length wordOptions) then
        let* k := random_int (length wordOptions) in
        match wordOptions !! k with
        | Some selectedWord =>
            let questions := questions ++ [wordQuestion (length questions) selectedWord] in
            let index := indexOf selectedWord wordOptions in
            let wordOptions :=
              if (-1 <? index)%Z then delete (Z.to_nat index) wordOptions
              else wordOptions in
            pushWords n' wordOptions questions
        | None => JS.ret questions
        end
      else JS.ret questions
  end.

Record LevelData := mkLevelData {
  letters : list LessonLetter;
  questions : list Question;
}.

(** The cumulative letters of a quiz. *)
Definition quizLettersOf (level : Z) : list LetterData :=
  let lettersPerLevel := 4%Z in
  slice 0 (level * lettersPerLevel) allLettersData.

(** The questions as they stand after the typing questions were pushed. *)
Definition typingStage (level : Z) : Rand (list Question) :=
  let* shuffledQuizLetters := shuffle (quizLettersOf level) in
  JS.ret (pushTyping [] shuffledQuizLetters).

(** ... after the matching question. *)
Definition matchingStage (level : Z) : Rand (list Question) :=
  let quizLetters := quizLettersOf level in
  let* questions := typingStage level in
  if bool_decide (3 <= length quizLetters) then
    let* shuffled := shuffle quizLetters in
    let pairs :=
      (fun ld => mkPair (letter ld) (src (getImageSrc (letter ld) (emoji ld))))
        <$> slice 0 (Z.of_nat (Nat.min 4 (length quizLetters))) shuffled in
    JS.ret (questions ++ [matchingQuestion (length questions) pairs])
  else JS.ret questions.

(** The words whose letters are all available. *)
Definition wordOptionsOf (quizLetters : list LetterData) : list WordOption :=
  let availableLettersSet : gset string := list_to_set (letter <$> quizLetters) in
  filter (fun w => forallb (fun l => bool_decide (l ∈ availableLettersSet)) (wo_letters w) = true)
         allWordOptions.

(** ... after the word-spelling questions. *)
Definition wordStage (level : Z) : Rand (list Question) :=
  let quizLetters := quizLettersOf level in
  let* questions := matchingStage level in
  if bool_decide (2 <= level)%Z && bool_decide (3 <= length quizLetters) then
    let wordOptions := wordOptionsOf quizLetters in
    let numWordQuestions := if bool_decide (3 <= level)%Z then 2 else 1 in
    pushWords numWordQuestions wordOptions questions
  else JS.ret questions.

Definition getLevelData (level : Z) : Rand LevelData :=
  let lettersPerLevel := 4%Z in
  let startIdx := ((level - 1) * lettersPerLevel)%Z in
  let levelLetters := slice startIdx (startIdx + lettersPerLevel) allLettersData in
  let letters :=
    (fun ld => mkLessonLetter (letter ld) (instruction ld)
                 (getImageSrc (letter ld) (emoji ld))) <$> levelLetters in
  let* questions := wordStage level in
  let* shuffled := shuffle questions in
  JS.ret (mkLevelData letters shuffled).

(** *** The quiz session *)

Inductive Mode := learning | quiz.

(** The React state of the page.  The typing animation of the title and the
    loading of the highest score when the page mounts are left out. *)
Record State := mkState {
  currentIndex : nat;
  mode : Mode;
  quizAnswers : gmap nat JsValue;
  showResults : bool;
  levelComplete : bool;
  draggedIcon : option string;
  droppedIcons : gmap string string;
  highestScore : option Z;
  wordSpellingAnswers : gmap nat string;
}.

Definition initialState (initialMode : Mode) : State :=
  mkState 0 initialMode ∅ false false None ∅ (Some 0%Z) ∅.

Definition setCurrentIndex (i : nat) (st : State) : State :=
  mkState i (mode st) (quizAnswers st) (showResults st) (levelComplete st)
          (draggedIcon st) (droppedIcons st) (highestScore st) (wordSpellingAnswers st).

Definition setMode (m : Mode) (st : State) : State :=
  mkState (currentIndex st) m (quizAnswers st) (showResults st) (levelComplete st)
          (draggedIcon st) (droppedIcons st) (highestScore st) (wordSpellingAnswers st).

Definition setQuizAnswers (a : gmap nat JsValue) (st : State) : State :=
  mkState (currentIndex st) (mode st) a (showResults st) (levelComplete st)
          (draggedIcon st) (droppedIcons st) (highestScore st) (wordSpellingAnswers st).

Definition setShowResults (b : bool) (st : State) : State :=
  mkState (currentIndex st) (mode st) (quizAnswers st) b (levelComplete st)
          (draggedIcon st) (droppedIcons st) (highestScore st) (wordSpellingAnswers st).

Definition setLevelComplete (b : bool) (st : State) : State :=
  mkState (currentIndex st) (mode st) (quizAnswers st) (showResults st) b
          (draggedIcon st) (droppedIcons st) (highestScore st) (wordSpellingAnswers st).

Definition setDraggedIcon (d : option string) (st : State) : State :=
  mkState (currentIndex st) (mode st) (quizAnswers st) (showResults st) (levelComplete st)
          d (droppedIcons st) (highestScore st) (wordSpellingAnswers st).

Definition setDroppedIcons (d : gmap string string) (st : State) : State :=
  mkState (currentIndex st) (mode st) (quizAnswers st) (showResults st) (levelComplete st)
          (draggedIcon st) d (highestScore st) (wordSpellingAnswers st).

Definition setHighestScore (h : option Z) (st : State) : State :=
  mkState (currentIndex st) (mode st) (quizAnswers st) (showResults st) (levelComplete st)
          (draggedIcon st) (droppedIcons st) h (wordSpellingAnswers st).

Definition setWordSpellingAnswers (a : gmap nat string) (st : State) : State :=
  mkState (currentIndex st) (mode st) (quizAnswers st) (showResults st) (levelComplete st)
          (draggedIcon st) (droppedIcons st) (highestScore st) a.

Definition handleContinue (letters : list LessonLetter) (st : State) : State :=
  if bool_decide (Z.of_nat (currentIndex st) < Z.of_nat (length letters) - 1)%Z
  then setCurrentIndex (currentIndex st + 1) st
  else setCurrentIndex 0 (setMode quiz st).

Definition handleQuizAnswer (index : nat) (answer : JsValue) (st : State) : State :=
  setQuizAnswers (<[index := answer]> (quizAnswers st)) st.

Definition handleDragStart (iconSrc : string) (st : State) : State :=
  setDraggedIcon (Some iconSrc) st.

(** The key [`${questionId}-${letter}`] of a matching drop zone. *)
Definition dropKey (questionId : nat) (letter : string) : string :=
  pretty questionId +:+ "-" +:+ letter.

(** The key [`word-${currentIndex}-${idx}`] of a word slot. *)
Definition wordKey (currentIndex idx : nat) : string :=
  "word-" +:+ pretty currentIndex +:+ "-" +:+ pretty idx.

(** The test of [handleDrop] on one pair: the zone holds a non-empty
    reference equal to the pair's sign. *)
Definition pairMatched (dropped : gmap string string) (questionId : nat) (pair : Pair) : bool :=
  let d := dropped !! dropKey questionId (pair_letter pair) in
  negb (negb (truthy d) || negb (bool_decide (d = Some (sign pair)))).

(** When [questions[currentIndex]] is undefined the code throws on
    [currentQuestion.type]: the dropped icon is recorded and the rest of the
    handler is skipped. *)
Definition handleDrop (questions : list Question) (questionId : nat) (letter : string)
    (st : State) : State :=
  if truthy (draggedIcon st) then
    let newDropped :=
      <[dropKey questionId letter := default "" (draggedIcon st)]> (droppedIcons st) in
    let st := setDroppedIcons newDropped st in
    match questions !! currentIndex st with
    | Some currentQuestion =>
        let st :=
          match type currentQuestion, pairs currentQuestion with
          | matching, Some ps =>
              let allMatched := forallb (pairMatched newDropped questionId) ps in
              if allMatched
              then setQuizAnswers (<[questionId := JsString "matched"]> (quizAnswers st)) st
              else st
          | _, _ => st
          end in
        setDraggedIcon None st
    | None => st
    end
  else st.

(** The [onDrop] of the slot [idx] of a word-spelling question. *)
Definition builtWordOf (currentWord : string) (currentIndex : nat)
    (newDropped : gmap string string) : string :=
  foldl (fun builtWord i =>
           match newDropped !! wordKey currentIndex i with
           | Some droppedIcon =>
               if truthy (Some droppedIcon) then
                 match list_find (fun ld => src (getImageSrc (letter ld) (emoji ld)) = droppedIcon)
                                 allLettersData with
                 | Some (_, letterMatch) => builtWord +:+ letter letterMatch
                 | None => builtWord
                 end
               else builtWord
           | None => builtWord
           end)
        "" (seq 0 (String.length currentWord)).

Definition handleWordDrop (currentWord : string) (idx : nat) (st : State) : State :=
  if truthy (draggedIcon st) then
    let newDropped :=
      <[wordKey (currentIndex st) idx := default "" (draggedIcon st)]> (droppedIcons st) in
    let st := setDroppedIcons newDropped st in
    let builtWord := builtWordOf currentWord (currentIndex st) newDropped in
    let st := setWordSpellingAnswers
                (<[currentIndex st := builtWord]> (wordSpellingAnswers st)) st in
    setDraggedIcon None st
  else st.

Definition handleRestart (st : State) : State :=
  mkState 0 learning ∅ false false None ∅ (highestScore st) ∅.

(** The test of [calculateScore] on one pair: [dropped !== pair.sign]. *)
Definition pairCorrect (dropped : gmap string string) (idx : nat) (pair : Pair) : bool :=
  bool_decide (dropped !! dropKey idx (pair_letter pair) = Some (sign pair)).

(** Whether the body of the [forEach] increments [correct] for question
    [q] at position [idx]. *)
Definition countsAsCorrect (st : State) (idx : nat) (q : Question) : bool :=
  let answer := quizAnswers st !! idx in
  match type q with
  | matching =>
      if bool_decide (answer = Some (JsString "matched"))
      then forallb (pairCorrect (droppedIcons st) idx) (default [] (pairs q))
      else false
  | true_false => bool_decide (answer = Some (correctAnswer q))
  | word_spelling =>
      let userAnswer := default "" (wordSpellingAnswers st !! idx) in
      bool_decide (toUpperCase userAnswer = toUpperCase (String_ (Some (correctAnswer q))))
  | typing =>
      bool_decide (toUpperCase (String_ answer) = toUpperCase (String_ (Some (correctAnswer q))))
  end.

Definition calculateScore (questions : list Question) (st : State) : nat :=
  foldl (fun correct '(idx, q) => if countsAsCorrect st idx q then S correct else correct)
        0 (imap pair questions).

(** The bodies answered by [/save-score] and [/update-progress]. *)
Record SaveScoreData := mkSaveScoreData { highest_score : option Z }.
Record ProgressData := mkProgressData { progress_success : bool }.

Definition tierOrder : list TierType := [beginner; intermediate; expert; pro].

Definition nextTierOf (tierType : TierType) : TierType :=
  let currentTierIndex := indexOf tierType tierOrder in
  if (currentTierIndex <? Z.of_nat (length tierOrder) - 1)%Z
  then default tierType (tierOrder !! Z.to_nat (currentTierIndex + 1))
  else tierType.

(** [percentage === 100 && userId] *)
Definition advances (percentage : option Z) (userId : option string) : bool :=
  bool_decide (percentage = Some 100%Z) && truthy userId.

(** [handleSubmitQuiz].  The level is an integer: [levelNumber + 1] and its
    [toString()] are those of the page, which computes on binary64 numbers,
    as long as the level is a safe integer (below 2^53 in absolute value),
    which the levels 1 to 5 of the application are; what is stated below
    about the next level is stated for these levels. *)
Definition handleSubmitQuiz (tierType : TierType) (levelNumber : Z)
    (questions : list Question)
    (saveAnswer : Fetched SaveScoreData) (progressAnswer : Fetched ProgressData)
    (st : State) (w : World) : State * World :=
  let st := setShowResults true st in
  let score := calculateScore questions st in
  let percentage := percentOf score (length questions) in
  let userId := localStorage w !! "user_id" in
  let '(st, w) :=
    if truthy userId then
      let w := send (SaveScore (default "" userId) (tierName tierType) levelNumber percentage) w in
      match saveAnswer with
      | Answered true data =>
          let h := match highest_score data with
                   | Some h => if bool_decide (h = 0%Z) then percentage else Some h
                   | None => percentage
                   end in
          (setHighestScore h st, w)
      | _ => (st, w)
      end
    else (st, w) in
  if advances percentage userId then
    let st := setLevelComplete true st in
    if bool_decide (levelNumber = 5%Z) then
      let nextTier := nextTierOf tierType in
      let w := send (UpdateProgress (default "" userId) (tierName nextTier) 1) w in
      match progressAnswer with
      | Answered _ data =>
          if progress_success data
          then (st, setItem "level_number" "1" (setItem "level_type" (tierName nextTier) w))
          else (st, w)
      | Failed => (st, w)
      end
    else
      let nextLevel := (levelNumber + 1)%Z in
      let w := send (UpdateProgress (default "" userId) (tierName tierType) nextLevel) w in
      match progressAnswer with
      | Answered _ data =>
          if progress_success data
          then (st, setItem "level_number" (pretty nextLevel)
                      (setItem "level_type" (tierName tierType) w))
          else (st, w)
      | Failed => (st, w)
      end
  else (st, w).

(** The gate of the Next / Submit button and its click. *)
Definition isComplete (currentQuestion : Question) (st : State) : bool :=
  match type currentQuestion with
  | word_spelling =>
      match wordSpellingAnswers st !! currentIndex st with
      | Some a => negb (bool_decide (a = ""))
                  && bool_decide (String.length a
                                  = String.length (default "" (word currentQuestion)))
      | None => false
      end
  | _ =>
      match quizAnswers st !! currentIndex st with
      | Some a => negb (bool_decide (a = JsString ""))
      | None => false
      end
  end.

Definition isLastQuestion (questions : list Question) (st : State) : bool :=
  bool_decide (Z.of_nat (currentIndex st) = Z.of_nat (length questions) - 1)%Z.

Definition handlePrevious (st : State) : State :=
  setCurrentIndex (currentIndex st - 1) st.

Definition handleNext (tierType : TierType) (levelNumber : Z) (questions : list Question)
    (saveAnswer : Fetched SaveScoreData) (progressAnswer : Fetched ProgressData)
    (st : State) (w : World) : State * World :=
  if isLastQuestion questions st
  then handleSubmitQuiz tierType levelNumber questions saveAnswer progressAnswer st w
  else (setCurrentIndex (currentIndex st + 1) st, w).

(** *** What the rendered page lets the user do

    The page renders one of: nothing (the camera tiers, which are sent to
    the camera quiz page), the lesson with its Continue button, the results
    with the Restart button, or the current question with its inputs and the
    Previous and Next / Submit buttons.  An event that the rendered page does
    not offer leaves everything as it is. *)

Inductive Event :=
  | Continue
  | TypeAnswer (value : string)
  | Choose (answer : bool)
  | DragIcon (i : nat)
  | DropOnPair (i : nat)
  | DropOnSlot (idx : nat)
  | Previous
  | Next (saveAnswer : Fetched SaveScoreData) (progressAnswer : Fetched ProgressData)
  | Restart.

Definition usesCameraQuiz (tierType : TierType) : bool :=
  bool_decide (tierType = pro) || bool_decide (tierType = expert).

Definition quizStep (tierType : TierType) (levelNumber : Z) (questions : list Question)
    (currentQuestion : Question) (e : Event) (st : State) (w : World) : State * World :=
  match e with
  | TypeAnswer value =>
      if bool_decide (type currentQuestion = typing)
         && bool_decide (String.length value <= 1)
      then (handleQuizAnswer (currentIndex st) (JsString (toUpperCase value)) st, w)
      else (st, w)
  | Choose answer =>
      if bool_decide (type currentQuestion = true_false)
      then (handleQuizAnswer (currentIndex st) (JsNumber (if answer then 1 else 0)) st, w)
      else (st, w)
  | DragIcon i =>
      if bool_decide (type currentQuestion = matching)
         || bool_decide (type currentQuestion = word_spelling)
      then match getIconBank levelNumber !! i with
           | Some item => (handleDragStart (src (bank_imageData item)) st, w)
           | None => (st, w)
           end
      else (st, w)
  | DropOnPair i =>
      if bool_decide (type currentQuestion = matching)
      then match default [] (pairs currentQuestion) !! i with
           | Some p => (handleDrop questions (currentIndex st) (pair_letter p) st, w)
           | None => (st, w)
           end
      else (st, w)
  | DropOnSlot idx =>
      let currentWord := default "" (word currentQuestion) in
      if bool_decide (type currentQuestion = word_spelling)
         && bool_decide (idx < String.length currentWord)
      then (handleWordDrop currentWord idx st, w)
      else (st, w)
  | Previous =>
      if bool_decide (0 < currentIndex st) then (handlePrevious st, w) else (st, w)
  | Next saveAnswer progressAnswer =>
      if isComplete currentQuestion st
      then handleNext tierType levelNumber questions saveAnswer progressAnswer st w
      else (st, w)
  | _ => (st, w)
  end.

Definition step (tierType : TierType) (levelNumber : Z) (data : LevelData)
    (e : Event) (s : State * World) : State * World :=
  let (st, w) := s in
  if usesCameraQuiz tierType then (st, w)
  else
    match mode st with
    | learning =>
        match e, letters data !! currentIndex st with
        | Continue, Some _ => (handleContinue (letters data) st, w)
        | _, _ => (st, w)
        end
    | quiz =>
        if showResults st then
          match e with
          | Restart => (handleRestart st, w)
          | _ => (st, w)
          end
        else
          match questions data !! currentIndex st with
          | Some currentQuestion =>
              quizStep tierType levelNumber (questions data) currentQuestion e st w
          | None => (st, w)
          end
    end.

Definition runEvents (tierType : TierType) (levelNumber : Z) (data : LevelData)
    (es : list Event) (s : State * World) : State * World :=
  foldl (fun s e => step tierType levelNumber data e s) s es.

(** Drag an icon and drop it on the zone of a letter of the current
    question. *)
Definition dragAndDrop (questions : list Question) (d : string * string) (st : State)
  : State :=
  handleDrop questions (currentIndex st) d.2 (handleDragStart d.1 st).

Definition dropAll (questions : list Question) (ds : list (string * string)) (st : State)
  : State :=
  foldl (fun st d => dragAndDrop questions d st) st ds.

End Beginner.

(** ** The camera quiz page ([CameraQuizPage]) *)

Module CameraQuizPage.

(** Allowed letters for classification. *)
Definition allLetters : list string := ["A"; "B"; "C"; "D"; "H"; "L"; "V"; "Y"; "W"].

(** The [useMemo] that generates the questions of a level. *)
Definition questions (levelNumber : Z) : Rand (list string) :=
  let lettersPerLevel := 4%Z in
  let quizLetters := slice 0 (levelNumber * lettersPerLevel) allLetters in
  shuffle quizLetters.

Record Config := mkConfig { confidenceThreshold : float }.

(** The threshold table; a tier read from the URL that is neither key falls
    back to [config.pro].  The table is that of the page for the tiers the
    application passes, [pro] and [expert].  For a tier that names a property
    inherited from [Object.prototype] ([constructor], [toString], ...) the
    page reads the inherited value, whose threshold is undefined, and no
    check passes; the table does not follow the page there, and what is
    stated below about the threshold is stated for [pro] and [expert]. *)
Definition config : gmap string Config :=
  <["pro" := mkConfig 0.7%float]> (<["expert" := mkConfig 0.7%float]> ∅).

Definition currentConfig (tierType : string) : Config :=
  default (mkConfig 0.7%float) (config !! tierType).

Record State := mkState {
  checking : bool;
  result : option CheckResult;
  error : string;
  currentQuestionIndex : nat;
  evaluationResults : list Evaluation;
  showResults : bool;
}.

Definition initialState : State := mkState false None "" 0 [] false.

Definition setChecking (b : bool) (st : State) : State :=
  mkState b (result st) (error st) (currentQuestionIndex st) (evaluationResults st)
          (showResults st).

Definition setResult (r : option CheckResult) (st : State) : State :=
  mkState (checking st) r (error st) (currentQuestionIndex st) (evaluationResults st)
          (showResults st).

Definition setError (e : string) (st : State) : State :=
  mkState (checking st) (result st) e (currentQuestionIndex st) (evaluationResults st)
          (showResults st).

Definition setCurrentQuestionIndex (i : nat) (st : State) : State :=
  mkState (checking st) (result st) (error st) i (evaluationResults st) (showResults st).

Definition setEvaluationResults (l : list Evaluation) (st : State) : State :=
  mkState (checking st) (result st) (error st) (currentQuestionIndex st) l (showResults st).

Definition setShowResults (b : bool) (st : State) : State :=
  mkState (checking st) (result st) (error st) (currentQuestionIndex st)
          (evaluationResults st) b.

Definition currentLetter (questions : list string) (st : State) : string :=
  default "" (questions !! currentQuestionIndex st).

(** [data.match && data.confidence >= currentConfig.confidenceThreshold] *)
Definition passes (tierType : string) (data : CheckResult) : bool :=
  match_ data && PrimFloat.leb (confidenceThreshold (currentConfig tierType)) (confidence data).

(** The score computed when the last question is done, and its report. *)
Definition finish (tierType : string) (levelNumber : Z) (questions : list string)
    (updatedResults : list Evaluation) (st : State) (w : World) : State * World :=
  let score := percentOf (length (filter (fun r => ev_correct r = true) updatedResults))
                         (length questions) in
  let st := setShowResults true st in
  let userId := localStorage w !! "user_id" in
  if truthy userId
  then (st, send (SaveScore (default "" userId) tierType levelNumber score) w)
  else (st, w).

Definition handleCheck (tierType : string) (levelNumber : Z) (questions : list string)
    (landmarks : option (list Landmark)) (answer : Fetched CheckResult)
    (st : State) (w : World) : State * World :=
  let st := setResult None (setError "" st) in
  match landmarks with
  | Some points =>
      if bool_decide (length points < 21) then
        (setError "No hand detected yet. Try showing your hand to the camera." st, w)
      else
        let st := setChecking true st in
        let w := send (AslCheck (currentLetter questions st) (length points)) w in
        let '(st, w) :=
          match answer with
          | Failed =>
              (setError "Unable to reach the backend server. Is Flask running?" st, w)
          | Answered false data =>
              (setError (if truthy (message data) then default "" (message data)
                         else "Backend returned an error.") st, w)
          | Answered true data =>
              let st := setResult (Some data) st in
              if passes tierType data then
                let newResult := mkEvaluation (currentLetter questions st) true in
                let updatedResults := evaluationResults st ++ [newResult] in
                let st := setEvaluationResults updatedResults st in
                if bool_decide (Z.of_nat (currentQuestionIndex st)
                                < Z.of_nat (length questions) - 1)%Z
                then (setError "" (setResult None
                        (setCurrentQuestionIndex (currentQuestionIndex st + 1) st)), w)
                else finish tierType levelNumber questions updatedResults st w
              else (st, w)
          end in
        (setChecking false st, w)
  | None =>
      (setError "No hand detected yet. Try showing your hand to the camera." st, w)
  end.

Definition handleSkip (tierType : string) (levelNumber : Z) (questions : list string)
    (st : State) (w : World) : State * World :=
  let newResult := mkEvaluation (currentLetter questions st) false in
  let updatedResults := evaluationResults st ++ [newResult] in
  let st := setEvaluationResults updatedResults st in
  if bool_decide (Z.of_nat (currentQuestionIndex st) < Z.of_nat (length questions) - 1)%Z
  then (setError "" (setResult None
          (setCurrentQuestionIndex (currentQuestionIndex st + 1) st)), w)
  else finish tierType levelNumber questions updatedResults st w.

(** The events of a session and the states they lead to. *)
Inductive Event :=
  | CheckSign (landmarks : option (list Landmark)) (answer : Fetched CheckResult)
  | SkipSign.

Definition step (tierType : string) (levelNumber : Z) (questions : list string)
    (e : Event) (s : State * World) : State * World :=
  match e with
  | CheckSign landmarks answer =>
      handleCheck tierType levelNumber questions landmarks answer (fst s) (snd s)
  | SkipSign => handleSkip tierType levelNumber questions (fst s) (snd s)
  end.

Definition runEvents (tierType : string) (levelNumber : Z) (questions : list string)
    (es : list Event) (s : State * World) : State * World :=
  foldl (fun s e => step tierType levelNumber questions e s) s es.

End CameraQuizPage.

(** ** AICameraEvaluation.tsx *)

Module AICameraEvaluation.

Inductive TierType := expert | pro.

Record Config := mkConfig { confidenceThreshold : float }.

(** Pro vs Expert configuration. *)
Definition config (tierType : TierType) : Config :=
  match tierType with
  | pro => mkConfig 0.7%float
  | expert => mkConfig 0.85%float
  end.

Definition currentConfig (tierType : TierType) : Config := config tierType.

Record State := mkState {
  checking : bool;
  result : option CheckResult;
  error : string;
  currentLetterIndex : nat;
  evaluationResults : list Evaluation;
}.

Definition initialState : State := mkState false None "" 0 [].

Definition setChecking (b : bool) (st : State) : State :=
  mkState b (result st) (error st) (currentLetterIndex st) (evaluationResults st).

Definition setResult (r : option CheckResult) (st : State) : State :=
  mkState (checking st) r (error st) (currentLetterIndex st) (evaluationResults st).

Definition setError (e : string) (st : State) : State :=
  mkState (checking st) (result st) e (currentLetterIndex st) (evaluationResults st).

Definition setCurrentLetterIndex (i : nat) (st : State) : State :=
  mkState (checking st) (result st) (error st) i (evaluationResults st).

Definition setEvaluationResults (l : list Evaluation) (st : State) : State :=
  mkState (checking st) (result st) (error st) (currentLetterIndex st) l.

Definition currentLetter (expectedLetters : list string) (st : State) : string :=
  default "" (expectedLetters !! currentLetterIndex st).

(** [data.match && data.confidence >= currentConfig.confidenceThreshold] *)
Definition passes (tierType : TierType) (data : CheckResult) : bool :=
  match_ data && PrimFloat.leb (confidenceThreshold (currentConfig tierType)) (confidence data).

(** What the component hands to its parent: the classifier request it sent,
    and the score given to [onComplete] (followed by the navigation back to
    the levels). *)
Inductive Effect :=
  | Asked (target : string) (landmarks : nat)
  | Completed (score : option Z).

Definition handleCheck (tierType : TierType) (expectedLetters : list string)
    (landmarks : option (list Landmark)) (answer : Fetched CheckResult)
    (st : State) : State * list Effect :=
  let st := setResult None (setError "" st) in
  match landmarks with
  | Some points =>
      if bool_decide (length points < 21) then
        (setError "No hand detected yet. Try showing your hand to the camera." st, [])
      else
        let st := setChecking true st in
        let asked := Asked (currentLetter expectedLetters st) (length points) in
        let '(st, effects) :=
          match answer with
          | Failed =>
              (setError "Unable to reach the backend server. Is Flask running?" st, [])
          | Answered false data =>
              (setError (if truthy (message data) then default "" (message data)
                         else "Backend returned an error.") st, [])
          | Answered true data =>
              let st := setResult (Some data) st in
              if passes tierType data then
                let newResult := mkEvaluation (currentLetter expectedLetters st) true in
                let updatedResults := evaluationResults st ++ [newResult] in
                let st := setEvaluationResults updatedResults st in
                if bool_decide (Z.of_nat (currentLetterIndex st)
                                < Z.of_nat (length expectedLetters) - 1)%Z
                then (setError "" (setResult None
                        (setCurrentLetterIndex (currentLetterIndex st + 1) st)), [])
                else
                  let score :=
                    percentOf (length (filter (fun r => ev_correct r = true) updatedResults))
                              (length expectedLetters) in
                  (st, [Completed score])
              else (st, [])
          end in
        (setChecking false st, asked :: effects)
  | None =>
      (setError "No hand detected yet. Try showing your hand to the camera." st, [])
  end.

Definition handleNext (expectedLetters : list string) (st : State)
  : State * list Effect :=
  let newResult := mkEvaluation (currentLetter expectedLetters st) false in
  let updatedResults := evaluationResults st ++ [newResult] in
  let st := setEvaluationResults updatedResults st in
  if bool_decide (Z.of_nat (currentLetterIndex st) < Z.of_nat (length expectedLetters) - 1)%Z
  then (setError "" (setResult None
          (setCurrentLetterIndex (currentLetterIndex st + 1) st)), [])
  else
    let score :=
      percentOf (length (filter (fun r => ev_correct r = true) updatedResults))
                (length expectedLetters) in
    (st, [Completed score]).

End AICameraEvaluation.

(** ** Specification-side definitions *)

(** The requests sent between two worlds. *)
Definition newRequests (w w' : World) : list Request :=
  drop (length (sent w)) (sent w').

(** [round(100 * correct / total)] on exact integers, ties upwards. *)
Definition roundPercent (correct total : nat) : Z :=
  ((200 * Z.of_nat correct + Z.of_nat total) / (2 * Z.of_nat total))%Z.

(** *** The score as the specification words it

    The recorded answer of a question is the entry of [quizAnswers] at its
    position, and for a word-spelling question the word built from the
    dropped letters. *)

Module ScoreSpec.
Import Beginner.

Definition caseInsensitiveEq (a b : string) : bool :=
  bool_decide (toUpperCase a = toUpperCase b).

Definition numericEq (a b : JsValue) : bool :=
  match a, b with
  | JsNumber x, JsNumber y => bool_decide (x = y)
  | _, _ => false
  end.

Definition recordedAnswer (st : State) (idx : nat) (q : Question) : option JsValue :=
  match type q with
  | word_spelling => JsString <$> wordSpellingAnswers st !! idx
  | _ => quizAnswers st !! idx
  end.

(** The variant-specific comparison of a recorded answer with
    [correctAnswer]: the sentinel for matching, numeric equality for
    true-false, case-insensitive string equality for the other two. *)
Definition answerMatches (q : Question) (a : JsValue) : bool :=
  match type q with
  | matching => bool_decide (a = JsString "matched")
  | true_false => numericEq a (correctAnswer q)
  | typing | word_spelling =>
      caseInsensitiveEq (String_ (Some a)) (String_ (Some (correctAnswer q)))
  end.

Definition matchesAsStated (st : State) (idx : nat) (q : Question) : bool :=
  match recordedAnswer st idx q with
  | Some a => answerMatches q a
  | None => false
  end.

(** Every pair's drop zone holds the pair's sign. *)
Definition allPairsCorrect (st : State) (idx : nat) (q : Question) : bool :=
  forallb (fun pair => bool_decide (droppedIcons st !! dropKey idx (pair_letter pair)
                                    = Some (sign pair)))
          (default [] (pairs q)).

(** The comparison the code makes: a matching question must moreover have
    all its drop zones right when the score is computed. *)
Definition matchesAndHolds (st : State) (idx : nat) (q : Question) : bool :=
  matchesAsStated st idx q
  && match type q with
     | matching => allPairsCorrect st idx q
     | _ => true
     end.

(** The number of questions, taken with their positions, that satisfy a
    test. *)
Definition countQuestions (test : nat -> Question -> bool) (questions : list Question)
  : nat :=
  length (filter (fun iq => test iq.1 iq.2 = true) (imap pair questions)).

(** The questions the comparisons are meant for: a typing answer is a string
    other than the text of [undefined], a true-false answer is a number, a
    word to spell is a non-empty string. *)
Definition wellFormed (q : Question) : bool :=
  match type q, correctAnswer q with
  | matching, _ => true
  | true_false, JsNumber _ => true
  | typing, JsString s => negb (caseInsensitiveEq s "undefined")
  | word_spelling, JsString s => negb (bool_decide (toUpperCase s = ""))
  | _, _ => false
  end.

End ScoreSpec.

(** *** Progress *)

(** The progress recorded in local storage. *)
Definition storedProgress (w : World) : option string * option string :=
  (localStorage w !! "level_type", localStorage w !! "level_number").

(** The progress updates sent between two worlds. *)
Definition progressUpdates (w w' : World) : list Request :=
  filter (fun r => isUpdateProgress r = true) (newRequests w w').

(** The targets sent to the classifier. *)
Definition targetsAsked (w : World) : list string :=
  omap (fun r => match r with AslCheck t _ => Some t | _ => None end) (sent w).

(** *** Content generation *)

(** A word-spelling question made from one of the options [opts]. *)
Definition wordQuestionFrom (opts : list Beginner.WordOption) (q : Beginner.Question) : Prop :=
  ∃ i wo, wo ∈ opts ∧ q = Beginner.wordQuestion i wo.

(** The number of word-spelling questions the generator asks for. *)
Definition wordCount (level : Z) : nat :=
  if bool_decide (2 <= level)%Z && bool_decide (3 <= length (Beginner.quizLettersOf level))
  then Nat.min (if bool_decide (3 <= level)%Z then 2 else 1)
               (length (Beginner.wordOptionsOf (Beginner.quizLettersOf level)))
  else 0.

(** *** The camera quiz session *)

(** What holds of every state of a session over the questions [qs]: the
    index points at a question, and every letter sent to the classifier or
    recorded as a result is a supported one. *)
Definition quizInvariant (qs : list string) (s : CameraQuizPage.State * World) : Prop :=
  CameraQuizPage.currentQuestionIndex s.1 < length qs
  ∧ Forall (fun t => t ∈ CameraQuizPage.allLetters) (targetsAsked s.2)
  ∧ Forall (fun r => ev_letter r ∈ CameraQuizPage.allLetters)
           (CameraQuizPage.evaluationResults s.1).

(** A hand as the detector reports it: 21 points. *)
Definition twentyOnePoints : list Landmark :=
  replicate 21 (mkLandmark 0.5%float 0.5%float 0%float).

(** *** The percentage *)

(** The float computation of the percentage against exact rounding, for
    every count up to a total, and every total up to 39. *)
Definition percentAgrees (total : nat) : bool :=
  forallb (fun c => bool_decide (percentOf c total = Some (roundPercent c total)))
          (seq 0 (S total)).

(** *** What a submission does to the progress *)

(** Whether the backend answered the progress update with [success]. *)
Definition succeeded (progressAnswer : Fetched Beginner.ProgressData) : bool :=
  match progressAnswer with
  | Answered _ data => Beginner.progress_success data
  | Failed => false
  end.

(** *** A session on the first level

    The quiz of level 1 drawn with an oracle that always answers 0: the
    typing questions C, D, A, the matching question (pairs B, C, D, A), the
    typing question B.  The user opens the quiz directly, answers the first
    three questions, drops the four right icons on the matching question,
    possibly drops the icon of A on the zone of B afterwards, and answers the
    last question. *)

Module Scenario.
Import Beginner.

Definition level1 : LevelData := run (getLevelData 1) [].

Definition signedIn : World := mkWorld {[ "user_id" := "7" ]} [].

Definition guest : World := mkWorld ∅ [].

Definition saved : Fetched SaveScoreData := Answered true (mkSaveScoreData None).

Definition updated : Fetched ProgressData := Answered true (mkProgressData true).

Definition untilMatched : list Event :=
  [ TypeAnswer "c"; Next saved updated;
    TypeAnswer "d"; Next saved updated;
    TypeAnswer "a"; Next saved updated;
    DragIcon 1; DropOnPair 0;
    DragIcon 2; DropOnPair 1;
    DragIcon 3; DropOnPair 2;
    DragIcon 0; DropOnPair 3 ].

Definition wrongDrop : list Event := [ DragIcon 0; DropOnPair 0 ].

Definition untilSubmitted : list Event :=
  [ Next saved updated; TypeAnswer "b"; Next saved updated ].

Definition play (es : list Event) (w : World) : State * World :=
  runEvents beginner 1 level1 es (initialState quiz, w).

(** The matching question of that quiz, the state in which it becomes the
    current question, and the four right drops. *)
Definition matchingPairs : list Pair :=
  [ mkPair "B" "/B.png"; mkPair "C" "/C.png"; mkPair "D" "/D.png"; mkPair "A" "/A.png" ].

Definition atMatching : State := (play (take 6 untilMatched) signedIn).1.

Definition rightDrops : list (string * string) :=
  [ ("/B.png", "B"); ("/C.png", "C"); ("/D.png", "D"); ("/A.png", "A") ].

(** The camera quiz of level 1 with the same oracle, every sign shown with
    full confidence. *)
Definition cameraQuestions : list string := run (CameraQuizPage.questions 1) [].

Definition rightSign (l : string) : CameraQuizPage.Event :=
  CameraQuizPage.CheckSign (Some twentyOnePoints)
    (Answered true (mkCheckResult true true l l 1%float None)).

Definition cameraPlay (es : list CameraQuizPage.Event) (w : World)
  : CameraQuizPage.State * World :=
  CameraQuizPage.runEvents "pro" 1 cameraQuestions es (CameraQuizPage.initialState, w).

End Scenario.

(** *** More on the generated content *)

(** The pair made of a letter and its sign, as the matching question builds
    it. *)
Definition pairOfLetter (ld : Beginner.LetterData) : Beginner.Pair :=
  Beginner.mkPair (Beginner.letter ld)
    (Beginner.src (Beginner.getImageSrc (Beginner.letter ld) (Beginner.emoji ld))).

(** The reference of the icon of a letter of the table. *)
Definition iconOf (l : string) : string := "/" +:+ l +:+ ".png".

(** The references offered by the icon bank of a level. *)
Definition bankIcons (level : Z) : list string :=
  (fun item => Beginner.src (Beginner.bank_imageData item)) <$> Beginner.getIconBank level.

(** ** The pages around the quiz: Home.tsx, BeginnerLevels.tsx, App.tsx

    The home page and the page of the levels of a tier read the stored
    [level_type], and both ask [/user-progress] for the row of the user.
    That request only reads; the model keeps its answer. *)

(** The body answered by [/user-progress]; a field is [None] when it is
    absent or [null], and a level number is an integer. *)
Record UserProgress := mkUserProgress {
  up_level_type : option string;
  up_level_number : option Z;
}.

(** [s || d] on a [string | null | undefined]. *)
Definition orString (o : option string) (d : string) : string :=
  if truthy o then default "" o else d.

(** [n || d] on a [number | null | undefined]. *)
Definition orNumber (o : option Z) (d : Z) : Z :=
  match o with
  | Some n => if bool_decide (n = 0%Z) then d else n
  | None => d
  end.

Definition removeItem (k : string) (w : World) : World :=
  mkWorld (delete k (localStorage w)) (sent w).

(** *** BeginnerLevels.tsx *)

Module BeginnerLevels.

Inductive LevelStatus := locked | unlocked | completed.

#[global] Instance LevelStatus_eq_dec : EqDecision LevelStatus.
Proof. solve_decision. Defined.

Record Level := mkLevel {
  id : Z;
  name : string;
  status : LevelStatus;
  score : Z;
}.

Definition tierOrder : list string := ["beginner"; "intermediate"; "expert"; "pro"].

(** The levels of a tier the user has left behind. *)
Definition allCompleted : list Level :=
  (fun i => mkLevel i ("Level " +:+ pretty i) completed 100) <$> seqZ 1 5.

(** The levels of the tier the user is in, from the current level. *)
Definition initialLevels (currentLevel : Z) : list Level :=
  let totalLevels := 5%Z in
  (fun i => mkLevel i ("Level " +:+ pretty i)
              (if (i <? currentLevel)%Z then completed
               else if bool_decide (i = currentLevel) then unlocked else locked)
              (if (i <? currentLevel)%Z then 100%Z else 0%Z))
  <$> seqZ 1 totalLevels.

(** [loadProgress]: the levels given to [setLevels] ([loading] is set to
    false on every path). *)
Definition loadProgress (tierType : TierType) (storage : gmap string string)
    (answer : Fetched UserProgress) : list Level :=
  let userId := storage !! "user_id" in
  let currentLevelType := orString (storage !! "level_type") "beginner" in
  let currentTierIndex := indexOf currentLevelType tierOrder in
  let requestedTierIndex := indexOf (tierName tierType) tierOrder in
  if (currentTierIndex <? requestedTierIndex)%Z then []
  else if (requestedTierIndex <? currentTierIndex)%Z then allCompleted
  else
    let currentLevel :=
      if truthy userId && bool_decide (currentLevelType = tierName tierType) then
        match answer with
        | Answered true data =>
            if bool_decide (up_level_type data = Some (tierName tierType))
            then orNumber (up_level_number data) 1
            else 1%Z
        | _ => 1%Z
        end
      else 1%Z in
    initialLevels currentLevel.

(** The target of a navigation to a lesson page: the route, and the [level]
    and [mode] of its query. *)
Record Navigation := mkNavigation {
  nav_path : string;
  nav_level : Z;
  nav_mode : string;
}.

Definition tierRoutes (tierType : TierType) : string :=
  match tierType with
  | beginner => "/beginner"
  | intermediate => "/intermediate"
  | expert => "/expert"
  | pro => "/pro"
  end.

Definition handleLevelClick (tierType : TierType) (levelId : Z) (status : LevelStatus)
  : option Navigation :=
  if bool_decide (status = locked) then None
  else Some (mkNavigation (tierRoutes tierType) levelId "lesson").

(** The Play buttons of the page: a level that is locked has none. *)
Definition playButtons (tierType : TierType) (levels : list Level) : list Navigation :=
  omap (fun level =>
          if bool_decide (status level = locked) then None
          else handleLevelClick tierType (id level) (status level))
       levels.

End BeginnerLevels.

(** *** Home.tsx *)

Module Home.

Inductive LessonStatus := current | locked | done.

#[global] Instance LessonStatus_eq_dec : EqDecision LessonStatus.
Proof. solve_decision. Defined.

Record Lesson := mkLesson {
  id : Z;
  label : string;
  status : LessonStatus;
}.

(** The table of both [getTierProgress] and [checkProgress].  It is that of
    the page for the four tier names, which are its keys.  Any other name
    that [Object.prototype] does not define gives [undefined], hence [0], on
    the page as here; for a name inherited from [Object.prototype]
    ([constructor], [valueOf], ...) the page reads a function or an object
    where the table gives [0], and the table does not follow the page.
    What is stated below about the tier progress is stated for a stored or
    answered [level_type] that is absent, empty or a tier name. *)
Definition tierMap : gmap string Z :=
  <["beginner" := 0%Z]> (<["intermediate" := 1%Z]>
    (<["expert" := 2%Z]> (<["pro" := 3%Z]> ∅))).

Definition getTierProgress (storage : gmap string string) : Z :=
  let levelType := orString (storage !! "level_type") "beginner" in
  orNumber (tierMap !! levelType) 0.

(** [checkProgress], run when the page mounts, on the state [tierProgress]. *)
Definition checkProgress (answer : Fetched UserProgress) (tierProgress : Z) (w : World)
  : Z * World :=
  let userId := localStorage w !! "user_id" in
  if truthy userId then
    match answer with
    | Answered true data =>
        let levelType := orString (up_level_type data) "beginner" in
        let newProgress := orNumber (tierMap !! levelType) 0 in
        (newProgress, setItem "level_type" levelType w)
    | _ => (tierProgress, w)
    end
  else (tierProgress, w).

Definition baseLessons : list (Z * string) :=
  [(1%Z, "Beginner"); (2%Z, "Intermediate"); (3%Z, "Expert"); (4%Z, "Pro")].

Definition getTierStatus (tierProgress : Z) (tierId : Z) : LessonStatus :=
  if bool_decide (tierId = 1%Z) then current
  else if (tierId - 1 <=? tierProgress)%Z then current else locked.

Definition lessons (tierProgress : Z) : list Lesson :=
  (fun lesson => mkLesson lesson.1 lesson.2 (getTierStatus tierProgress lesson.1))
  <$> baseLessons.

Definition tierRoutes : gmap Z string :=
  <[1%Z := "/beginner-levels"]> (<[2%Z := "/intermediate-levels"]>
    (<[3%Z := "/expert-levels"]> (<[4%Z := "/pro-levels"]> ∅))).

(** The route navigated to, if any. *)
Definition handleLevelClick (tierProgress : Z) (levelId : Z) : option string :=
  match list_find (fun l => id l = levelId) (lessons tierProgress) with
  | Some (_, level) =>
      if bool_decide (status level ≠ locked) then tierRoutes !! levelId else None
  | None => None
  end.

(** [handleSignOut], before it navigates to the login page. *)
Definition handleSignOut (w : World) : World :=
  removeItem "level_number" (removeItem "level_type"
    (removeItem "username" (removeItem "user_id" w))).

End Home.

(** *** App.tsx: the routes of the pages modelled here *)

Module App.

Inductive Page :=
  | HomePage
  | CameraQuiz
  | Levels (tierType : TierType)
  | Lesson (tierType : TierType).

Definition routes : gmap string Page :=
  list_to_map
    [ ("/home", HomePage); ("/camera-quiz", CameraQuiz);
      ("/beginner-levels", Levels beginner);
      ("/intermediate-levels", Levels intermediate);
      ("/expert-levels", Levels expert); ("/pro-levels", Levels pro);
      ("/beginner", Lesson beginner); ("/intermediate", Lesson intermediate);
      ("/expert", Lesson expert); ("/pro", Lesson pro) ].

End App.

(** [searchParams.get("mode") === "quiz" ? "quiz" : "learning"] of the lesson
    page. *)
Definition initialMode (mode : option string) : Beginner.Mode :=
  if bool_decide (mode = Some "quiz") then Beginner.quiz else Beginner.learning.

(** A [level_type], stored or answered by the backend, that is absent, empty
    or one of the four tier names. *)
Definition knownTier (levelType : option string) : Prop :=
  orString levelType "beginner" ∈ BeginnerLevels.tierOrder.

(** An answer to [/user-progress] whose row, if the page takes it, has such a
    [level_type]. *)
Definition knownRow (answer : Fetched UserProgress) : Prop :=
  match answer with
  | Answered true data => knownTier (up_level_type data)
  | _ => True
  end.

(** *** The camera quiz with its pending work

    [CameraQuizPage.handleCheck] above is a whole check: the click, the
    answer of the classifier and the delayed update.  On the page these are
    three moments.  The click returns at the [await]; the rest of
    [handleCheck] runs when the classifier answers, with the values of the
    render in which the button was clicked; a passing check records its
    result at once, but moves to the next question after 1.5 s, or shows the
    results and saves the score after 2 s.  In between the page stays live:
    Skip is rendered until the results are shown, and Check is rendered with
    it and enabled unless a check is waiting for its answer (so that at most
    one check waits at a time).  The camera is taken to be started and
    ready. *)

Module CameraQuizAsync.

(** What the rest of [handleCheck] has captured at the click. *)
Record Closure := mkClosure {
  cl_letter : string;
  cl_index : nat;
  cl_results : list Evaluation;
}.

(** The two callbacks given to [setTimeout]. *)
Inductive Timer :=
  | NextQuestion (index : nat)
  | ShowResults (score : option Z).

Record Page := mkPage {
  state : CameraQuizPage.State;
  awaiting : option Closure;
  timers : list Timer;
}.

Definition initialPage : Page := mkPage CameraQuizPage.initialState None [].

(** A click on Check or on Skip, the answer to the check that waits, the
    firing of the pending timer at position [k] (timers may fire in any
    order: more orders than the delays allow). *)
Inductive Event :=
  | ClickCheck (landmarks : option (list Landmark))
  | Answer (answer : Fetched CheckResult)
  | Timeout (k : nat)
  | ClickSkip.

(** [handleCheck] up to the [await]. *)
Definition clickCheck (questions : list string) (landmarks : option (list Landmark))
    (p : Page) (w : World) : Page * World :=
  let st := state p in
  if CameraQuizPage.showResults st || CameraQuizPage.checking st then (p, w)
  else
    let st1 := CameraQuizPage.setResult None (CameraQuizPage.setError "" st) in
    let noHand :=
      (mkPage (CameraQuizPage.setError
                 "No hand detected yet. Try showing your hand to the camera." st1)
              (awaiting p) (timers p), w) in
    match landmarks with
    | Some points =>
        if bool_decide (length points < 21) then noHand
        else
          let letter := CameraQuizPage.currentLetter questions st in
          (mkPage (CameraQuizPage.setChecking true st1)
                  (Some (mkClosure letter (CameraQuizPage.currentQuestionIndex st)
                           (CameraQuizPage.evaluationResults st)))
                  (timers p),
           send (AslCheck letter (length points)) w)
    | None => noHand
    end.

(** [handleCheck] from the [await] on, [finally] included. *)
Definition answered (tierType : string) (questions : list string)
    (answer : Fetched CheckResult) (p : Page) (w : World) : Page * World :=
  match awaiting p with
  | None => (p, w)
  | Some cl =>
      let st := state p in
      let '(st, scheduled) :=
        match answer with
        | Failed =>
            (CameraQuizPage.setError
               "Unable to reach the backend server. Is Flask running?" st, [])
        | Answered false data =>
            (CameraQuizPage.setError
               (if truthy (message data) then default "" (message data)
                else "Backend returned an error.") st, [])
        | Answered true data =>
            let st := CameraQuizPage.setResult (Some data) st in
            if CameraQuizPage.passes tierType data then
              let newResult := mkEvaluation (cl_letter cl) true in
              let updatedResults := cl_results cl ++ [newResult] in
              let st := CameraQuizPage.setEvaluationResults updatedResults st in
              if bool_decide (Z.of_nat (cl_index cl) < Z.of_nat (length questions) - 1)%Z
              then (st, [NextQuestion (cl_index cl + 1)])
              else
                let score :=
                  percentOf (length (filter (fun r => ev_correct r = true) updatedResults))
                            (length questions) in
                (st, [ShowResults score])
            else (st, [])
        end in
      (mkPage (CameraQuizPage.setChecking false st) None (timers p ++ scheduled), w)
  end.

(** The callback of the timer at position [k]. *)
Definition timeout (tierType : string) (levelNumber : Z) (k : nat)
    (p : Page) (w : World) : Page * World :=
  let st := state p in
  match timers p !! k with
  | None => (p, w)
  | Some (NextQuestion index) =>
      (mkPage (CameraQuizPage.setError "" (CameraQuizPage.setResult None
                 (CameraQuizPage.setCurrentQuestionIndex index st)))
              (awaiting p) (delete k (timers p)), w)
  | Some (ShowResults score) =>
      let st := CameraQuizPage.setShowResults true st in
      let userId := localStorage w !! "user_id" in
      (mkPage st (awaiting p) (delete k (timers p)),
       if truthy userId
       then send (SaveScore (default "" userId) tierType levelNumber score) w
       else w)
  end.

(** [handleSkip], which runs at once on the state of the render. *)
Definition clickSkip (tierType : string) (levelNumber : Z) (questions : list string)
    (p : Page) (w : World) : Page * World :=
  if CameraQuizPage.showResults (state p) then (p, w)
  else
    let out := CameraQuizPage.handleSkip tierType levelNumber questions (state p) w in
    (mkPage out.1 (awaiting p) (timers p), out.2).

Definition step (tierType : string) (levelNumber : Z) (questions : list string)
    (e : Event) (s : Page * World) : Page * World :=
  match e with
  | ClickCheck landmarks => clickCheck questions landmarks s.1 s.2
  | Answer answer => answered tierType questions answer s.1 s.2
  | Timeout k => timeout tierType levelNumber k s.1 s.2
  | ClickSkip => clickSkip tierType levelNumber questions s.1 s.2
  end.

Definition run (tierType : string) (levelNumber : Z) (questions : list string)
    (es : list Event) (s : Page * World) : Page * World :=
  foldl (fun s e => step tierType levelNumber questions e s) s es.

(** A press of a button followed by all that it sets off: for Check the
    answer of the classifier and then the timer, if one was set. *)
Definition press (e : CameraQuizPage.Event) : list Event :=
  match e with
  | CameraQuizPage.CheckSign landmarks answer =>
      [ClickCheck landmarks; Answer answer; Timeout 0]
  | CameraQuizPage.SkipSign => [ClickSkip]
  end.

(** A session in which the user lets each press run its course before the
    next one. *)
Definition oneAtATime (es : list CameraQuizPage.Event) : list Event :=
  es ≫= press.

(** Nothing is pending. *)
Definition quiet (p : Page) : Prop :=
  awaiting p = None ∧ timers p = [] ∧ CameraQuizPage.checking (state p) = false.

End CameraQuizAsync.

(** The number of results recorded as correct. *)
Definition correctCount (results : list Evaluation) : nat :=
  length (filter (fun r => ev_correct r = true) results).

(** What holds of a camera session over the questions [qs] of a user whose
    stored id is [userId]: until the results are shown the results recorded
    are those of the questions before the current one, in order; once they
    are shown there is one result per question, and the last request sent
    saved the percentage of the results recorded as correct. *)
Definition sessionInvariant (tierType : string) (levelNumber : Z) (qs : list string)
    (userId : option string) (s : CameraQuizPage.State * World) : Prop :=
  localStorage s.2 !! "user_id" = userId
  ∧ if CameraQuizPage.showResults s.1
    then ev_letter <$> CameraQuizPage.evaluationResults s.1 = qs
         ∧ (truthy userId = true ->
            last (sent s.2)
            = Some (SaveScore (default "" userId) tierType levelNumber
                      (percentOf (correctCount (CameraQuizPage.evaluationResults s.1))
                                 (length qs))))
    else ev_letter <$> CameraQuizPage.evaluationResults s.1
         = take (CameraQuizPage.currentQuestionIndex s.1) qs
         ∧ CameraQuizPage.currentQuestionIndex s.1 < length qs.

(** *** What a check needs to record a result

    A hand was seen: the landmarks are there and there are at least 21 of
    them.  The backend accepted the sign: it answered, with success, a
    result that passes the tier's test. *)

Definition handDetected (landmarks : option (list Landmark)) : bool :=
  match landmarks with
  | Some points => bool_decide (21 <= length points)
  | None => false
  end.

Definition landmarkCount (landmarks : option (list Landmark)) : nat :=
  match landmarks with
  | Some points => length points
  | None => 0
  end.

Definition accepted {T : Type} (passes : T -> CheckResult -> bool) (tierType : T)
    (answer : Fetched CheckResult) : bool :=
  match answer with
  | Answered true data => passes tierType data
  | _ => false
  end.

(** Closes one case of the analysis of [handleSubmitQuiz]. *)
Ltac submit_leaf :=
  simpl; split_and!;
  [ unfold newRequests; simpl;
    rewrite <- ?app_assoc, ?drop_app_length, ?drop_all; reflexivity
  | reflexivity
  | by rewrite ?orb_false_l ].

(** * Properties *)

(** ** The random oracle *)

Lemma random_int_lt k rs : 0 < k -> (random_int k rs).1 < k.
Proof.
  intros Hk. destruct rs as [|r rs]; simpl; [lia|].
  apply Nat.mod_upper_bound. lia.
Qed.

(** ** [slice] *)

Lemma slice_0_nonneg {A} (n : Z) (l : list A) :
  (0 <= n)%Z -> slice 0 n l = take (Z.to_nat n) l.
Proof.
  intros Hn. unfold slice, relativeIndex.
  destruct (Z.ltb_spec 0 0); [lia|].
  destruct (Z.ltb_spec n 0); [lia|].
  rewrite (Z.min_l 0) by lia. simpl. rewrite drop_0, Nat.sub_0_r.
  destruct (decide (n <= Z.of_nat (length l))%Z).
  - by rewrite Z.min_l by lia.
  - rewrite Z.min_r by lia. rewrite Nat2Z.id.
    rewrite !take_ge; [done|lia..].
Qed.

Lemma slice_sublist {A} (a b : Z) (l : list A) : slice a b l `sublist_of` l.
Proof.
  unfold slice. etrans; [apply sublist_take|apply sublist_drop].
Qed.

(** ** [shuffle] permutes *)

Section shuffle_facts.
Context {A : Type}.
Implicit Types l : list A.

Lemma swap_length i j l : length (swap i j l) = length l.
Proof.
  unfold swap. destruct (l !! j), (l !! i); try done.
  by rewrite !length_insert.
Qed.

Lemma swap_Permutation i j l : swap i j l ≡ₚ l.
Proof.
  unfold swap.
  destruct (l !! j) as [aj|] eqn:Hj; [|done].
  destruct (l !! i) as [ai|] eqn:Hi; [|done].
  destruct (decide (i = j)) as [->|Hne].
  { rewrite list_insert_insert_eq. rewrite list_insert_id; [done|congruence]. }
  pose proof (lookup_lt_Some _ _ _ Hi) as Hli.
  pose proof (lookup_lt_Some _ _ _ Hj) as Hlj.
  set (l1 := <[i := aj]> l).
  assert (Hl1j : l1 !! j = Some aj).
  { unfold l1. by rewrite list_lookup_insert_ne. }
  assert (Hl1i : l1 !! i = Some aj).
  { unfold l1. by rewrite list_lookup_insert_eq. }
  assert (H2 : (<[j := ai]> l1) !! j = Some ai).
  { rewrite list_lookup_insert_eq; [done|]. unfold l1. by rewrite length_insert. }
  (* take the element at [j] out on both sides *)
  rewrite (delete_Permutation _ _ _ H2).
  rewrite (delete_Permutation l i ai Hi).
  assert (Hd : delete j (<[j := ai]> l1) = delete j l1).
  { rewrite !delete_take_drop. rewrite take_insert_ge by lia.
    by rewrite drop_insert_lt by lia. }
  rewrite Hd.
  assert (Hp1 : l1 ≡ₚ aj :: delete j l1) by by apply delete_Permutation.
  assert (Hp2 : l1 ≡ₚ aj :: delete i l1) by by apply delete_Permutation.
  assert (Hd2 : delete i l1 = delete i l).
  { unfold l1. rewrite !delete_take_drop. rewrite take_insert_ge by lia.
    by rewrite drop_insert_lt by lia. }
  rewrite Hd2 in Hp2. rewrite Hp1 in Hp2.
  apply Permutation_cons_inv in Hp2. by rewrite Hp2.
Qed.

Lemma shuffle_loop_Permutation i l rs : (shuffle_loop i l rs).1 ≡ₚ l.
Proof.
  revert l rs. induction i as [|i IH]; intros l rs; [done|].
  cbn [shuffle_loop]. unfold JS.bind.
  destruct (random_int (S i + 1) rs) as [j rs'].
  rewrite IH. apply swap_Permutation.
Qed.

Lemma shuffle_Permutation l rs : run (shuffle l) rs ≡ₚ l.
Proof. apply shuffle_loop_Permutation. Qed.

Lemma shuffle_length l rs : length (run (shuffle l) rs) = length l.
Proof. apply Permutation_length, shuffle_Permutation. Qed.

Lemma shuffle_elem_of l rs x : x ∈ run (shuffle l) rs ↔ x ∈ l.
Proof. by rewrite shuffle_Permutation. Qed.
End shuffle_facts.

(** ** [shuffle] over the store: the copy is shuffled, the argument is not *)

Section shuffle_ref_facts.
Context {A : Type}.
Implicit Types σ : gmap Store.loc (list A).

Lemma swap_ref_spec a i j σ l :
  σ !! a = Some l -> Store.swap_ref a i j σ = <[a := swap i j l]> σ.
Proof.
  intros Ha. unfold Store.swap_ref, Store.arr_get, swap. rewrite Ha. simpl.
  destruct (l !! j) as [aj|]; [|by rewrite insert_id].
  destruct (l !! i) as [ai|]; [|by rewrite insert_id].
  unfold Store.arr_set. apply map_eq. intros k.
  destruct (decide (a = k)) as [->|Hne].
  - rewrite !lookup_alter_eq, lookup_insert_eq, Ha. done.
  - rewrite !lookup_alter_ne, lookup_insert_ne by done. done.
Qed.

Lemma shuffle_loop_ref_spec i a σ l rs :
  σ !! a = Some l ->
  Store.shuffle_loop_ref i a σ rs
  = (<[a := (shuffle_loop i l rs).1]> σ, (shuffle_loop i l rs).2).
Proof.
  revert σ l rs. induction i as [|i IH]; intros σ l rs Ha.
  - simpl. unfold JS.ret. simpl. by rewrite insert_id.
  - cbn [Store.shuffle_loop_ref shuffle_loop]. unfold JS.bind.
    destruct (random_int (S i + 1) rs) as [j rs'].
    rewrite (swap_ref_spec _ _ _ _ l Ha).
    rewrite (IH _ (swap (S i) j l)) by apply lookup_insert_eq.
    by rewrite insert_insert_eq.
Qed.

Lemma shuffle_ref_spec array σ l rs :
  σ !! array = Some l ->
  run (Store.shuffle_ref array σ) rs
  = (fresh (dom σ), <[fresh (dom σ) := run (shuffle l) rs]> σ).
Proof.
  intros Ha. unfold Store.shuffle_ref, Store.spread, run, JS.bind, JS.ret.
  rewrite Ha. simpl. rewrite lookup_insert_eq. simpl.
  rewrite (shuffle_loop_ref_spec _ _ _ l) by apply lookup_insert_eq.
  simpl. by rewrite insert_insert_eq.
Qed.

(** C10. For every input array, [shuffle] returns an array of the same
    length holding the same elements with the same multiplicities (a
    permutation of the input), and the array it was given is left as it
    was: the result lives at a new location of the store, the input
    location still holds the input list, and no other location changes. *)
Theorem shuffle_permutes_a_copy array σ l rs :
  σ !! array = Some l ->
  let out := run (Store.shuffle_ref array σ) rs in
  out.2 !! array = Some l
  ∧ out.1 ≠ array
  ∧ out.2 !! out.1 = Some (run (shuffle l) rs)
  ∧ length (run (shuffle l) rs) = length l
  ∧ run (shuffle l) rs ≡ₚ l
  ∧ ∀ a, a ≠ out.1 -> out.2 !! a = σ !! a.
Proof.
  intros Ha. cbv zeta. rewrite (shuffle_ref_spec _ _ l) by done. simpl.
  assert (Hfresh : fresh (dom σ) ≠ array).
  { intros Heq. apply (is_fresh (dom σ)). rewrite Heq.
    apply elem_of_dom. by exists l. }
  split_and!.
  - by rewrite lookup_insert_ne.
  - done.
  - apply lookup_insert_eq.
  - apply shuffle_length.
  - apply shuffle_Permutation.
  - intros a Hne. by rewrite lookup_insert_ne.
Qed.

(** Without the store: the result is a permutation of the argument. *)
Lemma shuffle_same_multiset (l : list A) rs :
  length (run (shuffle l) rs) = length l ∧ run (shuffle l) rs ≡ₚ l.
Proof. split; [apply shuffle_length|apply shuffle_Permutation]. Qed.
End shuffle_ref_facts.

Lemma shuffle_permutes_a_copy_witness :
  let σ : gmap Store.loc (list nat) := {[ 7 := [10; 20; 30; 40] ]} in
  let out := run (Store.shuffle_ref 7 σ) [2; 0; 1] in
  σ !! 7 = Some [10; 20; 30; 40]
  ∧ out.2 !! 7 = Some [10; 20; 30; 40]
  ∧ out.2 !! out.1 = Some [40; 20; 10; 30].
Proof.
  intros σ out.
  pose proof (shuffle_permutes_a_copy 7 σ [10; 20; 30; 40] [2; 0; 1] eq_refl)
    as (H1 & _ & H3 & _).
  split; [reflexivity|]. split; [exact H1|]. exact H3.
Defined.

(** ** The confidence thresholds and the pass condition of the camera checks *)

Lemma quiz_page_threshold tierType :
  tierType = "pro" \/ tierType = "expert" ->
  CameraQuizPage.confidenceThreshold (CameraQuizPage.currentConfig tierType) = 0.7%float.
Proof. by intros [->| ->]. Qed.

(** C9. The standalone evaluator component requires a confidence of 0.70
    for tier pro and 0.85 for tier expert; the camera quiz page requires 0.70
    for both pro and expert. *)
Theorem thresholds_of_the_two_entry_points :
  AICameraEvaluation.confidenceThreshold
    (AICameraEvaluation.currentConfig AICameraEvaluation.pro) = 0.7%float
  ∧ AICameraEvaluation.confidenceThreshold
      (AICameraEvaluation.currentConfig AICameraEvaluation.expert) = 0.85%float
  ∧ CameraQuizPage.confidenceThreshold (CameraQuizPage.currentConfig "pro") = 0.7%float
  ∧ CameraQuizPage.confidenceThreshold (CameraQuizPage.currentConfig "expert") = 0.7%float.
Proof. split_and!; reflexivity. Qed.

(** The two tables disagree on an expert answer of confidence 0.8. *)
Example expert_check_differs :
  let data := mkCheckResult true true "A" "A" 0.8%float None in
  CameraQuizPage.passes "expert" data = true
  ∧ AICameraEvaluation.passes AICameraEvaluation.expert data = false.
Proof. split; reflexivity. Qed.

Lemma snoc_ne_self {A} (l : list A) x : l ++ [x] ≠ l.
Proof.
  intros H. apply (f_equal length) in H. rewrite length_app in H. simpl in H. lia.
Qed.

Lemma quiz_finish_results tierType levelNumber qs updated st w :
  CameraQuizPage.evaluationResults
    (CameraQuizPage.finish tierType levelNumber qs updated st w).1
  = CameraQuizPage.evaluationResults st.
Proof. unfold CameraQuizPage.finish. by destruct (truthy _). Qed.

Lemma quiz_handleCheck_results tierType levelNumber qs points data st w :
  21 <= length points ->
  CameraQuizPage.evaluationResults
    (CameraQuizPage.handleCheck tierType levelNumber qs (Some points)
       (Answered true data) st w).1
  = if CameraQuizPage.passes tierType data
    then CameraQuizPage.evaluationResults st
         ++ [mkEvaluation (CameraQuizPage.currentLetter qs st) true]
    else CameraQuizPage.evaluationResults st.
Proof.
  intros Hp. unfold CameraQuizPage.handleCheck.
  rewrite bool_decide_eq_false_2 by lia.
  destruct (CameraQuizPage.passes tierType data); [|done].
  case_bool_decide; [done|].
  match goal with |- context [CameraQuizPage.finish ?a ?b ?c ?d ?e ?f] =>
    pose proof (quiz_finish_results a b c d e f) as Hf;
    destruct (CameraQuizPage.finish a b c d e f) end.
  simpl in *. exact Hf.
Qed.

Lemma evaluator_handleCheck_results tierType letters points data st :
  21 <= length points ->
  AICameraEvaluation.evaluationResults
    (AICameraEvaluation.handleCheck tierType letters (Some points)
       (Answered true data) st).1
  = if AICameraEvaluation.passes tierType data
    then AICameraEvaluation.evaluationResults st
         ++ [mkEvaluation (AICameraEvaluation.currentLetter letters st) true]
    else AICameraEvaluation.evaluationResults st.
Proof.
  intros Hp. unfold AICameraEvaluation.handleCheck.
  rewrite bool_decide_eq_false_2 by lia.
  destruct (AICameraEvaluation.passes tierType data); [|done].
  by case_bool_decide.
Qed.

(** C2. For the tiers pro and expert, a check that reaches the classifier
    (at least 21 landmarks, an answer with [response.ok]) records the
    current letter as correct exactly when the answer has [match] true and a
    confidence at least the tier's threshold, on the camera quiz page and in
    the standalone evaluator alike.  An answer whose confidence equals the
    threshold passes, and an answer with [match] false never passes,
    whatever its confidence. *)
Theorem check_passes_iff_match_and_threshold :
  (∀ tierType levelNumber qs points data st w,
     tierType = "pro" \/ tierType = "expert" ->
     21 <= length points ->
     let st' := (CameraQuizPage.handleCheck tierType levelNumber qs (Some points)
                   (Answered true data) st w).1 in
     CameraQuizPage.evaluationResults st'
       = CameraQuizPage.evaluationResults st
         ++ [mkEvaluation (CameraQuizPage.currentLetter qs st) true]
     ↔ match_ data = true
       ∧ PrimFloat.leb
           (CameraQuizPage.confidenceThreshold (CameraQuizPage.currentConfig tierType))
           (confidence data) = true)
  ∧ (∀ tierType letters points data st,
     21 <= length points ->
     let st' := (AICameraEvaluation.handleCheck tierType letters (Some points)
                   (Answered true data) st).1 in
     AICameraEvaluation.evaluationResults st'
       = AICameraEvaluation.evaluationResults st
         ++ [mkEvaluation (AICameraEvaluation.currentLetter letters st) true]
     ↔ match_ data = true
       ∧ PrimFloat.leb
           (AICameraEvaluation.confidenceThreshold
              (AICameraEvaluation.currentConfig tierType))
           (confidence data) = true)
  ∧ (∀ tierType data,
     tierType = "pro" \/ tierType = "expert" ->
     match_ data = true ->
     confidence data
       = CameraQuizPage.confidenceThreshold (CameraQuizPage.currentConfig tierType) ->
     CameraQuizPage.passes tierType data = true)
  ∧ (∀ tierType data,
     match_ data = true ->
     confidence data
       = AICameraEvaluation.confidenceThreshold
           (AICameraEvaluation.currentConfig tierType) ->
     AICameraEvaluation.passes tierType data = true)
  ∧ (∀ tierType data,
     tierType = "pro" \/ tierType = "expert" ->
     match_ data = false -> CameraQuizPage.passes tierType data = false)
  ∧ (∀ tierType data,
     match_ data = false -> AICameraEvaluation.passes tierType data = false).
Proof.
  split_and!.
  - intros tierType levelNumber qs points data st w _ Hp. cbv zeta.
    rewrite quiz_handleCheck_results by done.
    unfold CameraQuizPage.passes.
    destruct (match_ data), (PrimFloat.leb _ _); simpl;
      split; try done; try (intros [? ?]; done);
      intros H; symmetry in H; by apply snoc_ne_self in H.
  - intros tierType letters points data st Hp. cbv zeta.
    rewrite evaluator_handleCheck_results by done.
    unfold AICameraEvaluation.passes.
    destruct (match_ data), (PrimFloat.leb _ _); simpl;
      split; try done; try (intros [? ?]; done);
      intros H; symmetry in H; by apply snoc_ne_self in H.
  - intros tierType data Ht Hm Hc. unfold CameraQuizPage.passes.
    rewrite Hm, Hc, quiz_page_threshold by done. reflexivity.
  - intros tierType data Hm Hc. unfold AICameraEvaluation.passes.
    rewrite Hm, Hc. by destruct tierType.
  - intros tierType data _ Hm. unfold CameraQuizPage.passes. by rewrite Hm.
  - intros tierType data Hm. unfold AICameraEvaluation.passes. by rewrite Hm.
Qed.

Lemma check_passes_iff_match_and_threshold_witness :
  let data := mkCheckResult true true "B" "B" 0.7%float None in
  let st := CameraQuizPage.initialState in
  let w := mkWorld ∅ [] in
  ("expert" = "pro" \/ "expert" = "expert")
  ∧ 21 <= length twentyOnePoints
  ∧ CameraQuizPage.evaluationResults
      (CameraQuizPage.handleCheck "expert" 1 ["B"; "A"; "D"; "C"] (Some twentyOnePoints)
         (Answered true data) st w).1
    = [mkEvaluation "B" true]
  ∧ CameraQuizPage.passes "expert" data = true
  ∧ AICameraEvaluation.passes AICameraEvaluation.pro data = true.
Proof.
  intros data st w.
  destruct check_passes_iff_match_and_threshold as (H1 & _ & H3 & H4 & _).
  assert (Ht : "expert" = "pro" \/ "expert" = "expert") by (right; reflexivity).
  assert (Hlen : 21 <= length twentyOnePoints) by (vm_compute; lia).
  split; [exact Ht|]. split; [exact Hlen|]. split.
  - apply (H1 "expert" 1%Z ["B"; "A"; "D"; "C"] twentyOnePoints data st w Ht Hlen).
    split; reflexivity.
  - split.
    + apply (H3 "expert" data Ht); reflexivity.
    + apply (H4 AICameraEvaluation.pro data); reflexivity.
Defined.

(** ** The camera quiz: targets stay inside the supported letters *)

Lemma quiz_questions_supported levelNumber rs x :
  x ∈ run (CameraQuizPage.questions levelNumber) rs -> x ∈ CameraQuizPage.allLetters.
Proof.
  unfold CameraQuizPage.questions. rewrite shuffle_elem_of.
  intros Hx. eapply elem_of_sublist; [exact Hx|apply slice_sublist].
Qed.

Lemma quiz_questions_shuffle levelNumber rs :
  (0 <= levelNumber)%Z ->
  run (CameraQuizPage.questions levelNumber) rs
  ≡ₚ take (Z.to_nat (Z.min (4 * levelNumber) 9)) CameraQuizPage.allLetters.
Proof.
  intros Hl. unfold CameraQuizPage.questions. rewrite shuffle_Permutation.
  rewrite slice_0_nonneg by lia.
  destruct (decide (4 * levelNumber <= 9)%Z).
  - rewrite Z.min_l by lia. by replace (levelNumber * 4)%Z with (4 * levelNumber)%Z by lia.
  - rewrite Z.min_r by lia. rewrite !take_ge; [done|simpl; lia..].
Qed.

Lemma quiz_questions_nonempty levelNumber rs :
  (1 <= levelNumber)%Z -> 0 < length (run (CameraQuizPage.questions levelNumber) rs).
Proof.
  intros Hl.
  assert (H0 : (0 <= levelNumber)%Z) by lia.
  rewrite (Permutation_length (quiz_questions_shuffle levelNumber rs H0)).
  rewrite length_take. simpl. lia.
Qed.

Lemma targetsAsked_send r w :
  targetsAsked (send r w)
  = targetsAsked w ++ match r with AslCheck t _ => [t] | _ => [] end.
Proof.
  unfold targetsAsked, send. simpl. rewrite omap_app. simpl. by destruct r.
Qed.

Lemma quiz_currentLetter_supported qs st :
  Forall (fun t => t ∈ CameraQuizPage.allLetters) qs ->
  CameraQuizPage.currentQuestionIndex st < length qs ->
  CameraQuizPage.currentLetter qs st ∈ CameraQuizPage.allLetters.
Proof.
  intros Hqs Hi. unfold CameraQuizPage.currentLetter.
  destruct (lookup_lt_is_Some_2 qs _ Hi) as [x Hx]. rewrite Hx. simpl.
  by apply (Forall_lookup_1 _ _ _ _ Hqs Hx).
Qed.

Lemma quiz_finish_invariant tierType levelNumber qs updated st w :
  quizInvariant qs (st, w) ->
  quizInvariant qs (CameraQuizPage.finish tierType levelNumber qs updated st w).
Proof.
  intros (Hi & Ht & He). unfold CameraQuizPage.finish.
  destruct (truthy _); (split_and!; [done| |done]); simpl in *; [|done].
  rewrite targetsAsked_send, app_nil_r. done.
Qed.

Lemma quiz_step_invariant tierType levelNumber qs e s :
  Forall (fun t => t ∈ CameraQuizPage.allLetters) qs ->
  quizInvariant qs s -> quizInvariant qs (CameraQuizPage.step tierType levelNumber qs e s).
Proof.
  intros Hqs Hinv. destruct s as [st w].
  pose proof Hinv as (Hi & Ht & He). simpl in Hi, Ht, He.
  pose proof (quiz_currentLetter_supported qs st Hqs Hi) as Hcur.
  destruct e as [landmarks answer|]; simpl.
  - unfold CameraQuizPage.handleCheck.
    destruct landmarks as [points|]; [|done].
    case_bool_decide; [done|].
    assert (Hasked : Forall (fun t => t ∈ CameraQuizPage.allLetters)
              (targetsAsked (send (AslCheck (CameraQuizPage.currentLetter qs st)
                                            (length points)) w))).
    { rewrite targetsAsked_send. apply Forall_app. split; [done|].
      by apply Forall_singleton. }
    destruct answer as [|[] data]; [done| |done].
    destruct (CameraQuizPage.passes tierType data); [|done].
    assert (Hres : Forall (fun r => ev_letter r ∈ CameraQuizPage.allLetters)
              (CameraQuizPage.evaluationResults st
               ++ [mkEvaluation (CameraQuizPage.currentLetter qs st) true])).
    { apply Forall_app. split; [done|]. by apply Forall_singleton. }
    case_bool_decide as Hlt; simpl in Hlt.
    + split_and!; simpl; [lia|done|done].
    + match goal with |- context [CameraQuizPage.finish ?a ?b ?c ?d ?e ?f] =>
        pose proof (quiz_finish_invariant a b c d e f) as Hf;
        destruct (CameraQuizPage.finish a b c d e f) as [st2 w2] end.
      simpl. apply Hf. split_and!; done.
  - unfold CameraQuizPage.handleSkip.
    assert (Hres : Forall (fun r => ev_letter r ∈ CameraQuizPage.allLetters)
              (CameraQuizPage.evaluationResults st
               ++ [mkEvaluation (CameraQuizPage.currentLetter qs st) false])).
    { apply Forall_app. split; [done|]. by apply Forall_singleton. }
    case_bool_decide as Hlt; simpl in Hlt.
    + split_and!; simpl; [lia|done|done].
    + apply quiz_finish_invariant. split_and!; done.
Qed.

Lemma quiz_run_invariant tierType levelNumber qs es s :
  Forall (fun t => t ∈ CameraQuizPage.allLetters) qs ->
  quizInvariant qs s ->
  quizInvariant qs (CameraQuizPage.runEvents tierType levelNumber qs es s).
Proof.
  intros Hqs. revert s. induction es as [|e es IH]; intros s Hinv; [done|].
  simpl. apply IH. by apply quiz_step_invariant.
Qed.

(** C7. The questions of a camera quiz are supported letters only, and for a
    level of the data model (at least 1, as the level pages give it) they are
    a shuffle of the first [min (4 * levelNumber) 9] letters of the supported
    table A, B, C, D, H, L, V, Y, W.  Throughout a session (any sequence of
    checks and skips from the initial state) the letter displayed as target,
    every target sent to the classifier and every letter recorded as a
    result is one of the supported letters. *)
Theorem camera_quiz_targets_supported levelNumber rs :
  let qs := run (CameraQuizPage.questions levelNumber) rs in
  (∀ x, x ∈ qs -> x ∈ CameraQuizPage.allLetters)
  ∧ ((1 <= levelNumber)%Z ->
     qs ≡ₚ take (Z.to_nat (Z.min (4 * levelNumber) 9)) CameraQuizPage.allLetters
     ∧ ∀ tierType es storage,
         let s := CameraQuizPage.runEvents tierType levelNumber qs es
                    (CameraQuizPage.initialState, mkWorld storage []) in
         CameraQuizPage.currentLetter qs s.1 ∈ CameraQuizPage.allLetters
         ∧ (∀ t, t ∈ targetsAsked s.2 -> t ∈ CameraQuizPage.allLetters)
         ∧ (∀ r, r ∈ CameraQuizPage.evaluationResults s.1 ->
                 ev_letter r ∈ CameraQuizPage.allLetters)).
Proof.
  intros qs.
  assert (Hqs : Forall (fun t => t ∈ CameraQuizPage.allLetters) qs).
  { apply Forall_forall. intros x. apply quiz_questions_supported. }
  split; [by apply Forall_forall|].
  intros Hl. split; [apply quiz_questions_shuffle; lia|].
  intros tierType es storage s.
  assert (Hinv : quizInvariant qs s).
  { apply quiz_run_invariant; [done|]. split_and!; simpl.
    - by apply quiz_questions_nonempty.
    - apply Forall_nil_2.
    - apply Forall_nil_2. }
  destruct Hinv as (Hi & Ht & He). split_and!.
  - by apply quiz_currentLetter_supported.
  - by apply Forall_forall.
  - by apply Forall_forall.
Qed.

Lemma camera_quiz_targets_supported_witness :
  (1 <= 1)%Z
  ∧ run (CameraQuizPage.questions 1) [5; 6; 7] ≡ₚ ["A"; "B"; "C"; "D"]
  ∧ CameraQuizPage.currentLetter (run (CameraQuizPage.questions 1) [5; 6; 7])
      (CameraQuizPage.runEvents "pro" 1 (run (CameraQuizPage.questions 1) [5; 6; 7])
         [CameraQuizPage.SkipSign; CameraQuizPage.SkipSign]
         (CameraQuizPage.initialState, mkWorld ∅ [])).1
    ∈ CameraQuizPage.allLetters.
Proof.
  assert (H1 : (1 <= 1)%Z) by lia.
  destruct (camera_quiz_targets_supported 1 [5; 6; 7]) as [_ H].
  destruct (H H1) as [Hp Hs].
  split; [exact H1|]. split; [exact Hp|].
  exact (proj1 (Hs "pro" [CameraQuizPage.SkipSign; CameraQuizPage.SkipSign] ∅)).
Defined.

(** ** The content generator of Beginner.tsx *)

Section filter_facts.
Context {A : Type} (P : A -> Prop) `{!∀ x, Decision (P x)}.

Lemma filter_all (l : list A) : Forall P l -> filter P l = l.
Proof.
  induction 1 as [|x l Hx _ IH]; [done|].
  by rewrite filter_cons_True, IH.
Qed.

Lemma filter_none (l : list A) : Forall (fun x => ¬ P x) l -> filter P l = [].
Proof.
  induction 1 as [|x l Hx _ IH]; [done|].
  by rewrite filter_cons_False.
Qed.
End filter_facts.

Import Beginner.

Lemma pushTyping_snoc qs lds ld :
  pushTyping qs (lds ++ [ld])
  = pushTyping qs lds ++ [typingQuestion (length (pushTyping qs lds)) ld].
Proof. unfold pushTyping. by rewrite foldl_snoc. Qed.

Lemma pushTyping_length lds : length (pushTyping [] lds) = length lds.
Proof.
  induction lds as [|ld lds IH] using rev_ind; [done|].
  rewrite pushTyping_snoc, !length_app, IH. done.
Qed.

Lemma pushTyping_typing lds : Forall (fun q => type q = typing) (pushTyping [] lds).
Proof.
  induction lds as [|ld lds IH] using rev_ind; [by constructor|].
  rewrite pushTyping_snoc. apply Forall_app. split; [done|].
  by apply Forall_singleton.
Qed.

Lemma pushTyping_answers lds :
  correctAnswer <$> pushTyping [] lds = (fun ld => JsString (letter ld)) <$> lds.
Proof.
  induction lds as [|ld lds IH] using rev_ind; [done|].
  by rewrite pushTyping_snoc, !fmap_app, IH.
Qed.

(** The identifier of each typing question is its position at the time it
    was pushed. *)
Lemma pushTyping_ids lds : id <$> pushTyping [] lds = seq 0 (length lds).
Proof.
  induction lds as [|ld lds IH] using rev_ind; [done|].
  rewrite pushTyping_snoc, fmap_app, IH, length_app, seq_app. simpl.
  by rewrite pushTyping_length.
Qed.

Lemma quizLettersOf_take level :
  (0 <= level)%Z -> quizLettersOf level = take (Z.to_nat (4 * level)) allLettersData.
Proof.
  intros Hl. unfold quizLettersOf. rewrite slice_0_nonneg by lia.
  by replace (level * 4)%Z with (4 * level)%Z by lia.
Qed.

Lemma quizLettersOf_all level : (6 <= level)%Z -> quizLettersOf level = allLettersData.
Proof.
  intros Hl. rewrite quizLettersOf_take by lia. apply take_ge. simpl. lia.
Qed.

Lemma quizLettersOf_length level :
  (0 <= level)%Z -> length (quizLettersOf level) = Nat.min (Z.to_nat (4 * level)) 23.
Proof. intros Hl. rewrite quizLettersOf_take by lia. by rewrite length_take. Qed.

Lemma typingStage_run level rs :
  (typingStage level rs).1 = pushTyping [] (run (shuffle (quizLettersOf level)) rs).
Proof.
  unfold typingStage, JS.bind, JS.ret, run.
  by destruct (shuffle (quizLettersOf level) rs).
Qed.

(** The index found by [indexOf] for an element of the list. *)
Lemma indexOf_elem {A} `{EqDecision A} (x : A) (l : list A) :
  x ∈ l -> ∃ i, indexOf x l = Z.of_nat i ∧ l !! i = Some x.
Proof.
  intros Hx. unfold indexOf.
  destruct (list_find_elem_of (fun y => y = x) l x Hx eq_refl) as [[i y] Hf].
  rewrite Hf. apply list_find_Some in Hf as (Hi & -> & _). by exists i.
Qed.

Lemma pushWords_shape n opts qs rs :
  ∃ ws, (pushWords n opts qs rs).1 = qs ++ ws
        ∧ length ws = Nat.min n (length opts)
        ∧ Forall (wordQuestionFrom opts) ws.
Proof.
  revert opts qs rs. induction n as [|n IH]; intros opts qs rs.
  { exists []. by rewrite app_nil_r. }
  cbn [pushWords]. case_bool_decide as Hlen.
  2:{ exists []. rewrite app_nil_r. split_and!; [done| |done].
      assert (Ho : length opts = 0) by lia. by rewrite Ho, Nat.min_0_r. }
  unfold JS.bind.
  pose proof (random_int_lt (length opts) rs Hlen) as Hk.
  destruct (random_int (length opts) rs) as [k rs']. simpl in Hk.
  destruct (lookup_lt_is_Some_2 opts k Hk) as [wo Hwo]. rewrite Hwo.
  destruct (indexOf_elem wo opts (list_elem_of_lookup_2 _ _ _ Hwo)) as (i & Hi & Hoi).
  rewrite Hi.
  destruct (Z.ltb_spec (-1) (Z.of_nat i)) as [_|]; [|lia].
  rewrite Nat2Z.id.
  destruct (IH (delete i opts) (qs ++ [wordQuestion (length qs) wo]) rs')
    as (ws & Heq & Hlenws & Hall).
  exists (wordQuestion (length qs) wo :: ws). split_and!.
  - rewrite Heq. by rewrite <- app_assoc.
  - cbn [length]. rewrite Hlenws, length_delete by eauto. lia.
  - constructor.
    + exists (length qs), wo. split; [by eapply list_elem_of_lookup_2|done].
    + eapply Forall_impl; [exact Hall|].
      intros q (j & wo' & Hin & Hw).
      exists j, wo'. split; [by eapply list_elem_of_delete_inv|done].
Qed.

Lemma matchingStage_shape level rs :
  ∃ ms, (matchingStage level rs).1 = (typingStage level rs).1 ++ ms
        ∧ Forall (fun q => type q = matching) ms
        ∧ length ms = if bool_decide (3 <= length (quizLettersOf level)) then 1 else 0.
Proof.
  unfold matchingStage, JS.bind.
  destruct (typingStage level rs) as [qs rs1]. simpl.
  case_bool_decide.
  - destruct (shuffle (quizLettersOf level) rs1) as [sh rs2]. simpl.
    eexists [_]. split_and!; [done| |done]. by apply Forall_singleton.
  - exists []. by rewrite app_nil_r.
Qed.

Lemma wordStage_shape level rs :
  ∃ ms ws, (wordStage level rs).1 = (typingStage level rs).1 ++ ms ++ ws
           ∧ Forall (fun q => type q = matching) ms
           ∧ Forall (wordQuestionFrom (wordOptionsOf (quizLettersOf level))) ws
           ∧ length ws = wordCount level
           ∧ length ms <= 1.
Proof.
  unfold wordStage, wordCount, JS.bind.
  destruct (matchingStage_shape level rs) as (ms & Hms & Hmatching & Hone).
  assert (Hle : length ms <= 1) by (rewrite Hone; case_bool_decide; lia).
  destruct (matchingStage level rs) as [qs rs1]. simpl in Hms. subst qs.
  destruct (bool_decide (2 <= level)%Z && bool_decide (3 <= length (quizLettersOf level))).
  - match goal with |- context [pushWords ?n ?o ?q ?r] =>
      destruct (pushWords_shape n o q r) as (ws & Hws & Hlen & Hall) end.
    exists ms, ws. rewrite Hws. split_and!; [by rewrite <- app_assoc|done..].
  - exists ms, []. simpl. by rewrite app_nil_r.
Qed.

Lemma getLevelData_questions level rs :
  questions (run (getLevelData level) rs) ≡ₚ (wordStage level rs).1.
Proof.
  unfold getLevelData, run, JS.bind, JS.ret.
  destruct (wordStage level rs) as [qs rs1]. simpl.
  pose proof (shuffle_Permutation qs rs1) as Hp. unfold run in Hp.
  by destruct (shuffle qs rs1).
Qed.

Lemma wordQuestionFrom_not_typing opts q : wordQuestionFrom opts q -> type q ≠ typing.
Proof. by intros (i & wo & _ & ->). Qed.

(** C5. For every level number at least 1 with [4 * levelNumber <= 23], the
    questions pushed before the optional matching and word-spelling
    additions are exactly [4 * levelNumber] typing questions, one per letter
    of the cumulative slice (their answers are a permutation of its
    letters); the finished quiz is these questions, shuffled together with
    additions of other types, so it holds exactly [4 * levelNumber] typing
    questions. *)
Theorem typing_questions_of_a_level level rs :
  (1 <= level)%Z -> (4 * level <= 23)%Z ->
  let staged := (typingStage level rs).1 in
  let final := questions (run (getLevelData level) rs) in
  length staged = Z.to_nat (4 * level)
  ∧ Forall (fun q => type q = typing) staged
  ∧ correctAnswer <$> staged
    ≡ₚ (fun ld => JsString (letter ld)) <$> take (Z.to_nat (4 * level)) allLettersData
  ∧ (∃ extras, final ≡ₚ staged ++ extras ∧ Forall (fun q => type q ≠ typing) extras)
  ∧ filter (fun q => type q = typing) final ≡ₚ staged
  ∧ length (filter (fun q => type q = typing) final) = Z.to_nat (4 * level).
Proof.
  intros Hl Hu staged final.
  assert (Hstaged : staged = pushTyping [] (run (shuffle (quizLettersOf level)) rs))
    by apply typingStage_run.
  assert (Hlen : length staged = Z.to_nat (4 * level)).
  { rewrite Hstaged, pushTyping_length, shuffle_length, quizLettersOf_length by lia. lia. }
  assert (Htyping : Forall (fun q => type q = typing) staged).
  { rewrite Hstaged. apply pushTyping_typing. }
  destruct (wordStage_shape level rs) as (ms & ws & Hshape & Hms & Hws & _).
  assert (Hextras : Forall (fun q => type q ≠ typing) (ms ++ ws)).
  { apply Forall_app. split.
    - eapply Forall_impl; [exact Hms|]. intros q Hq. by rewrite Hq.
    - eapply Forall_impl; [exact Hws|]. apply wordQuestionFrom_not_typing. }
  assert (Hfinal : final ≡ₚ staged ++ (ms ++ ws)).
  { unfold final. rewrite getLevelData_questions, Hshape. done. }
  assert (Hfilter : filter (fun q => type q = typing) final ≡ₚ staged).
  { rewrite Hfinal, filter_app, filter_all by done.
    rewrite filter_none; [by rewrite app_nil_r|].
    eapply Forall_impl; [exact Hextras|]. done. }
  split_and!; try done.
  - rewrite Hstaged, pushTyping_answers, shuffle_Permutation.
    by rewrite quizLettersOf_take by lia.
  - by exists (ms ++ ws).
  - by rewrite Hfilter.
Qed.

Lemma typing_questions_of_a_level_witness :
  (1 <= 2)%Z ∧ (4 * 2 <= 23)%Z
  ∧ length (filter (fun q => type q = typing)
              (questions (run (getLevelData 2) [3; 1; 4; 1; 5; 9; 2; 6]))) = 8.
Proof.
  assert (H1 : (1 <= 2)%Z) by lia.
  assert (H2 : (4 * 2 <= 23)%Z) by lia.
  split; [exact H1|]. split; [exact H2|].
  exact (proj2 (proj2 (proj2 (proj2 (proj2
    (typing_questions_of_a_level 2 [3; 1; 4; 1; 5; 9; 2; 6] H1 H2)))))).
Defined.

(** Each entry of the word table lists the letters of its word. *)
Lemma allWordOptions_letters wo :
  wo ∈ allWordOptions -> split_chars (toUpperCase (wo_word wo)) = wo_letters wo.
Proof.
  revert wo. apply Forall_forall.
  unfold allWordOptions. repeat (constructor; [reflexivity|]). constructor.
Qed.

Lemma wordOptionsOf_available quizLetters wo :
  wo ∈ wordOptionsOf quizLetters ->
  wo ∈ allWordOptions ∧ ∀ l, l ∈ wo_letters wo -> l ∈ letter <$> quizLetters.
Proof.
  unfold wordOptionsOf. rewrite list_elem_of_filter. intros [Hall Hin].
  split; [done|]. intros l Hl.
  rewrite forallb_forall in Hall. apply list_elem_of_In, Hall in Hl.
  apply bool_decide_eq_true in Hl. by apply elem_of_list_to_set in Hl.
Qed.

Lemma wordCount_below level : (level < 2)%Z -> wordCount level = 0.
Proof. intros Hl. unfold wordCount. by rewrite bool_decide_eq_false_2 by lia. Qed.

Lemma wordCount_two : wordCount 2 = 1.
Proof. vm_compute. reflexivity. Qed.

Lemma wordCount_from_three level : (3 <= level)%Z -> wordCount level = 2.
Proof.
  intros Hl.
  destruct (decide (6 <= level)%Z) as [H6|H6].
  - unfold wordCount. rewrite quizLettersOf_all by done.
    rewrite (bool_decide_eq_true_2 (2 <= level)%Z) by lia.
    rewrite (bool_decide_eq_true_2 (3 <= level)%Z) by lia.
    vm_compute. reflexivity.
  - assert (Hc : level = 3%Z ∨ level = 4%Z ∨ level = 5%Z) by lia.
    destruct Hc as [->|[->| ->]]; vm_compute; reflexivity.
Qed.

(** C6. In every generated level the word-spelling questions are present
    only from level 2 on: none below level 2, one at level 2, two from level
    3 on (the generator asks for [min] of that number and the number of
    candidate words, and the candidates never run out); every letter of each
    target word is one of the cumulative letters of the level. *)
Theorem word_spelling_questions_of_a_level level rs :
  let final := questions (run (getLevelData level) rs) in
  let ws := filter (fun q => type q = word_spelling) final in
  (ws ≠ [] -> (2 <= level)%Z)
  ∧ length ws = wordCount level
  ∧ ((level < 2)%Z -> length ws = 0)
  ∧ (level = 2%Z -> length ws = 1)
  ∧ ((3 <= level)%Z -> length ws = 2)
  ∧ ∀ q, q ∈ ws ->
      ∃ w, word q = Some w
           ∧ ∀ c, c ∈ split_chars w -> c ∈ letter <$> quizLettersOf level.
Proof.
  intros final ws.
  destruct (wordStage_shape level rs) as (ms & ws0 & Hshape & Hms & Hws0 & Hlen0 & _).
  assert (Hperm : ws ≡ₚ ws0).
  { unfold ws, final. rewrite getLevelData_questions, Hshape, !filter_app.
    rewrite (filter_none _ (typingStage level rs).1).
    2:{ rewrite typingStage_run. eapply Forall_impl; [apply pushTyping_typing|].
        intros q Hq. by rewrite Hq. }
    rewrite (filter_none _ ms).
    2:{ eapply Forall_impl; [exact Hms|]. intros q Hq. by rewrite Hq. }
    rewrite filter_all; [done|].
    eapply Forall_impl; [exact Hws0|]. by intros q (i & wo & _ & ->). }
  assert (Hlen : length ws = wordCount level) by by rewrite Hperm.
  split_and!.
  - intros Hne. destruct (decide (2 <= level)%Z) as [|Hlt]; [done|].
    rewrite wordCount_below in Hlen by lia.
    destruct ws; [done|discriminate].
  - done.
  - intros Hl. by rewrite Hlen, wordCount_below.
  - intros ->. by rewrite Hlen, wordCount_two.
  - intros Hl. by rewrite Hlen, wordCount_from_three.
  - intros q Hq. rewrite Hperm in Hq.
    rewrite Forall_forall in Hws0. destruct (Hws0 q Hq) as (i & wo & Hwo & ->).
    exists (toUpperCase (wo_word wo)). split; [done|].
    destruct (wordOptionsOf_available _ _ Hwo) as [Htable Havail].
    rewrite (allWordOptions_letters wo Htable). exact Havail.
Qed.

Lemma word_spelling_questions_of_a_level_witness :
  (3 <= 3)%Z
  ∧ length (filter (fun q => type q = word_spelling)
              (questions (run (getLevelData 3) [3; 1; 4; 1; 5; 9; 2; 6]))) = 2.
Proof.
  assert (H3 : (3 <= 3)%Z) by lia.
  split; [exact H3|].
  exact (proj1 (proj2 (proj2 (proj2 (proj2
    (word_spelling_questions_of_a_level 3 [3; 1; 4; 1; 5; 9; 2; 6]))))) H3).
Defined.

(** ** Scoring *)

Import ScoreSpec.

Lemma count_by_fold st (l : list (nat * Question)) (c : nat) :
  foldl (fun correct '(idx, q) => if countsAsCorrect st idx q then S correct else correct)
        c l
  = c + length (filter (fun iq => countsAsCorrect st iq.1 iq.2 = true) l).
Proof.
  revert c. induction l as [|[i q] l IH]; intros c; simpl; [lia|].
  rewrite IH, filter_cons. simpl.
  destruct (countsAsCorrect st i q); case_decide; try done; simpl; lia.
Qed.

(** The counter of [calculateScore] is the number of questions for which the
    body of the loop increments it. *)
Lemma calculateScore_count qs st :
  calculateScore qs st = countQuestions (countsAsCorrect st) qs.
Proof. unfold calculateScore, countQuestions. by rewrite count_by_fold. Qed.

Lemma countQuestions_le test qs : countQuestions test qs <= length qs.
Proof.
  unfold countQuestions. etrans; [apply length_filter|]. by rewrite length_imap.
Qed.

Lemma filter_ext_Forall {A} (P1 P2 : A -> Prop)
    `{!∀ x, Decision (P1 x), !∀ x, Decision (P2 x)} (l : list A) :
  Forall (fun x => P1 x ↔ P2 x) l -> filter P1 l = filter P2 l.
Proof.
  induction 1 as [|x l Hx _ IH]; [done|].
  rewrite !filter_cons, IH. repeat case_decide; tauto.
Qed.

Lemma countQuestions_ext test1 test2 qs :
  (∀ i q, q ∈ qs -> test1 i q = test2 i q) ->
  countQuestions test1 qs = countQuestions test2 qs.
Proof.
  intros Hext. unfold countQuestions. f_equal.
  apply filter_ext_Forall. apply Forall_forall. intros [i q] Hin. simpl.
  rewrite Hext; [done|].
  apply list_elem_of_lookup in Hin as [j Hj].
  rewrite list_lookup_imap in Hj.
  destruct (qs !! j) as [q'|] eqn:Hq; simplify_eq/=.
  by eapply list_elem_of_lookup_2.
Qed.

(** On a well-formed question the test of the code is the comparison of the
    specification together with the re-check of the drop zones. *)
Lemma countsAsCorrect_spec st idx q :
  wellFormed q = true -> countsAsCorrect st idx q = matchesAndHolds st idx q.
Proof.
  unfold wellFormed, countsAsCorrect, matchesAndHolds, matchesAsStated,
    recordedAnswer, answerMatches, allPairsCorrect, pairCorrect, caseInsensitiveEq.
  destruct (type q) eqn:Ht, (correctAnswer q) as [s|n] eqn:Hc; simpl; try done.
  - destruct (quizAnswers st !! idx) as [a|]; simpl; [|done].
    destruct (decide (a = JsString "matched")) as [->|Hne].
    + by rewrite !bool_decide_eq_true_2.
    + rewrite !bool_decide_eq_false_2; [done..|congruence].
  - destruct (quizAnswers st !! idx) as [a|]; simpl; [|done].
    destruct (decide (a = JsString "matched")) as [->|Hne].
    + by rewrite !bool_decide_eq_true_2.
    + rewrite !bool_decide_eq_false_2; [done..|congruence].
  - intros Hwf. destruct (quizAnswers st !! idx) as [a|]; simpl.
    + by rewrite andb_true_r.
    + apply negb_true_iff, bool_decide_eq_false in Hwf.
      apply bool_decide_eq_false. intros Heq. apply Hwf. by rewrite Heq.
  - intros _. destruct (quizAnswers st !! idx) as [[s|m]|]; simpl; [done| |done].
    rewrite andb_true_r. apply bool_decide_ext. naive_solver.
  - intros Hwf. destruct (wordSpellingAnswers st !! idx) as [a|]; simpl.
    + by rewrite andb_true_r.
    + apply negb_true_iff, bool_decide_eq_false in Hwf.
      apply bool_decide_eq_false. intros Heq. apply Hwf. by rewrite <- Heq.
Qed.

Lemma percentOf_table : forallb percentAgrees (seq 1 39) = true.
Proof. vm_compute. reflexivity. Qed.

Lemma percentOf_round c t :
  1 <= t <= 39 -> c <= t -> percentOf c t = Some (roundPercent c t).
Proof.
  intros Ht Hc. pose proof percentOf_table as Htab.
  rewrite forallb_forall in Htab.
  assert (Hin : In t (seq 1 39)) by (apply in_seq; lia).
  apply Htab in Hin. unfold percentAgrees in Hin.
  rewrite forallb_forall in Hin.
  assert (Hcin : In c (seq 0 (S t))) by (apply in_seq; lia).
  apply Hin in Hcin. by apply bool_decide_eq_true in Hcin.
Qed.

(** With 40 questions the float product falls below the half:
    [(23 / 40) * 100] is [57.49999999999999]. *)
Example percentOf_23_of_40 : percentOf 23 40 = Some 57%Z ∧ roundPercent 23 40 = 58%Z.
Proof. split; vm_compute; reflexivity. Qed.

(** Perfect means every question, for the totals the generator reaches. *)
Lemma percentOf_100 c t :
  1 <= t <= 39 -> c <= t -> percentOf c t = Some 100%Z ↔ c = t.
Proof.
  intros Ht Hc. rewrite percentOf_round by done. unfold roundPercent. split.
  - intros [= H]. destruct (decide (c = t)) as [|Hne]; [done|exfalso].
    assert (Hpos : (0 < 2 * Z.of_nat t)%Z) by lia.
    pose proof (Z.mul_div_le (200 * Z.of_nat c + Z.of_nat t) (2 * Z.of_nat t) Hpos) as Hle.
    rewrite H in Hle. lia.
  - intros ->. f_equal.
    replace (200 * Z.of_nat t + Z.of_nat t)%Z with (Z.of_nat t + 100 * (2 * Z.of_nat t))%Z
      by lia.
    rewrite Z.div_add by lia. rewrite Z.div_small by lia. done.
Qed.

(** *** The generated quizzes are within the reach of the scoring facts *)

Lemma pushTyping_elem lds q :
  q ∈ pushTyping [] lds -> ∃ i ld, ld ∈ lds ∧ q = typingQuestion i ld.
Proof.
  induction lds as [|ld lds IH] using rev_ind; [by intros ?%elem_of_nil|].
  rewrite pushTyping_snoc, elem_of_app, list_elem_of_singleton.
  intros [Hq| ->].
  - destruct (IH Hq) as (i & ld' & Hin & ->). exists i, ld'.
    split; [|done]. apply elem_of_app. by left.
  - eexists _, ld. split; [|done]. apply elem_of_app. right. by apply list_elem_of_singleton.
Qed.

Lemma typingQuestion_wellFormed i ld :
  ld ∈ allLettersData -> wellFormed (typingQuestion i ld) = true.
Proof.
  revert ld. apply Forall_forall.
  unfold allLettersData. repeat (constructor; [reflexivity|]). constructor.
Qed.

Lemma wordQuestion_wellFormed i wo :
  wo ∈ allWordOptions -> wellFormed (wordQuestion i wo) = true.
Proof.
  revert wo. apply Forall_forall.
  unfold allWordOptions. repeat (constructor; [reflexivity|]). constructor.
Qed.

Lemma generated_wellFormed level rs :
  Forall (fun q => wellFormed q = true) (questions (run (getLevelData level) rs)).
Proof.
  destruct (wordStage_shape level rs) as (ms & ws & Hshape & Hms & Hws & _).
  rewrite getLevelData_questions, Hshape. rewrite !Forall_app. split_and!.
  - rewrite typingStage_run. apply Forall_forall. intros q Hq.
    destruct (pushTyping_elem _ _ Hq) as (i & ld & Hld & ->).
    apply typingQuestion_wellFormed.
    apply shuffle_elem_of in Hld.
    eapply elem_of_sublist; [exact Hld|apply slice_sublist].
  - eapply Forall_impl; [exact Hms|]. intros q Hq. unfold wellFormed. by rewrite Hq.
  - eapply Forall_impl; [exact Hws|]. intros q (i & wo & Hwo & ->).
    apply wordQuestion_wellFormed. by apply wordOptionsOf_available in Hwo as [? _].
Qed.

Lemma generated_length level rs : length (questions (run (getLevelData level) rs)) <= 26.
Proof.
  destruct (wordStage_shape level rs) as (ms & ws & Hshape & _ & _ & Hws & Hms).
  rewrite getLevelData_questions, Hshape, !length_app.
  rewrite typingStage_run, pushTyping_length, shuffle_length.
  pose proof (sublist_length _ _ (slice_sublist 0 (level * 4) allLettersData)) as Hq.
  change (length allLettersData) with 23 in Hq.
  assert (Hw : wordCount level <= 2).
  { unfold wordCount. destruct (_ && _); [|lia]. case_bool_decide; lia. }
  unfold quizLettersOf. lia.
Qed.

Lemma calculateScore_spec qs st :
  Forall (fun q => wellFormed q = true) qs ->
  calculateScore qs st = countQuestions (matchesAndHolds st) qs.
Proof.
  intros Hwf. rewrite calculateScore_count. apply countQuestions_ext.
  intros i q Hq. apply countsAsCorrect_spec.
  by apply (proj1 (Forall_forall _ _) Hwf).
Qed.

(** C4, as the code has it.  On the questions the comparisons are meant for
    (typing answers and words are strings, true-false answers are numbers)
    the computed score is the number of questions whose recorded answer
    matches [correctAnswer] under the variant's comparison: the [matched]
    sentinel for matching, numeric equality for true-false, case-insensitive
    string equality for typing and word-spelling; a matching question counts
    only if, moreover, every pair's drop zone still holds the pair's sign
    when the score is computed.  For a quiz of 1 to 39 questions the
    percentage is [round(100 * correct / total)].  Every generated quiz is
    made of such questions and has at most 26 of them. *)
Theorem score_counts_answers_that_match_and_hold :
  (∀ qs st,
     Forall (fun q => wellFormed q = true) qs ->
     1 <= length qs <= 39 ->
     calculateScore qs st = countQuestions (matchesAndHolds st) qs
     ∧ percentOf (calculateScore qs st) (length qs)
       = Some (roundPercent (countQuestions (matchesAndHolds st) qs) (length qs)))
  ∧ (∀ level rs st,
     let qs := questions (run (getLevelData level) rs) in
     Forall (fun q => wellFormed q = true) qs
     ∧ length qs <= 26
     ∧ calculateScore qs st = countQuestions (matchesAndHolds st) qs
     ∧ (qs ≠ [] ->
        percentOf (calculateScore qs st) (length qs)
        = Some (roundPercent (countQuestions (matchesAndHolds st) qs) (length qs)))).
Proof.
  split.
  - intros qs st Hwf Hlen.
    pose proof (calculateScore_spec qs st Hwf) as Hscore.
    split; [done|].
    rewrite Hscore. apply percentOf_round; [done|apply countQuestions_le].
  - intros level rs st qs.
    pose proof (generated_wellFormed level rs) as Hwf.
    pose proof (generated_length level rs) as Hlen.
    pose proof (calculateScore_spec qs st Hwf) as Hscore.
    split_and!; [done..|].
    intros Hne. rewrite Hscore. apply percentOf_round; [|apply countQuestions_le].
    fold qs in Hlen. destruct qs; [done|]. simpl in *. lia.
Qed.

(** ** The matching mark *)

Lemma handleDrop_matching qs questionId l st q ps :
  truthy (draggedIcon st) = true ->
  qs !! currentIndex st = Some q -> type q = matching -> pairs q = Some ps ->
  let st' := handleDrop qs questionId l st in
  droppedIcons st' = <[dropKey questionId l := default "" (draggedIcon st)]> (droppedIcons st)
  ∧ currentIndex st' = currentIndex st
  ∧ quizAnswers st'
    = if forallb (pairMatched (droppedIcons st') questionId) ps
      then <[questionId := JsString "matched"]> (quizAnswers st)
      else quizAnswers st.
Proof.
  intros Hd Hq Ht Hps. unfold handleDrop. rewrite Hd. simpl.
  rewrite Hq, Ht, Hps. cbv zeta.
  destruct (forallb _ ps) eqn:Hall; simpl; by rewrite ?Hall.
Qed.

Lemma dragAndDrop_matching qs d st q ps :
  d.1 ≠ "" ->
  qs !! currentIndex st = Some q -> type q = matching -> pairs q = Some ps ->
  let st' := dragAndDrop qs d st in
  currentIndex st' = currentIndex st
  ∧ quizAnswers st'
    = if forallb (pairMatched (droppedIcons st') (currentIndex st)) ps
      then <[currentIndex st := JsString "matched"]> (quizAnswers st)
      else quizAnswers st.
Proof.
  intros Hd Hq Ht Hps. unfold dragAndDrop.
  assert (Htruthy : truthy (draggedIcon (handleDragStart d.1 st)) = true).
  { simpl. by rewrite bool_decide_eq_false_2. }
  destruct (handleDrop_matching qs (currentIndex st) d.2 (handleDragStart d.1 st) q ps
              Htruthy Hq Ht Hps) as (_ & Hi & Ha).
  split; [exact Hi|exact Ha].
Qed.

Lemma dropAll_snoc qs ds d st :
  dropAll qs (ds ++ [d]) st = dragAndDrop qs d (dropAll qs ds st).
Proof. unfold dropAll. by rewrite foldl_snoc. Qed.

Lemma dropAll_currentIndex qs ds st q ps :
  qs !! currentIndex st = Some q -> type q = matching -> pairs q = Some ps ->
  Forall (fun d => d.1 ≠ "") ds ->
  currentIndex (dropAll qs ds st) = currentIndex st.
Proof.
  intros Hq Ht Hps. induction ds as [|d ds IH] using rev_ind; [done|].
  intros HF. apply Forall_app in HF as [Hds Hd]. rewrite Forall_singleton in Hd.
  rewrite dropAll_snoc. specialize (IH Hds).
  destruct (dragAndDrop_matching qs d (dropAll qs ds st) q ps Hd) as [Hi _];
    [by rewrite IH|done..|].
  by rewrite Hi.
Qed.

(** C8, as the code has it.  While a matching question is the current one,
    its recorded answer is the [matched] sentinel exactly when, after one of
    the drops made so far, every pair's drop zone held that pair's sign: the
    test runs on every drop and sets the mark on the drop that makes all
    pairs right together, and no later drop takes the mark away. *)
Theorem matched_mark_is_set_once_all_pairs_were_right qs st q ps ds :
  qs !! currentIndex st = Some q -> type q = matching -> pairs q = Some ps ->
  quizAnswers st !! currentIndex st ≠ Some (JsString "matched") ->
  Forall (fun d => d.1 ≠ "") ds ->
  quizAnswers (dropAll qs ds st) !! currentIndex st = Some (JsString "matched")
  ↔ ∃ n, 0 < n <= length ds
         ∧ forallb (pairMatched (droppedIcons (dropAll qs (take n ds) st))
                                (currentIndex st)) ps = true.
Proof.
  intros Hq Ht Hps Hfresh. induction ds as [|d ds IH] using rev_ind.
  { intros _. split; [done|]. intros (n & Hn & _). simpl in Hn. lia. }
  intros HF. apply Forall_app in HF as [Hds Hd]. rewrite Forall_singleton in Hd.
  specialize (IH Hds). rewrite dropAll_snoc.
  pose proof (dropAll_currentIndex qs ds st q ps Hq Ht Hps Hds) as Hidx.
  destruct (dragAndDrop_matching qs d (dropAll qs ds st) q ps Hd) as [_ Ha];
    [by rewrite Hidx|done..|].
  rewrite Hidx in Ha. rewrite Ha.
  destruct (forallb _ ps) eqn:Hall.
  - rewrite lookup_insert_eq. split; [intros _|done].
    exists (length (ds ++ [d])). split.
    + rewrite length_app. simpl. lia.
    + by rewrite take_ge, dropAll_snoc by lia.
  - rewrite IH. split.
    + intros (n & Hn & Hok). exists n. split.
      * rewrite length_app. simpl. lia.
      * by rewrite take_app_le by lia.
    + intros (n & Hn & Hok). rewrite length_app in Hn. simpl in Hn.
      destruct (decide (n = length ds + 1)) as [->|Hne].
      * rewrite take_ge, dropAll_snoc in Hok by (rewrite length_app; simpl; lia).
        congruence.
      * exists n. split; [lia|]. by rewrite take_app_le in Hok by lia.
Qed.

(** ** Submission and progress *)

Lemma sent_send r w : sent (send r w) = sent w ++ [r].
Proof. done. Qed.

Lemma newRequests_app w w' rs : sent w' = sent w ++ rs -> newRequests w w' = rs.
Proof. intros H. unfold newRequests. by rewrite H, drop_app_length. Qed.

(** Everything [handleSubmitQuiz] does to the world and to the completed
    flag, by cases on the test [percentage === 100 && userId] and on the
    backend's answer. *)
Lemma handleSubmitQuiz_effects tierType levelNumber qs sa pa st w :
  let userId := localStorage w !! "user_id" in
  let percentage := percentOf (calculateScore qs st) (length qs) in
  let out := handleSubmitQuiz tierType levelNumber qs sa pa st w in
  let nextType := if bool_decide (levelNumber = 5%Z)
                  then tierName (nextTierOf tierType) else tierName tierType in
  let nextNumber := if bool_decide (levelNumber = 5%Z) then 1%Z else (levelNumber + 1)%Z in
  progressUpdates w out.2
    = (if advances percentage userId
       then [UpdateProgress (default "" userId) nextType nextNumber] else [])
  ∧ localStorage out.2
    = (if advances percentage userId && succeeded pa
       then <["level_number" := if bool_decide (levelNumber = 5%Z) then "1"
                                else pretty nextNumber]>
              (<["level_type" := nextType]> (localStorage w))
       else localStorage w)
  ∧ levelComplete out.1 = advances percentage userId || levelComplete st.
Proof.
  cbv zeta. unfold handleSubmitQuiz, progressUpdates, advances.
  change (calculateScore qs (Beginner.setShowResults true st)) with (calculateScore qs st).
  set (p := percentOf (calculateScore qs st) (length qs)).
  destruct (truthy (localStorage w !! "user_id"));
    destruct (bool_decide (p = Some 100%Z));
    destruct (bool_decide (levelNumber = 5%Z));
    destruct sa as [|[] ?]; destruct pa as [|? [[]]];
    submit_leaf.
Qed.

Lemma quiz_finish_world tierType levelNumber qs updated st w :
  let out := CameraQuizPage.finish tierType levelNumber qs updated st w in
  progressUpdates w out.2 = [] ∧ localStorage out.2 = localStorage w.
Proof.
  cbv zeta. unfold CameraQuizPage.finish, progressUpdates, newRequests.
  destruct (truthy _); simpl; rewrite ?drop_app_length, ?drop_all; done.
Qed.

Lemma quiz_handleCheck_world tierType levelNumber qs landmarks answer st w :
  let out := CameraQuizPage.handleCheck tierType levelNumber qs landmarks answer st w in
  progressUpdates w out.2 = [] ∧ localStorage out.2 = localStorage w.
Proof.
  cbv zeta. unfold CameraQuizPage.handleCheck, CameraQuizPage.finish,
    progressUpdates, newRequests.
  destruct landmarks as [points|]; [|by rewrite drop_all].
  case_bool_decide; [by rewrite drop_all|].
  destruct answer as [|[] data]; simpl;
    try (by rewrite drop_app_length).
  destruct (CameraQuizPage.passes tierType data); simpl; [|by rewrite drop_app_length].
  case_bool_decide; simpl; [by rewrite drop_app_length|].
  destruct (truthy _); simpl;
    by rewrite <- ?app_assoc, drop_app_length.
Qed.

Lemma quiz_handleSkip_world tierType levelNumber qs st w :
  let out := CameraQuizPage.handleSkip tierType levelNumber qs st w in
  progressUpdates w out.2 = [] ∧ localStorage out.2 = localStorage w.
Proof.
  cbv zeta. unfold CameraQuizPage.handleSkip.
  case_bool_decide; [|apply quiz_finish_world].
  unfold progressUpdates, newRequests. simpl. by rewrite drop_all.
Qed.

(** C1, as the code has it.  Submitting the manual quiz sends a progress
    update exactly when the score percentage is 100 and a user id is stored,
    and local storage changes only then, and only when the backend answers
    the update with success; the camera quiz never sends a progress update
    and never writes local storage, whatever the score. *)
Theorem progression_of_manual_quiz_iff_perfect_and_signed_in :
  (∀ tierType levelNumber qs sa pa st w,
     let percentage := percentOf (calculateScore qs st) (length qs) in
     let out := handleSubmitQuiz tierType levelNumber qs sa pa st w in
     (progressUpdates w out.2 ≠ []
      ↔ percentage = Some 100%Z ∧ truthy (localStorage w !! "user_id") = true)
     ∧ (localStorage out.2 ≠ localStorage w ->
        percentage = Some 100%Z ∧ truthy (localStorage w !! "user_id") = true
        ∧ succeeded pa = true))
  ∧ (∀ tierType levelNumber qs landmarks answer st w,
       let out := CameraQuizPage.handleCheck tierType levelNumber qs landmarks answer st w in
       progressUpdates w out.2 = [] ∧ localStorage out.2 = localStorage w)
  ∧ (∀ tierType levelNumber qs st w,
       let out := CameraQuizPage.handleSkip tierType levelNumber qs st w in
       progressUpdates w out.2 = [] ∧ localStorage out.2 = localStorage w).
Proof.
  split_and!.
  - intros tierType levelNumber qs sa pa st w. cbv zeta.
    destruct (handleSubmitQuiz_effects tierType levelNumber qs sa pa st w)
      as (Hsent & Hstore & _).
    rewrite Hsent, Hstore. unfold advances.
    set (p := percentOf (calculateScore qs st) (length qs)).
    destruct (truthy _);
      (destruct (decide (p = Some 100%Z)) as [Hp|Hp];
       [rewrite !(bool_decide_eq_true_2 (p = Some 100%Z)) by done
       |rewrite !(bool_decide_eq_false_2 (p = Some 100%Z)) by done]);
      destruct (succeeded pa);
      simpl; (split; [split|]); try done; try tauto; by intros [_ ?].
  - apply quiz_handleCheck_world.
  - apply quiz_handleSkip_world.
Qed.

Lemma progression_of_manual_quiz_iff_perfect_and_signed_in_witness :
  let before := Scenario.play (Scenario.untilMatched ++ take 2 Scenario.untilSubmitted)
                  Scenario.signedIn in
  let out := handleSubmitQuiz beginner 1 (questions Scenario.level1)
               Scenario.saved Scenario.updated before.1 before.2 in
  progressUpdates before.2 out.2 = [UpdateProgress "7" "beginner" 2]
  ∧ (progressUpdates before.2 out.2 ≠ []
     ↔ percentOf (calculateScore (questions Scenario.level1) before.1)
                 (length (questions Scenario.level1)) = Some 100%Z
       ∧ truthy (localStorage before.2 !! "user_id") = true).
Proof.
  intros before out. split; [vm_compute; reflexivity|].
  destruct progression_of_manual_quiz_iff_perfect_and_signed_in as [H _].
  exact (proj1 (H beginner 1%Z (questions Scenario.level1) Scenario.saved Scenario.updated
                  before.1 before.2)).
Defined.

(** The camera quiz of level 1, every sign right: the score saved is 100 and
    nothing progresses. *)
Lemma camera_quiz_perfect_score_without_progression :
  let out := Scenario.cameraPlay (Scenario.rightSign <$> Scenario.cameraQuestions)
               Scenario.signedIn in
  CameraQuizPage.showResults out.1 = true
  ∧ last (sent out.2) = Some (SaveScore "7" "pro" 1 (Some 100%Z))
  ∧ progressUpdates Scenario.signedIn out.2 = []
  ∧ storedProgress out.2 = (None, None).
Proof. vm_compute. repeat split; reflexivity. Qed.

(** C3, as the code has it.  On a perfect score of a signed-in user (a
    non-empty [user_id] in local storage) the level is marked complete and a
    progress update is sent: for level 5 to level 1 of the next tier in the
    fixed order beginner, intermediate, expert, pro (pro staying at pro), for
    a level from 1 to 4 to [levelNumber + 1] of the same tier; local storage
    mirrors the update when the backend answers with success, and is left
    alone otherwise.  A score below 100% changes no progress state, and
    neither does any score when no user id is stored. *)
Theorem perfect_score_of_signed_in_user_advances tierType levelNumber qs sa pa st w :
  let percentage := percentOf (calculateScore qs st) (length qs) in
  let out := handleSubmitQuiz tierType levelNumber qs sa pa st w in
  (∀ u, localStorage w !! "user_id" = Some u -> u ≠ "" -> percentage = Some 100%Z ->
     levelComplete out.1 = true
     ∧ (levelNumber = 5%Z ->
        progressUpdates w out.2 = [UpdateProgress u (tierName (nextTierOf tierType)) 1]
        ∧ (succeeded pa = true ->
           storedProgress out.2 = (Some (tierName (nextTierOf tierType)), Some "1")))
     ∧ ((1 <= levelNumber < 5)%Z ->
        progressUpdates w out.2 = [UpdateProgress u (tierName tierType) (levelNumber + 1)]
        ∧ (succeeded pa = true ->
           storedProgress out.2
           = (Some (tierName tierType), Some (pretty (levelNumber + 1)%Z))))
     ∧ (succeeded pa = false -> localStorage out.2 = localStorage w))
  ∧ (percentage ≠ Some 100%Z ->
     progressUpdates w out.2 = [] ∧ localStorage out.2 = localStorage w
     ∧ levelComplete out.1 = levelComplete st)
  ∧ (truthy (localStorage w !! "user_id") = false ->
     progressUpdates w out.2 = [] ∧ localStorage out.2 = localStorage w
     ∧ levelComplete out.1 = levelComplete st)
  ∧ nextTierOf beginner = intermediate ∧ nextTierOf intermediate = expert
  ∧ nextTierOf expert = pro ∧ nextTierOf pro = pro.
Proof.
  cbv zeta.
  destruct (handleSubmitQuiz_effects tierType levelNumber qs sa pa st w)
    as (Hsent & Hstore & Hdone).
  unfold storedProgress. rewrite Hsent, !Hstore, Hdone. unfold advances.
  split_and!; try reflexivity.
  - intros u Hu Hne Hp. rewrite Hu. simpl.
    rewrite (bool_decide_eq_true_2 _ Hp), (bool_decide_eq_false_2 _ Hne). simpl.
    split_and!; [done| | |].
    + intros H5. rewrite !(bool_decide_eq_true_2 _ H5). split; [done|].
      intros ->. rewrite lookup_insert_ne by done.
      by rewrite !lookup_insert_eq.
    + intros Hlevel. assert (H5 : levelNumber ≠ 5%Z) by lia.
      rewrite !(bool_decide_eq_false_2 _ H5). split; [done|].
      intros ->. rewrite lookup_insert_ne by done.
      by rewrite !lookup_insert_eq.
    + by intros ->.
  - intros Hp. by rewrite (bool_decide_eq_false_2 _ Hp).
  - intros ->. by rewrite !andb_false_r.
Qed.

Lemma perfect_score_of_signed_in_user_advances_witness :
  let before := Scenario.play (Scenario.untilMatched ++ take 2 Scenario.untilSubmitted)
                  Scenario.signedIn in
  let out := handleSubmitQuiz beginner 1 (questions Scenario.level1)
               Scenario.saved Scenario.updated before.1 before.2 in
  localStorage before.2 !! "user_id" = Some "7"
  ∧ percentOf (calculateScore (questions Scenario.level1) before.1)
              (length (questions Scenario.level1)) = Some 100%Z
  ∧ levelComplete out.1 = true
  ∧ progressUpdates before.2 out.2 = [UpdateProgress "7" "beginner" 2]
  ∧ storedProgress out.2 = (Some "beginner", Some "2").
Proof.
  intros before out.
  assert (Hu : localStorage before.2 !! "user_id" = Some "7") by (vm_compute; reflexivity).
  assert (Hne : "7" ≠ "") by discriminate.
  assert (Hp : percentOf (calculateScore (questions Scenario.level1) before.1)
                 (length (questions Scenario.level1)) = Some 100%Z)
    by (vm_compute; reflexivity).
  assert (H5 : (1 <= 1 < 5)%Z) by lia.
  destruct (perfect_score_of_signed_in_user_advances beginner 1 (questions Scenario.level1)
              Scenario.saved Scenario.updated before.1 before.2) as [H _].
  destruct (H "7" Hu Hne Hp) as (Hdone & _ & Hnext & _).
  destruct (Hnext H5) as [Hsent Hstore].
  split_and!; [exact Hu|exact Hp|exact Hdone|exact Hsent|exact (Hstore eq_refl)].
Defined.

(** A perfect score at level 1 with no user id stored: nothing advances. *)
Lemma perfect_score_of_guest_does_not_advance :
  let before := Scenario.play (Scenario.untilMatched ++ take 2 Scenario.untilSubmitted)
                  Scenario.guest in
  let out := handleSubmitQuiz beginner 1 (questions Scenario.level1)
               Scenario.saved Scenario.updated before.1 before.2 in
  percentOf (calculateScore (questions Scenario.level1) before.1)
            (length (questions Scenario.level1)) = Some 100%Z
  ∧ (1 < 5)%Z
  ∧ progressUpdates before.2 out.2 = []
  ∧ sent out.2 = []
  ∧ storedProgress out.2 = (None, None)
  ∧ levelComplete out.1 = false.
Proof. vm_compute. repeat split; reflexivity. Qed.

(** ** The scenario against the statements as worded *)

(** The session in which a wrong icon is dropped on a marked matching
    question: the code scores 4 of 5, while 5 recorded answers match. *)
Lemma score_drops_a_stale_matching_mark :
  let out := Scenario.play (Scenario.untilMatched ++ Scenario.wrongDrop
                             ++ take 2 Scenario.untilSubmitted) Scenario.signedIn in
  let qs := questions Scenario.level1 in
  calculateScore qs out.1 = 4
  ∧ countQuestions (matchesAsStated out.1) qs = 5
  ∧ calculateScore qs out.1 ≠ countQuestions (matchesAsStated out.1) qs.
Proof. vm_compute. repeat split; try reflexivity. discriminate. Qed.

Lemma score_counts_answers_that_match_and_hold_witness :
  let out := Scenario.play (Scenario.untilMatched ++ Scenario.wrongDrop
                             ++ take 2 Scenario.untilSubmitted) Scenario.signedIn in
  let qs := questions Scenario.level1 in
  1 <= length qs <= 39
  ∧ calculateScore qs out.1 = countQuestions (matchesAndHolds out.1) qs
  ∧ percentOf (calculateScore qs out.1) (length qs) = Some 80%Z.
Proof.
  intros out qs.
  assert (Hwf : Forall (fun q => wellFormed q = true) qs).
  { unfold qs. vm_compute. repeat (constructor; [reflexivity|]). constructor. }
  assert (Hlen : 1 <= length qs <= 39) by (vm_compute; lia).
  destruct score_counts_answers_that_match_and_hold as [H _].
  destruct (H qs out.1 Hwf Hlen) as [Hs Hp].
  split; [exact Hlen|]. split; [exact Hs|].
  rewrite Hp. vm_compute. reflexivity.
Defined.

(** After the wrong drop the matching question is still marked, although the
    zone of B holds the icon of A. *)
Lemma stale_mark_after_wrong_drop :
  let st := (Scenario.play (Scenario.untilMatched ++ Scenario.wrongDrop)
               Scenario.signedIn).1 in
  questions Scenario.level1 !! currentIndex st = Some (matchingQuestion 4 Scenario.matchingPairs)
  ∧ currentIndex st = 3
  ∧ quizAnswers st !! 3 = Some (JsString "matched")
  ∧ droppedIcons st !! dropKey 3 "B" = Some "/A.png"
  ∧ allPairsCorrect st 3 (matchingQuestion 4 Scenario.matchingPairs) = false
  ∧ isComplete (matchingQuestion 4 Scenario.matchingPairs) st = true
  ∧ ¬ (quizAnswers st !! 3 = Some (JsString "matched")
       ↔ allPairsCorrect st 3 (matchingQuestion 4 Scenario.matchingPairs) = true).
Proof.
  vm_compute. repeat split; try reflexivity.
  intros [H _]. specialize (H eq_refl). discriminate.
Qed.

Lemma matched_mark_is_set_once_all_pairs_were_right_witness :
  let qs := questions Scenario.level1 in
  let st := Scenario.atMatching in
  qs !! currentIndex st = Some (matchingQuestion 4 Scenario.matchingPairs)
  ∧ quizAnswers st !! currentIndex st = None
  ∧ (quizAnswers (dropAll qs (Scenario.rightDrops ++ [("/A.png", "B")]) st) !! currentIndex st
     = Some (JsString "matched")
     ↔ ∃ n, 0 < n <= 5
            ∧ forallb (pairMatched
                         (droppedIcons
                            (dropAll qs (take n (Scenario.rightDrops ++ [("/A.png", "B")])) st))
                         (currentIndex st)) Scenario.matchingPairs = true).
Proof.
  intros qs st.
  assert (Hq : qs !! currentIndex st = Some (matchingQuestion 4 Scenario.matchingPairs))
    by (vm_compute; reflexivity).
  assert (Hfresh : quizAnswers st !! currentIndex st = None) by (vm_compute; reflexivity).
  split; [exact Hq|]. split; [exact Hfresh|].
  apply (matched_mark_is_set_once_all_pairs_were_right qs st
           (matchingQuestion 4 Scenario.matchingPairs) Scenario.matchingPairs
           (Scenario.rightDrops ++ [("/A.png", "B")]) Hq eq_refl eq_refl).
  - rewrite Hfresh. discriminate.
  - repeat (constructor; [discriminate|]). constructor.
Defined.

(** ** More on the content generator *)

Lemma NoDup_of_submseteq {A} (l k : list A) : l ⊆+ k -> NoDup k -> NoDup l.
Proof.
  intros [l' Hp]%submseteq_Permutation Hk. rewrite Hp in Hk.
  by apply NoDup_app in Hk as [? _].
Qed.

Lemma allLettersData_NoDup : NoDup (letter <$> allLettersData).
Proof.
  apply (bool_decide_unpack (NoDup (letter <$> allLettersData))). vm_compute. exact I.
Qed.

Lemma allLettersData_sign ld :
  ld ∈ allLettersData -> src (getImageSrc (letter ld) (emoji ld)) = iconOf (letter ld).
Proof.
  revert ld. apply Forall_forall.
  unfold allLettersData. repeat (constructor; [reflexivity|]). constructor.
Qed.

Lemma quizLettersOf_sublist level : quizLettersOf level `sublist_of` allLettersData.
Proof. apply slice_sublist. Qed.

Lemma quizLettersOf_from_one level : (1 <= level)%Z -> 4 <= length (quizLettersOf level).
Proof. intros Hl. rewrite quizLettersOf_length by lia. lia. Qed.

(** The questions built before the final shuffle, with the matching question
    spelled out. *)
Lemma wordStage_matching level rs :
  ∃ ms ws, (wordStage level rs).1 = (typingStage level rs).1 ++ ms ++ ws
           ∧ Forall (wordQuestionFrom (wordOptionsOf (quizLettersOf level))) ws
           ∧ if bool_decide (3 <= length (quizLettersOf level))
             then ∃ sh i, sh ≡ₚ quizLettersOf level
                          ∧ ms = [matchingQuestion i
                                    (pairOfLetter
                                       <$> take (Nat.min 4 (length (quizLettersOf level))) sh)]
             else ms = [].
Proof.
  unfold wordStage, matchingStage, JS.bind.
  destruct (typingStage level rs) as [qs rs1]. cbn [fst].
  set (ql := quizLettersOf level).
  assert (Hwords : ∀ ms rs2,
    ∃ ws, ((if bool_decide (2 <= level)%Z && bool_decide (3 <= length ql)
            then pushWords (if bool_decide (3 <= level)%Z then 2 else 1)
                           (wordOptionsOf ql) (qs ++ ms)
            else JS.ret (qs ++ ms)) rs2).1 = qs ++ ms ++ ws
          ∧ Forall (wordQuestionFrom (wordOptionsOf ql)) ws).
  { intros ms rs2. destruct (_ && _).
    - match goal with |- context [pushWords ?n ?o ?q ?r] =>
        destruct (pushWords_shape n o q r) as (ws & Hws & _ & Hall) end.
      exists ws. rewrite Hws. by rewrite <- app_assoc.
    - exists []. by rewrite !app_nil_r. }
  destruct (decide (3 <= length ql)) as [H3|H3].
  - rewrite !(bool_decide_eq_true_2 (3 <= length ql)) by done.
    rewrite !(bool_decide_eq_true_2 (3 <= length ql)) in Hwords by done.
    pose proof (shuffle_Permutation ql rs1) as Hp. unfold run in Hp.
    destruct (shuffle ql rs1) as [sh rs2]. cbn [fst] in Hp. unfold JS.ret at 1.
    match goal with |- context [qs ++ [?mq]] =>
      destruct (Hwords [mq] rs2) as (ws & Hws & Hall) end.
    eexists _, ws. split; [exact Hws|]. split; [done|].
    exists sh, (length qs). split; [done|].
    rewrite slice_0_nonneg by lia. by rewrite Nat2Z.id.
  - rewrite !(bool_decide_eq_false_2 (3 <= length ql)) by done.
    rewrite !(bool_decide_eq_false_2 (3 <= length ql)) in Hwords by done.
    destruct (Hwords [] rs1) as (ws & Hws & Hall). rewrite app_nil_r in Hws.
    unfold JS.ret at 1. exists [], ws. done.
Qed.

(** X1. A generated quiz has exactly one matching question when at least
    three cumulative letters exist (so at every level from 1 on) and none
    otherwise.  Its pairs are [min 4 n] distinct letters of the [n]
    cumulative letters, each paired with the icon of that very letter, and
    its answer is the [matched] sentinel. *)
Theorem one_matching_question_of_distinct_letters level rs :
  let final := questions (run (getLevelData level) rs) in
  let ql := quizLettersOf level in
  (length ql < 3 -> filter (fun q => type q = matching) final = [])
  ∧ ((1 <= level)%Z -> 3 <= length ql)
  ∧ (3 <= length ql ->
     ∃ q ps, filter (fun q => type q = matching) final = [q]
             ∧ pairs q = Some ps
             ∧ correctAnswer q = JsString "matched"
             ∧ length ps = Nat.min 4 (length ql)
             ∧ NoDup (pair_letter <$> ps)
             ∧ ∀ p, p ∈ ps ->
                 pair_letter p ∈ letter <$> ql ∧ sign p = iconOf (pair_letter p)).
Proof.
  intros final ql.
  destruct (wordStage_matching level rs) as (ms & ws & Hshape & Hws & Hms).
  assert (Hfilter : filter (fun q => type q = matching) final ≡ₚ
                    filter (fun q => type q = matching) ms).
  { unfold final. rewrite getLevelData_questions, Hshape, !filter_app.
    rewrite (filter_none _ (typingStage level rs).1).
    2:{ rewrite typingStage_run. eapply Forall_impl; [apply pushTyping_typing|].
        intros q Hq. by rewrite Hq. }
    rewrite (filter_none _ ws); [by rewrite app_nil_r|].
    eapply Forall_impl; [exact Hws|]. by intros q (i & wo & _ & ->). }
  fold ql in Hms. split_and!.
  - intros Hlt. rewrite bool_decide_eq_false_2 in Hms by lia. subst ms.
    by apply Permutation_nil_r in Hfilter.
  - intros Hl. pose proof (quizLettersOf_from_one level Hl). unfold ql. lia.
  - intros H3. rewrite bool_decide_eq_true_2 in Hms by done.
    destruct Hms as (sh & i & Hp & ->).
    rewrite filter_cons_True in Hfilter by done. rewrite filter_nil in Hfilter.
    apply Permutation_singleton_r in Hfilter.
    eexists _, _. split; [exact Hfilter|]. split; [done|]. split; [done|].
    assert (Hsub : take (Nat.min 4 (length ql)) sh ⊆+ ql).
    { etrans; [apply sublist_submseteq, sublist_take|by apply Permutation_submseteq]. }
    split_and!.
    + rewrite length_fmap, length_take. rewrite (Permutation_length Hp). lia.
    + rewrite <- list_fmap_compose.
      eapply NoDup_of_submseteq; [|apply allLettersData_NoDup].
      change (pair_letter ∘ pairOfLetter) with letter.
      apply fmap_submseteq. etrans; [exact Hsub|].
      apply sublist_submseteq, quizLettersOf_sublist.
    + intros p Hin. apply list_elem_of_fmap in Hin as (ld & -> & Hld).
      assert (Hql : ld ∈ ql) by by eapply elem_of_submseteq.
      split.
      * apply list_elem_of_fmap. by exists ld.
      * apply allLettersData_sign.
        eapply elem_of_sublist; [exact Hql|apply quizLettersOf_sublist].
Qed.

Lemma one_matching_question_of_distinct_letters_witness :
  (1 <= 1)%Z
  ∧ ∃ q ps, filter (fun q => type q = matching) (questions (run (getLevelData 1) [2; 7; 1]))
            = [q]
            ∧ pairs q = Some ps ∧ length ps = 4.
Proof.
  assert (H1 : (1 <= 1)%Z) by lia. split; [exact H1|].
  destruct (one_matching_question_of_distinct_letters 1 [2; 7; 1]) as (_ & Hlen & H).
  destruct (H (Hlen H1)) as (q & ps & Hq & Hps & _ & Hl & _).
  exists q, ps. split; [exact Hq|]. split; [exact Hps|]. exact Hl.
Defined.

(** Every question of a generated quiz is one of the three kinds the
    generator builds. *)
Lemma generated_question_cases level rs q :
  q ∈ questions (run (getLevelData level) rs) ->
  (∃ i ld, ld ∈ quizLettersOf level ∧ q = typingQuestion i ld)
  ∨ (∃ sh i, 3 <= length (quizLettersOf level) ∧ sh ≡ₚ quizLettersOf level
             ∧ q = matchingQuestion i
                     (pairOfLetter <$> take (Nat.min 4 (length (quizLettersOf level))) sh))
  ∨ (∃ i wo, wo ∈ wordOptionsOf (quizLettersOf level) ∧ q = wordQuestion i wo).
Proof.
  rewrite getLevelData_questions.
  destruct (wordStage_matching level rs) as (ms & ws & -> & Hws & Hms).
  rewrite !elem_of_app. intros [Hq|[Hq|Hq]].
  - left. rewrite typingStage_run in Hq.
    destruct (pushTyping_elem _ _ Hq) as (i & ld & Hld & ->).
    exists i, ld. split; [|done]. by apply shuffle_elem_of in Hld.
  - right. left. case_bool_decide as H3; [|subst ms; by apply elem_of_nil in Hq].
    destruct Hms as (sh & i & Hp & ->). apply list_elem_of_singleton in Hq as ->.
    by exists sh, i.
  - right. right. by apply (proj1 (Forall_forall _ _) Hws).
Qed.

Lemma slice_split {A} (a b : Z) (l : list A) :
  (0 <= a <= b)%Z -> slice 0 b l = slice 0 a l ++ slice a b l.
Proof.
  intros Hab. unfold slice, relativeIndex.
  destruct (Z.ltb_spec 0 0); [lia|].
  destruct (Z.ltb_spec a 0); [lia|].
  destruct (Z.ltb_spec b 0); [lia|].
  rewrite (Z.min_l 0) by lia. simpl. rewrite !drop_0, !Nat.sub_0_r.
  rewrite take_take_drop. f_equal. lia.
Qed.

Lemma getLevelData_letters level rs :
  lesson_letter <$> letters (run (getLevelData level) rs)
  = letter <$> slice ((level - 1) * 4) ((level - 1) * 4 + 4) allLettersData.
Proof.
  unfold getLevelData, run, JS.bind, JS.ret.
  destruct (wordStage level rs) as [qs rs1].
  destruct (shuffle qs rs1) as [sh rs2]. simpl.
  by rewrite <- list_fmap_compose.
Qed.

(** X2. For every level from 1 on, the letters quizzed are the letters
    quizzed at the level before followed by the letters taught in this
    level's lesson: the quiz is cumulative over the lessons.  A lesson has
    four letters up to level 5 and none from level 7 on, and every letter it
    teaches is asked as a typing question of the same level's quiz. *)
Theorem quiz_letters_accumulate_the_lessons level rs :
  (1 <= level)%Z ->
  let data := run (getLevelData level) rs in
  letter <$> quizLettersOf level
  = (letter <$> quizLettersOf (level - 1)) ++ (lesson_letter <$> letters data)
  ∧ ((level <= 5)%Z -> length (letters data) = 4)
  ∧ ((7 <= level)%Z -> letters data = [])
  ∧ ∀ l, l ∈ lesson_letter <$> letters data ->
      ∃ q, q ∈ questions data ∧ type q = typing ∧ correctAnswer q = JsString l.
Proof.
  intros Hl data.
  assert (Hsplit : letter <$> quizLettersOf level
                   = (letter <$> quizLettersOf (level - 1))
                     ++ (lesson_letter <$> letters data)).
  { unfold data. rewrite getLevelData_letters, <- fmap_app. f_equal.
    unfold quizLettersOf.
    replace ((level - 1) * 4 + 4)%Z with (level * 4)%Z by lia.
    apply slice_split. lia. }
  assert (Hlen : length (lesson_letter <$> letters data)
                 = length (quizLettersOf level) - length (quizLettersOf (level - 1))).
  { apply (f_equal length) in Hsplit. rewrite length_app, !length_fmap in Hsplit.
    rewrite length_fmap. lia. }
  rewrite length_fmap, !quizLettersOf_length in Hlen by lia.
  split_and!.
  - exact Hsplit.
  - intros H5. lia.
  - intros H7. apply length_zero_iff_nil. lia.
  - intros l Hin.
    assert (Hq : l ∈ letter <$> quizLettersOf level).
    { rewrite Hsplit. apply elem_of_app. by right. }
    apply list_elem_of_fmap in Hq as (ld & -> & Hld).
    assert (Hans : JsString (letter ld) ∈ correctAnswer <$> (typingStage level rs).1).
    { rewrite typingStage_run, pushTyping_answers. apply list_elem_of_fmap.
      exists ld. split; [done|]. by apply shuffle_elem_of. }
    apply list_elem_of_fmap in Hans as (q & Hc & Hq).
    exists q. split_and!.
    + unfold data. rewrite getLevelData_questions.
      destruct (wordStage_shape level rs) as (ms & ws & -> & _).
      apply elem_of_app. by left.
    + rewrite typingStage_run in Hq.
      destruct (pushTyping_elem _ _ Hq) as (i & ld' & _ & ->). done.
    + done.
Qed.

Lemma quiz_letters_accumulate_the_lessons_witness :
  (1 <= 2)%Z
  ∧ letter <$> quizLettersOf 2
    = ["A"; "B"; "C"; "D"] ++ (lesson_letter <$> letters (run (getLevelData 2) []))
  ∧ lesson_letter <$> letters (run (getLevelData 2) []) = ["E"; "F"; "G"; "H"].
Proof.
  assert (H1 : (1 <= 2)%Z) by lia. split; [exact H1|].
  split; [exact (proj1 (quiz_letters_accumulate_the_lessons 2 [] H1))|].
  vm_compute. reflexivity.
Defined.

Lemma getIconBank_take level :
  (0 <= level)%Z ->
  getIconBank level
  = (fun ld => mkBankIcon (letter ld) (getImageSrc (letter ld) (emoji ld)))
      <$> quizLettersOf level.
Proof.
  intros Hl. unfold getIconBank. rewrite quizLettersOf_take by done. f_equal.
  change (Z.of_nat (length allLettersData)) with 23%Z.
  destruct (decide (level * 4 <= 23)%Z).
  - rewrite Z.min_l by lia. f_equal. lia.
  - rewrite Z.min_r by lia. rewrite !take_ge; [done|simpl; lia..].
Qed.

Lemma bankIcons_quizLetters level :
  (0 <= level)%Z -> bankIcons level = (fun ld => iconOf (letter ld)) <$> quizLettersOf level.
Proof.
  intros Hl. unfold bankIcons. rewrite getIconBank_take by done.
  rewrite <- list_fmap_compose. apply Forall_fmap_ext_1, Forall_forall.
  intros ld Hld. simpl. apply allLettersData_sign.
  eapply elem_of_sublist; [exact Hld|apply quizLettersOf_sublist].
Qed.

(** X3. For every level from 0 on, the icon bank offers exactly the icons of
    the cumulative letters of the quiz, in table order.  So every sign a
    matching question of the generated quiz expects, and the icon of every
    letter of every word to spell, can be dragged from the bank.  A level
    below 1 has an empty bank. *)
Theorem icon_bank_offers_every_sign_of_the_quiz level rs :
  ((0 <= level)%Z ->
   bank_letter <$> getIconBank level = letter <$> quizLettersOf level
   ∧ bankIcons level = (fun ld => iconOf (letter ld)) <$> quizLettersOf level
   ∧ (∀ q ps p, q ∈ questions (run (getLevelData level) rs) ->
                pairs q = Some ps -> p ∈ ps -> sign p ∈ bankIcons level)
   ∧ (∀ q w c, q ∈ questions (run (getLevelData level) rs) ->
               word q = Some w -> c ∈ split_chars w -> iconOf c ∈ bankIcons level))
  ∧ ((level <= 0)%Z -> getIconBank level = []).
Proof.
  split.
  - intros Hl.
    assert (Hicon : ∀ ld, ld ∈ quizLettersOf level -> iconOf (letter ld) ∈ bankIcons level).
    { intros ld Hld. rewrite bankIcons_quizLetters by done.
      apply list_elem_of_fmap. by exists ld. }
    split_and!.
    + rewrite getIconBank_take by done. by rewrite <- list_fmap_compose.
    + by apply bankIcons_quizLetters.
    + intros q ps p Hq Hps Hp.
      destruct (generated_question_cases level rs q Hq)
        as [(i & ld & _ & ->)|[(sh & i & _ & Hperm & ->)|(i & wo & _ & ->)]];
        [done| |done].
      injection Hps as <-. apply list_elem_of_fmap in Hp as (ld & -> & Hld).
      assert (Hql : ld ∈ quizLettersOf level).
      { rewrite <- Hperm. eapply elem_of_sublist; [exact Hld|apply sublist_take]. }
      simpl. rewrite allLettersData_sign; [by apply Hicon|].
      eapply elem_of_sublist; [exact Hql|apply quizLettersOf_sublist].
    + intros q w c Hq Hw Hc.
      destruct (generated_question_cases level rs q Hq)
        as [(i & ld & _ & ->)|[(sh & i & _ & Hperm & ->)|(i & wo & Hwo & ->)]];
        [done|done|].
      injection Hw as <-.
      destruct (wordOptionsOf_available _ _ Hwo) as [Htable Havail].
      rewrite (allWordOptions_letters wo Htable) in Hc.
      apply Havail, list_elem_of_fmap in Hc as (ld & -> & Hld). by apply Hicon.
  - intros Hl. unfold getIconBank.
    change (Z.of_nat (length allLettersData)) with 23%Z.
    rewrite Z.min_l by lia.
    replace (Z.to_nat (level * 4)) with 0 by lia. done.
Qed.

Lemma icon_bank_offers_every_sign_of_the_quiz_witness :
  (0 <= 2)%Z
  ∧ bankIcons 2
    = ["/A.png"; "/B.png"; "/C.png"; "/D.png"; "/E.png"; "/F.png"; "/G.png"; "/H.png"].
Proof.
  assert (H0 : (0 <= 2)%Z) by lia. split; [exact H0|].
  destruct (icon_bank_offers_every_sign_of_the_quiz 2 []) as [H _].
  destruct (H H0) as (_ & Hb & _). rewrite Hb. vm_compute. reflexivity.
Defined.

(** ** Spelling a word by drag and drop *)

Lemma string_app_assoc (a b c : string) : (a +:+ b) +:+ c = a +:+ (b +:+ c).
Proof.
  induction a as [|x a IH]; [done|].
  change (String x ((a +:+ b) +:+ c) = String x (a +:+ (b +:+ c))). by f_equal.
Qed.

Lemma string_app_nil_r (a : string) : a +:+ "" = a.
Proof.
  induction a as [|x a IH]; [done|].
  change (String x (a +:+ "") = String x a). by f_equal.
Qed.

Lemma split_chars_length w : length (split_chars w) = String.length w.
Proof. induction w as [|x w IH]; simpl; [done|]. by f_equal. Qed.

Lemma split_chars_concat w : foldr String.app "" (split_chars w) = w.
Proof.
  induction w as [|x w IH]; [done|].
  change (String x (foldr String.app "" (split_chars w)) = String x w). by f_equal.
Qed.

Lemma wordKey_inj idx i j : wordKey idx i = wordKey idx j -> i = j.
Proof.
  unfold wordKey. intros H.
  repeat apply (inj (String.app _)) in H. by apply (inj pretty) in H.
Qed.

Lemma dropKey_inj idx l1 l2 : dropKey idx l1 = dropKey idx l2 -> l1 = l2.
Proof. unfold dropKey. intros H. by repeat apply (inj (String.app _)) in H. Qed.

Lemma truthy_iconOf c : truthy (Some (iconOf c)) = true.
Proof. unfold truthy. by rewrite bool_decide_eq_false_2. Qed.

(** The reverse lookup of the slot handler finds the letter of an icon of the
    table. *)
Lemma letter_of_icon c :
  c ∈ letter <$> allLettersData ->
  ∃ i ld, list_find (fun ld => src (getImageSrc (letter ld) (emoji ld)) = iconOf c)
                    allLettersData = Some (i, ld)
          ∧ letter ld = c.
Proof.
  revert c. apply Forall_forall. unfold allLettersData. simpl.
  repeat (constructor; [eexists _, _; split; vm_compute; reflexivity|]). constructor.
Qed.

Lemma builtWord_fold idx (dropped : gmap string string) cs a acc :
  Forall (fun c => c ∈ letter <$> allLettersData) cs ->
  (∀ i c, cs !! i = Some c -> dropped !! wordKey idx (a + i) = Some (iconOf c)) ->
  foldl (fun builtWord i =>
           match dropped !! wordKey idx i with
           | Some droppedIcon =>
               if truthy (Some droppedIcon) then
                 match list_find (fun ld => src (getImageSrc (letter ld) (emoji ld)) = droppedIcon)
                                 allLettersData with
                 | Some (_, letterMatch) => builtWord +:+ letter letterMatch
                 | None => builtWord
                 end
               else builtWord
           | None => builtWord
           end)
        acc (seq a (length cs))
  = acc +:+ foldr String.app "" cs.
Proof.
  revert a acc. induction cs as [|c cs IH]; intros a acc Hall Hd.
  { simpl. by rewrite string_app_nil_r. }
  apply Forall_cons in Hall as [Hc Hall]. cbn [length seq foldl foldr].
  rewrite <- (Nat.add_0_r a) at 1. rewrite (Hd 0 c eq_refl), truthy_iconOf.
  destruct (letter_of_icon c Hc) as (i & ld & -> & ->).
  rewrite IH; [by rewrite string_app_assoc|done|].
  intros j c' Hj. replace (S a + j) with (a + S j) by lia. by apply Hd.
Qed.

(** X4. Dropping the icon of the right letter on the last open slot of a
    word, when every other slot already holds the icon of its letter, records
    exactly the target word as the answer of the current question, whatever
    the order in which the slots were filled; the question is then complete
    and counts as correct. *)
Theorem spelling_every_slot_records_the_word w k c st :
  Forall (fun c => c ∈ letter <$> allLettersData) (split_chars w) ->
  split_chars w !! k = Some c ->
  draggedIcon st = Some (iconOf c) ->
  (∀ i c', i ≠ k -> split_chars w !! i = Some c' ->
           droppedIcons st !! wordKey (currentIndex st) i = Some (iconOf c')) ->
  let st' := handleWordDrop w k st in
  wordSpellingAnswers st' !! currentIndex st = Some w
  ∧ currentIndex st' = currentIndex st
  ∧ draggedIcon st' = None
  ∧ ∀ i wo, toUpperCase (wo_word wo) = w ->
      isComplete (wordQuestion i wo) st' = true
      ∧ countsAsCorrect st' (currentIndex st) (wordQuestion i wo) = true.
Proof.
  intros Hall Hk Hdrag Hothers. cbv zeta. unfold handleWordDrop.
  rewrite Hdrag, truthy_iconOf. simpl.
  assert (Hbuilt : builtWordOf w (currentIndex st)
                     (<[wordKey (currentIndex st) k := iconOf c]> (droppedIcons st)) = w).
  { unfold builtWordOf. rewrite <- split_chars_length.
    rewrite (builtWord_fold _ _ (split_chars w) 0 "" Hall).
    - simpl. apply split_chars_concat.
    - intros i c' Hi. simpl. destruct (decide (i = k)) as [->|Hne].
      + rewrite lookup_insert_eq. congruence.
      + rewrite lookup_insert_ne; [by apply Hothers|].
        intros Heq. by apply wordKey_inj in Heq. }
  rewrite Hbuilt, lookup_insert_eq.
  split_and!; try done.
  intros i wo Hw. unfold isComplete, countsAsCorrect. simpl.
  rewrite lookup_insert_eq, Hw. simpl.
  assert (Hne : w ≠ "") by (intros ->; by destruct k).
  rewrite (bool_decide_eq_false_2 _ Hne). simpl.
  split; by apply bool_decide_eq_true_2.
Qed.

Lemma spelling_every_slot_records_the_word_witness :
  let st := handleDragStart "/D.png"
              (setDroppedIcons {[ wordKey 0 0 := "/B.png"; wordKey 0 1 := "/A.png" ]}
                 (initialState quiz)) in
  split_chars "BAD" !! 2 = Some "D"
  ∧ wordSpellingAnswers (handleWordDrop "BAD" 2 st) !! 0 = Some "BAD".
Proof.
  intros st. split; [reflexivity|].
  apply (spelling_every_slot_records_the_word "BAD" 2 "D" st).
  - simpl. repeat (constructor; [apply (bool_decide_unpack _); vm_compute; exact I|]).
    constructor.
  - reflexivity.
  - reflexivity.
  - intros [|[|[|i]]] c' Hne Hi; simpl in Hi; simplify_eq; try done; vm_compute; reflexivity.
Defined.

(** ** More on scoring and submission *)

Lemma countQuestions_none test qs :
  (∀ i q, q ∈ qs -> test i q = false) -> countQuestions test qs = 0.
Proof.
  intros Hnone. unfold countQuestions. rewrite filter_none; [done|].
  apply Forall_forall. intros [i q] Hin. simpl.
  apply list_elem_of_lookup in Hin as [j Hj].
  rewrite list_lookup_imap in Hj.
  destruct (qs !! j) as [q'|] eqn:Hq; simplify_eq/=.
  rewrite Hnone; [done|]. by eapply list_elem_of_lookup_2.
Qed.

Lemma countsAsCorrect_unanswered st idx q :
  wellFormed q = true ->
  quizAnswers st !! idx = None -> wordSpellingAnswers st !! idx = None ->
  countsAsCorrect st idx q = false.
Proof.
  intros Hwf Ha Hw. rewrite countsAsCorrect_spec by done.
  unfold matchesAndHolds, matchesAsStated, recordedAnswer.
  destruct (type q); by rewrite ?Ha, ?Hw.
Qed.

(** X5. Restart brings the page back to the state in which a lesson is
    opened, but for the highest score shown, which it keeps: the first
    letter of the lesson, no recorded answer, no spelled word, no drop, no
    dragged icon, the results hidden and the level not complete.  A quiz
    nobody has answered scores nothing: on every generated quiz the score
    of the initial state is 0 and so is the score after Restart, no
    question of it is complete after Restart, and the percentage of such a
    quiz is 0. *)
Theorem unanswered_quiz_scores_zero level rs initialMode st :
  let qs := questions (run (getLevelData level) rs) in
  handleRestart st = setHighestScore (highestScore st) (initialState learning)
  ∧ currentIndex (handleRestart st) = 0
  ∧ mode (handleRestart st) = learning
  ∧ quizAnswers (handleRestart st) = ∅
  ∧ wordSpellingAnswers (handleRestart st) = ∅
  ∧ droppedIcons (handleRestart st) = ∅
  ∧ draggedIcon (handleRestart st) = None
  ∧ showResults (handleRestart st) = false
  ∧ levelComplete (handleRestart st) = false
  ∧ highestScore (handleRestart st) = highestScore st
  ∧ calculateScore qs (initialState initialMode) = 0
  ∧ calculateScore qs (handleRestart st) = 0
  ∧ (∀ q, isComplete q (handleRestart st) = false)
  ∧ (qs ≠ [] -> percentOf (calculateScore qs (handleRestart st)) (length qs) = Some 0%Z).
Proof.
  intros qs.
  assert (Hzero : ∀ st', quizAnswers st' = ∅ -> wordSpellingAnswers st' = ∅ ->
                         calculateScore qs st' = 0).
  { intros st' Ha Hw. rewrite calculateScore_count. apply countQuestions_none.
    intros i q Hq. apply countsAsCorrect_unanswered.
    - by apply (proj1 (Forall_forall _ _) (generated_wellFormed level rs)).
    - by rewrite Ha.
    - by rewrite Hw. }
  split_and!; [done|done|done|done|done|done|done|done|done|done
               |by apply Hzero|by apply Hzero| |].
  { intros q. unfold isComplete. by destruct (type q). }
  intros Hne. rewrite Hzero by done.
  pose proof (generated_length level rs) as Hlen. fold qs in Hlen.
  assert (Hpos : 1 <= length qs <= 39).
  { destruct qs; [done|]. simpl in *. lia. }
  rewrite percentOf_round; [|done|lia].
  unfold roundPercent. f_equal. apply Z.div_small. lia.
Qed.

Lemma unanswered_quiz_scores_zero_witness :
  let qs := questions (run (getLevelData 1) []) in
  let st := (Scenario.play Scenario.untilMatched Scenario.signedIn).1 in
  qs ≠ []
  ∧ percentOf (calculateScore qs (handleRestart st)) (length qs) = Some 0%Z.
Proof.
  intros qs st.
  assert (Hne : qs ≠ []) by (vm_compute; discriminate).
  split; [exact Hne|].
  destruct (unanswered_quiz_scores_zero 1 [] quiz st)
    as (_ & _ & _ & _ & _ & _ & _ & _ & _ & _ & _ & _ & _ & Hzero).
  exact (Hzero Hne).
Defined.

Lemma countQuestions_full test qs :
  countQuestions test qs = length qs ↔ ∀ i q, qs !! i = Some q -> test i q = true.
Proof.
  unfold countQuestions.
  assert (Hlen : length qs = length (imap pair qs)) by by rewrite length_imap.
  rewrite Hlen. clear Hlen. split.
  - intros Hlen i q Hq.
    destruct (decide (test i q = true)) as [|Hne]; [done|exfalso].
    assert (Hin : (i, q) ∈ imap pair qs).
    { apply list_elem_of_lookup. exists i. by rewrite list_lookup_imap, Hq. }
    pose proof (length_filter_lt (fun iq => test iq.1 iq.2 = true) _ _ Hin Hne). lia.
  - intros Hall. f_equal. apply filter_all, Forall_forall. intros [i q] Hin. simpl.
    apply list_elem_of_lookup in Hin as [j Hj].
    rewrite list_lookup_imap in Hj.
    destruct (qs !! j) as [q'|] eqn:Hq; simplify_eq/=. by apply Hall.
Qed.

(** X6. On well-formed questions, 1 to 39 of them, the percentage is 100
    exactly when every question, at its position, has a recorded answer that
    matches and (for a matching question) drop zones that are all right: one
    question short of that and the quiz is not perfect. *)
Theorem perfect_exactly_when_every_answer_is_right qs st :
  Forall (fun q => wellFormed q = true) qs ->
  1 <= length qs <= 39 ->
  percentOf (calculateScore qs st) (length qs) = Some 100%Z
  ↔ ∀ idx q, qs !! idx = Some q -> matchesAndHolds st idx q = true.
Proof.
  intros Hwf Hlen. rewrite calculateScore_spec by done.
  rewrite percentOf_100; [|done|apply countQuestions_le].
  apply countQuestions_full.
Qed.

Lemma perfect_exactly_when_every_answer_is_right_witness :
  let before := Scenario.play (Scenario.untilMatched ++ take 2 Scenario.untilSubmitted)
                  Scenario.signedIn in
  let qs := questions Scenario.level1 in
  1 <= length qs <= 39
  ∧ ∀ idx q, qs !! idx = Some q -> matchesAndHolds before.1 idx q = true.
Proof.
  intros before qs.
  assert (Hwf : Forall (fun q => wellFormed q = true) qs).
  { unfold qs. vm_compute. repeat (constructor; [reflexivity|]). constructor. }
  assert (Hlen : 1 <= length qs <= 39) by (vm_compute; lia).
  split; [exact Hlen|].
  apply (perfect_exactly_when_every_answer_is_right qs before.1 Hwf Hlen).
  vm_compute. reflexivity.
Defined.

(** X7. Submitting always shows the results and never touches the recorded
    answers, so the score the results page recomputes is the score that was
    saved.  With a user id stored the first request sent is save-score, with
    the tier, the level and the percentage, whatever the percentage; it is
    followed by nothing but the progress update.  Without a user id the world
    is left as it was. *)
Theorem submission_saves_the_score_it_shows tierType levelNumber qs sa pa st w :
  let out := handleSubmitQuiz tierType levelNumber qs sa pa st w in
  let percentage := percentOf (calculateScore qs st) (length qs) in
  showResults out.1 = true
  ∧ calculateScore qs out.1 = calculateScore qs st
  ∧ currentIndex out.1 = currentIndex st
  ∧ (∀ u, localStorage w !! "user_id" = Some u -> u ≠ "" ->
       newRequests w out.2
       = SaveScore u (tierName tierType) levelNumber percentage :: progressUpdates w out.2)
  ∧ (truthy (localStorage w !! "user_id") = false -> out.2 = w).
Proof.
  cbv zeta. unfold handleSubmitQuiz, progressUpdates, newRequests, advances.
  change (calculateScore qs (Beginner.setShowResults true st)) with (calculateScore qs st).
  set (p := percentOf (calculateScore qs st) (length qs)).
  destruct (localStorage w !! "user_id") as [u|] eqn:Hu.
  - destruct (decide (u = "")) as [->|Hne].
    + simpl. rewrite andb_false_r. destruct w. split_and!; try done.
      by intros u [= <-].
    + assert (Ht : truthy (Some u) = true).
      { unfold truthy. by rewrite bool_decide_eq_false_2. }
      rewrite Ht.
      destruct (bool_decide (p = Some 100%Z));
        destruct (bool_decide (levelNumber = 5%Z));
        destruct sa as [|[] ?]; destruct pa as [|? [[]]]; simpl;
        (split_and!; [done|done|done| |done]);
        intros u' [= <-] _; rewrite <- ?app_assoc, ?drop_app_length; reflexivity.
  - simpl. rewrite andb_false_r. destruct w. split_and!; done.
Qed.

Lemma submission_saves_the_score_it_shows_witness :
  let before := Scenario.play (Scenario.untilMatched ++ Scenario.wrongDrop
                                ++ take 2 Scenario.untilSubmitted) Scenario.signedIn in
  let out := handleSubmitQuiz beginner 1 (questions Scenario.level1)
               Scenario.saved Scenario.updated before.1 before.2 in
  localStorage before.2 !! "user_id" = Some "7"
  ∧ newRequests before.2 out.2 = [SaveScore "7" "beginner" 1 (Some 80%Z)].
Proof.
  intros before out.
  assert (Hu : localStorage before.2 !! "user_id" = Some "7") by (vm_compute; reflexivity).
  assert (Hne : "7" ≠ "") by discriminate.
  split; [exact Hu|].
  destruct (submission_saves_the_score_it_shows beginner 1 (questions Scenario.level1)
              Scenario.saved Scenario.updated before.1 before.2) as (_ & _ & _ & H & _).
  unfold out. rewrite (H "7" Hu Hne). vm_compute. reflexivity.
Defined.

(** ** Walking through the lesson and the quiz *)

(** X8. From the first letter of a lesson, pressing Continue [k] times shows
    letter [k] of the lesson, for every [k] below the number of letters; one
    more press after the last letter starts the quiz at its first question,
    with nothing recorded by the walk. *)
Theorem continue_walks_the_lesson_then_starts_the_quiz letters st :
  mode st = learning -> currentIndex st = 0 -> 0 < length letters ->
  (∀ k, k < length letters ->
     mode (Nat.iter k (handleContinue letters) st) = learning
     ∧ currentIndex (Nat.iter k (handleContinue letters) st) = k)
  ∧ mode (Nat.iter (length letters) (handleContinue letters) st) = quiz
  ∧ currentIndex (Nat.iter (length letters) (handleContinue letters) st) = 0
  ∧ quizAnswers (Nat.iter (length letters) (handleContinue letters) st) = quizAnswers st
  ∧ droppedIcons (Nat.iter (length letters) (handleContinue letters) st) = droppedIcons st.
Proof.
  intros Hm Hi Hn.
  assert (Hwalk : ∀ k, k < length letters ->
            mode (Nat.iter k (handleContinue letters) st) = learning
            ∧ currentIndex (Nat.iter k (handleContinue letters) st) = k
            ∧ quizAnswers (Nat.iter k (handleContinue letters) st) = quizAnswers st
            ∧ droppedIcons (Nat.iter k (handleContinue letters) st) = droppedIcons st).
  { induction k as [|k IH]; intros Hk; [done|].
    destruct IH as (IHm & IHi & IHa & IHd); [lia|].
    rewrite !Nat.iter_succ. set (s := Nat.iter k (handleContinue letters) st) in *.
    unfold handleContinue. rewrite IHi.
    rewrite bool_decide_eq_true_2 by lia. simpl. split_and!; [done|lia|done..]. }
  split; [intros k Hk; destruct (Hwalk k Hk) as (? & ? & _); done|].
  destruct (length letters) as [|n] eqn:Hlen; [lia|].
  destruct (Hwalk n) as (IHm & IHi & IHa & IHd); [lia|].
  rewrite !Nat.iter_succ. set (s := Nat.iter n (handleContinue letters) st) in *.
  unfold handleContinue. rewrite IHi, Hlen.
  rewrite bool_decide_eq_false_2 by lia. done.
Qed.

Lemma continue_walks_the_lesson_then_starts_the_quiz_witness :
  let letters := letters (run (getLevelData 1) []) in
  0 < length letters
  ∧ mode (Nat.iter 4 (handleContinue letters) (initialState learning)) = quiz
  ∧ currentIndex (Nat.iter 3 (handleContinue letters) (initialState learning)) = 3.
Proof.
  intros letters.
  assert (Hn : 0 < length letters) by (vm_compute; lia).
  destruct (continue_walks_the_lesson_then_starts_the_quiz letters (initialState learning)
              eq_refl eq_refl Hn) as (Hwalk & Hquiz & _).
  split; [exact Hn|]. split; [exact Hquiz|].
  apply (Hwalk 3). vm_compute. lia.
Defined.

Lemma handleSubmitQuiz_keeps tierType levelNumber qs sa pa st w :
  let out := handleSubmitQuiz tierType levelNumber qs sa pa st w in
  mode out.1 = mode st ∧ currentIndex out.1 = currentIndex st
  ∧ quizAnswers out.1 = quizAnswers st
  ∧ wordSpellingAnswers out.1 = wordSpellingAnswers st
  ∧ droppedIcons out.1 = droppedIcons st.
Proof.
  cbv zeta. unfold handleSubmitQuiz.
  destruct (truthy _); destruct (advances _ _);
    destruct (bool_decide (levelNumber = 5%Z));
    destruct sa as [|[] ?]; destruct pa as [|? [[]]]; done.
Qed.

Lemma handleDrop_keeps qs questionId l st :
  let st' := handleDrop qs questionId l st in
  mode st' = mode st ∧ currentIndex st' = currentIndex st
  ∧ wordSpellingAnswers st' = wordSpellingAnswers st
  ∧ ∀ j, j ≠ questionId -> quizAnswers st' !! j = quizAnswers st !! j.
Proof.
  cbv zeta. unfold handleDrop.
  destruct (truthy _); [|done]. simpl.
  destruct (qs !! currentIndex st) as [q|]; [|done].
  destruct (type q), (pairs q) as [ps|]; try done.
  destruct (forallb _ ps); [|done]. simpl.
  split_and!; try done. intros j Hj. by rewrite lookup_insert_ne.
Qed.

Lemma handleWordDrop_keeps w k st :
  let st' := handleWordDrop w k st in
  mode st' = mode st ∧ currentIndex st' = currentIndex st
  ∧ quizAnswers st' = quizAnswers st
  ∧ ∀ j, j ≠ currentIndex st -> wordSpellingAnswers st' !! j = wordSpellingAnswers st !! j.
Proof.
  cbv zeta. unfold handleWordDrop.
  destruct (truthy _); [|done]. simpl.
  split_and!; try done. intros j Hj. by rewrite lookup_insert_ne.
Qed.

(** What one event of the quiz does to the position and to the answers of
    the questions other than the current one. *)
Lemma quizStep_keeps tierType levelNumber qs q e st w :
  qs !! currentIndex st = Some q -> mode st = quiz ->
  let s' := quizStep tierType levelNumber qs q e st w in
  mode s'.1 = quiz
  ∧ currentIndex s'.1 < length qs
  ∧ ∀ j, j ≠ currentIndex st ->
      quizAnswers s'.1 !! j = quizAnswers st !! j
      ∧ wordSpellingAnswers s'.1 !! j = wordSpellingAnswers st !! j.
Proof.
  intros Hq Hm. pose proof (lookup_lt_Some _ _ _ Hq) as Hlt. cbv zeta.
  destruct e; unfold quizStep; try done.
  - destruct (_ && _); [|done]. simpl. split_and!; [done..|].
    intros j Hj. by rewrite lookup_insert_ne.
  - case_bool_decide; [|done]. simpl. split_and!; [done..|].
    intros j Hj. by rewrite lookup_insert_ne.
  - destruct (_ || _); [|done]. by destruct (getIconBank levelNumber !! i).
  - case_bool_decide; [|done].
    destruct (default [] (pairs q) !! i) as [p|]; [|done]. simpl.
    destruct (handleDrop_keeps qs (currentIndex st) (pair_letter p) st)
      as (Hm' & Hi' & Hw' & Ha').
    rewrite Hm', Hi', Hw'. split_and!; [done..|]. intros j Hj. split; [by apply Ha'|done].
  - destruct (_ && _); [|done]. simpl.
    destruct (handleWordDrop_keeps (default "" (word q)) idx st)
      as (Hm' & Hi' & Ha' & Hw').
    rewrite Hm', Hi', Ha'. split_and!; [done..|]. intros j Hj. split; [done|by apply Hw'].
  - case_bool_decide; [|done]. simpl. split_and!; [done|lia|done].
  - destruct (isComplete q st); [|done]. unfold handleNext, isLastQuestion.
    case_bool_decide as Hlast.
    + destruct (handleSubmitQuiz_keeps tierType levelNumber qs saveAnswer progressAnswer st w)
        as (Hm' & Hi' & Ha' & Hw' & _).
      rewrite Hm', Hi', Ha', Hw'. done.
    + simpl. split_and!; [done|lia|done].
Qed.

(** X9. Whatever the user does on the page, while the quiz is on the screen
    the current index points at a question of the quiz: Previous never goes
    below the first question and Next never goes past the last one. *)
Theorem quiz_index_stays_inside_the_quiz tierType levelNumber data es initialMode w :
  0 < length (questions data) ->
  let s := runEvents tierType levelNumber data es (initialState initialMode, w) in
  mode s.1 = quiz -> is_Some (questions data !! currentIndex s.1).
Proof.
  intros Hne s Hm. apply lookup_lt_is_Some_2.
  assert (Hinv : ∀ es s0,
    (mode s0.1 = quiz -> currentIndex s0.1 < length (questions data)) ->
    let s1 := runEvents tierType levelNumber data es s0 in
    mode s1.1 = quiz -> currentIndex s1.1 < length (questions data)).
  { clear es s Hm. induction es as [|e es IH]; intros s0 H0; [done|].
    simpl. apply IH. clear IH. destruct s0 as [st w0]. simpl in H0.
    unfold step. destruct (usesCameraQuiz tierType); [done|].
    destruct (mode st) eqn:Hmode.
    - destruct e, (letters data !! currentIndex st); simpl; try (by rewrite Hmode).
      unfold handleContinue. case_bool_decide; simpl; [by rewrite Hmode|done].
    - destruct (showResults st).
      + destruct e; simpl; try done; intros _; by apply H0.
      + destruct (questions data !! currentIndex st) as [q|] eqn:Hq;
          [|simpl; intros _; by apply H0].
        intros _.
        by destruct (quizStep_keeps tierType levelNumber (questions data) q e st w0 Hq Hmode)
          as (_ & ? & _). }
  apply (Hinv es (initialState initialMode, w)); [done|exact Hm].
Qed.

Lemma quiz_index_stays_inside_the_quiz_witness :
  let s := Scenario.play (Scenario.untilMatched ++ [Previous; Previous; Previous; Previous])
             Scenario.signedIn in
  0 < length (questions Scenario.level1)
  ∧ mode s.1 = quiz
  ∧ is_Some (questions Scenario.level1 !! currentIndex s.1).
Proof.
  intros s.
  assert (Hn : 0 < length (questions Scenario.level1)) by (vm_compute; lia).
  assert (Hm : mode s.1 = quiz) by (vm_compute; reflexivity).
  split; [exact Hn|]. split; [exact Hm|].
  exact (quiz_index_stays_inside_the_quiz beginner 1 Scenario.level1
           (Scenario.untilMatched ++ [Previous; Previous; Previous; Previous])
           quiz Scenario.signedIn Hn Hm).
Defined.

(** X10. Until the results are shown, an event changes the recorded answer
    (typed, chosen, matched or spelled) of the current question only: the
    answers of all other questions survive any event, navigation
    included. *)
Theorem events_touch_the_current_question_only tierType levelNumber data e st w j :
  showResults st = false -> j ≠ currentIndex st ->
  let s' := step tierType levelNumber data e (st, w) in
  quizAnswers s'.1 !! j = quizAnswers st !! j
  ∧ wordSpellingAnswers s'.1 !! j = wordSpellingAnswers st !! j.
Proof.
  intros Hres Hj. cbv zeta. unfold step. rewrite Hres.
  destruct (usesCameraQuiz tierType); [done|].
  destruct (mode st) eqn:Hmode.
  - destruct e, (letters data !! currentIndex st); simpl; try done.
    unfold handleContinue. by case_bool_decide.
  - destruct (questions data !! currentIndex st) as [q|] eqn:Hq; [|done].
    destruct (quizStep_keeps tierType levelNumber (questions data) q e st w Hq Hmode)
      as (_ & _ & H).
    by apply H.
Qed.

Lemma events_touch_the_current_question_only_witness :
  let s := Scenario.play (take 6 Scenario.untilMatched ++ [DragIcon 1]) Scenario.signedIn in
  showResults s.1 = false
  ∧ 0 ≠ currentIndex s.1
  ∧ quizAnswers (step beginner 1 Scenario.level1 (DropOnPair 0) (s.1, s.2)).1 !! 0
    = quizAnswers s.1 !! 0.
Proof.
  intros s.
  assert (Hres : showResults s.1 = false) by (vm_compute; reflexivity).
  assert (Hj : 0 ≠ currentIndex s.1) by (vm_compute; lia).
  split; [exact Hres|]. split; [exact Hj|].
  exact (proj1 (events_touch_the_current_question_only beginner 1 Scenario.level1
                  (DropOnPair 0) s.1 s.2 0 Hres Hj)).
Defined.

(** ** The camera quiz session, question by question *)

Lemma quiz_currentLetter_lookup qs st :
  CameraQuizPage.currentQuestionIndex st < length qs ->
  qs !! CameraQuizPage.currentQuestionIndex st = Some (CameraQuizPage.currentLetter qs st).
Proof.
  intros Hi. unfold CameraQuizPage.currentLetter.
  by destruct (lookup_lt_is_Some_2 qs _ Hi) as [x ->].
Qed.

(** Recording the current question and moving on, or finishing on the last
    question, keeps the session invariant. *)
Lemma session_advance tierType levelNumber qs userId st w b :
  sessionInvariant tierType levelNumber qs userId (st, w) ->
  CameraQuizPage.showResults st = false ->
  let updated := CameraQuizPage.evaluationResults st
                 ++ [mkEvaluation (CameraQuizPage.currentLetter qs st) b] in
  let st1 := CameraQuizPage.setEvaluationResults updated st in
  sessionInvariant tierType levelNumber qs userId
    (if bool_decide (Z.of_nat (CameraQuizPage.currentQuestionIndex st)
                     < Z.of_nat (length qs) - 1)%Z
     then (CameraQuizPage.setError "" (CameraQuizPage.setResult None
             (CameraQuizPage.setCurrentQuestionIndex
                (CameraQuizPage.currentQuestionIndex st + 1) st1)), w)
     else CameraQuizPage.finish tierType levelNumber qs updated st1 w).
Proof.
  intros (Hu & Hinv) Hres. simpl in Hu, Hinv. rewrite Hres in Hinv.
  destruct Hinv as [Hletters Hi]. cbv zeta.
  assert (Hnext : ev_letter <$> (CameraQuizPage.evaluationResults st
                    ++ [mkEvaluation (CameraQuizPage.currentLetter qs st) b])
                  = take (S (CameraQuizPage.currentQuestionIndex st)) qs).
  { rewrite fmap_app, Hletters. simpl.
    by rewrite (take_S_r _ _ _ (quiz_currentLetter_lookup qs st Hi)). }
  case_bool_decide as Hlt.
  - split; [done|]. simpl. rewrite Hres. split; [|lia].
    rewrite Hnext. f_equal. lia.
  - unfold CameraQuizPage.finish. rewrite Hu.
    assert (Hall : ev_letter <$> (CameraQuizPage.evaluationResults st
                     ++ [mkEvaluation (CameraQuizPage.currentLetter qs st) b]) = qs).
    { rewrite Hnext. apply take_ge. lia. }
    destruct (truthy userId) eqn:Ht; (split; [done|]);
      cbn [fst snd CameraQuizPage.showResults CameraQuizPage.setShowResults
           CameraQuizPage.setEvaluationResults CameraQuizPage.evaluationResults];
      (split; [done|]).
    + intros _. unfold send, correctCount. cbn [sent]. by rewrite last_snoc.
    + intros Ht'. congruence.
Qed.

(** A whole check or a skip, made while the results are not shown, keeps
    the session invariant. *)
Lemma quiz_step_session tierType levelNumber qs userId e s :
  sessionInvariant tierType levelNumber qs userId s ->
  CameraQuizPage.showResults s.1 = false ->
  sessionInvariant tierType levelNumber qs userId
    (CameraQuizPage.step tierType levelNumber qs e s).
Proof.
  intros Hinv Hres. destruct s as [st w]. simpl in Hres.
  pose proof Hinv as (Hu & Hrest). simpl in Hu, Hrest. rewrite Hres in Hrest.
  assert (Hkeep : ∀ st' w', localStorage w' = localStorage w ->
            CameraQuizPage.showResults st' = false ->
            CameraQuizPage.evaluationResults st' = CameraQuizPage.evaluationResults st ->
            CameraQuizPage.currentQuestionIndex st' = CameraQuizPage.currentQuestionIndex st ->
            sessionInvariant tierType levelNumber qs userId (st', w')).
  { intros st' w' Hw Hr He Hi. split; simpl; [by rewrite Hw|]. by rewrite Hr, He, Hi. }
  destruct e as [landmarks answer|]; simpl.
  - unfold CameraQuizPage.handleCheck.
    destruct landmarks as [points|]; [|by apply Hkeep].
    case_bool_decide; [by apply Hkeep|].
    destruct answer as [|[] data]; [by apply Hkeep| |by apply Hkeep].
    destruct (CameraQuizPage.passes tierType data); [|by apply Hkeep].
    set (w1 := send _ w).
    assert (Hinv1 : sessionInvariant tierType levelNumber qs userId
              (CameraQuizPage.setResult (Some data)
                 (CameraQuizPage.setChecking true
                    (CameraQuizPage.setResult None (CameraQuizPage.setError "" st))), w1))
      by by apply Hkeep.
    pose proof (session_advance tierType levelNumber qs userId _ w1 true Hinv1 Hres) as Hadv.
    cbv zeta in Hadv. simpl in Hadv. simpl.
    destruct (bool_decide _); [exact Hadv|].
    destruct (CameraQuizPage.finish _ _ _ _ _ _) as [st2 w2].
    destruct Hadv as [Hu2 Hr2]. split; [exact Hu2|exact Hr2].
  - unfold CameraQuizPage.handleSkip.
    exact (session_advance tierType levelNumber qs userId st w false Hinv Hres).
Qed.

Lemma correctCount_full results :
  correctCount results = length results ↔ Forall (fun r => ev_correct r = true) results.
Proof.
  unfold correctCount. split.
  - intros Hlen. apply Forall_forall. intros r Hr.
    destruct (decide (ev_correct r = true)) as [|Hne]; [done|exfalso].
    pose proof (length_filter_lt (fun r => ev_correct r = true) _ _ Hr Hne). lia.
  - intros Hall. by rewrite filter_all.
Qed.

(** What a whole check and a skip do to the results: a check adds nothing or
    the current letter as correct, a skip adds the current letter as
    incorrect. *)
Lemma quiz_finish_keeps_results tierType levelNumber qs updated st w :
  CameraQuizPage.evaluationResults
    (CameraQuizPage.finish tierType levelNumber qs updated st w).1
  = CameraQuizPage.evaluationResults st.
Proof. unfold CameraQuizPage.finish. by destruct (truthy _). Qed.

Lemma quiz_step_results tierType levelNumber qs e st w :
  let results := CameraQuizPage.evaluationResults st in
  let results' :=
    CameraQuizPage.evaluationResults (CameraQuizPage.step tierType levelNumber qs e (st, w)).1 in
  match e with
  | CameraQuizPage.CheckSign _ _ =>
      results' = results
      \/ results' = results ++ [mkEvaluation (CameraQuizPage.currentLetter qs st) true]
  | CameraQuizPage.SkipSign =>
      results' = results ++ [mkEvaluation (CameraQuizPage.currentLetter qs st) false]
  end.
Proof.
  cbv zeta. destruct e as [landmarks answer|]; simpl.
  - unfold CameraQuizPage.handleCheck.
    destruct landmarks as [points|]; [|by left].
    case_bool_decide; [by left|].
    destruct answer as [|[] data]; [by left| |by left].
    destruct (CameraQuizPage.passes tierType data); [|by left].
    right. case_bool_decide; [done|].
    match goal with |- context [CameraQuizPage.finish ?a ?b ?c ?d ?e ?f] =>
      pose proof (quiz_finish_keeps_results a b c d e f) as Hf;
      destruct (CameraQuizPage.finish a b c d e f) as [st2 w2] end.
    exact Hf.
  - unfold CameraQuizPage.handleSkip. case_bool_decide; [done|].
    apply quiz_finish_keeps_results.
Qed.

Lemma quiz_step_checking tierType levelNumber qs e st w :
  CameraQuizPage.checking st = false ->
  CameraQuizPage.checking (CameraQuizPage.step tierType levelNumber qs e (st, w)).1 = false.
Proof.
  intros Hc. destruct e as [landmarks answer|]; simpl.
  - unfold CameraQuizPage.handleCheck.
    destruct landmarks as [points|]; [|done].
    case_bool_decide; [done|].
    destruct answer as [|[] data]; [done| |done].
    destruct (CameraQuizPage.passes tierType data); [|done].
    case_bool_decide; [done|].
    unfold CameraQuizPage.finish. by destruct (truthy _).
  - unfold CameraQuizPage.handleSkip. case_bool_decide; [done|].
    unfold CameraQuizPage.finish. by destruct (truthy _).
Qed.

(** A press that runs its course on a page where nothing is pending is the
    whole check, or the skip, of [CameraQuizPage], and leaves nothing
    pending; once the results are shown it does nothing. *)
Lemma press_is_a_whole_step tierType levelNumber qs e p w :
  CameraQuizAsync.quiet p ->
  CameraQuizAsync.run tierType levelNumber qs (CameraQuizAsync.press e) (p, w)
  = if CameraQuizPage.showResults (CameraQuizAsync.state p) then (p, w)
    else (CameraQuizAsync.mkPage
            (CameraQuizPage.step tierType levelNumber qs e (CameraQuizAsync.state p, w)).1
            None [],
          (CameraQuizPage.step tierType levelNumber qs e (CameraQuizAsync.state p, w)).2).
Proof.
  destruct p as [st aw ts]. intros (Haw & Hts & Hc). simpl in Haw, Hts, Hc. subst aw ts.
  destruct st as [chk res err idx results shown]. simpl in Hc. subst chk.
  cbn [CameraQuizAsync.state CameraQuizPage.showResults].
  destruct e as [landmarks answer|];
    cbn [CameraQuizAsync.press CameraQuizAsync.run foldl CameraQuizAsync.step fst snd
         CameraQuizPage.step];
    unfold CameraQuizAsync.clickCheck, CameraQuizAsync.clickSkip,
      CameraQuizPage.handleCheck, CameraQuizPage.handleSkip;
    cbn [CameraQuizAsync.state CameraQuizAsync.awaiting CameraQuizAsync.timers
         CameraQuizPage.showResults CameraQuizPage.checking];
    destruct shown; cbn [orb]; try reflexivity.
  destruct landmarks as [points|]; [|reflexivity].
  destruct (bool_decide (length points < 21)); [reflexivity|].
  unfold CameraQuizAsync.answered, CameraQuizAsync.timeout, CameraQuizPage.finish.
  cbn [fst snd CameraQuizAsync.state CameraQuizAsync.awaiting CameraQuizAsync.timers
       CameraQuizAsync.cl_letter CameraQuizAsync.cl_index CameraQuizAsync.cl_results
       CameraQuizPage.currentQuestionIndex CameraQuizPage.evaluationResults
       CameraQuizPage.setResult CameraQuizPage.setChecking CameraQuizPage.setError
       CameraQuizPage.setEvaluationResults CameraQuizPage.setCurrentQuestionIndex
       CameraQuizPage.setShowResults CameraQuizPage.checking CameraQuizPage.result
       CameraQuizPage.error CameraQuizPage.showResults CameraQuizPage.currentLetter
       app lookup list_lookup localStorage sent send].
  destruct answer as [|[] data]; [reflexivity| |reflexivity].
  destruct (CameraQuizPage.passes tierType data); [|reflexivity].
  destruct (bool_decide (Z.of_nat idx < Z.of_nat (length qs) - 1)%Z); [reflexivity|].
  cbn [fst snd app lookup list_lookup CameraQuizAsync.timers CameraQuizAsync.state
       CameraQuizAsync.awaiting localStorage send].
  destruct (truthy (localStorage w !! "user_id")); reflexivity.
Qed.

Lemma quiet_after_step tierType levelNumber qs e st w :
  CameraQuizPage.checking st = false ->
  CameraQuizAsync.quiet
    (CameraQuizAsync.mkPage (CameraQuizPage.step tierType levelNumber qs e (st, w)).1 None []).
Proof. intros Hc. split_and!; [done|done|]. by apply quiz_step_checking. Qed.

(** A session of presses that each run their course, from a page where
    nothing is pending: each press is a whole step of [CameraQuizPage] while
    the results are not shown, and nothing afterwards. *)
Lemma oneAtATime_run tierType levelNumber qs es p w :
  CameraQuizAsync.quiet p ->
  let s := CameraQuizAsync.run tierType levelNumber qs (CameraQuizAsync.oneAtATime es) (p, w) in
  CameraQuizAsync.quiet s.1
  ∧ (CameraQuizAsync.state s.1, s.2)
    = foldl (fun s e => if CameraQuizPage.showResults s.1 then s
                        else CameraQuizPage.step tierType levelNumber qs e s)
            (CameraQuizAsync.state p, w) es.
Proof.
  revert p w. induction es as [|e es IH]; intros p w Hq; [done|].
  cbv zeta. unfold CameraQuizAsync.oneAtATime. rewrite bind_cons.
  unfold CameraQuizAsync.run. rewrite foldl_app.
  fold (CameraQuizAsync.run tierType levelNumber qs (CameraQuizAsync.press e) (p, w)).
  rewrite (press_is_a_whole_step tierType levelNumber qs e p w Hq).
  cbn [foldl fst snd].
  destruct (CameraQuizPage.showResults (CameraQuizAsync.state p)) eqn:Hres.
  - apply (IH p w Hq).
  - destruct Hq as (_ & _ & Hc).
    pose proof (quiet_after_step tierType levelNumber qs e _ w Hc) as Hq'.
    destruct (CameraQuizPage.step tierType levelNumber qs e (CameraQuizAsync.state p, w))
      as [st' w'] eqn:Hstep.
    apply (IH _ w' Hq').
Qed.

Section whole_steps.
Variables (tierType : string) (levelNumber : Z) (qs : list string).

Lemma whole_session userId es s :
  sessionInvariant tierType levelNumber qs userId s ->
  sessionInvariant tierType levelNumber qs userId (foldl (fun s e => if CameraQuizPage.showResults s.1 then s
       else CameraQuizPage.step tierType levelNumber qs e s) s es).
Proof.
  revert s. induction es as [|e es IH]; intros s Hs; [done|].
  cbn [foldl]. apply IH.
  destruct (CameraQuizPage.showResults s.1) eqn:Hres; [done|].
  by apply quiz_step_session.
Qed.

Lemma whole_grows es s :
  ∃ more, CameraQuizPage.evaluationResults (foldl (fun s e => if CameraQuizPage.showResults s.1 then s
       else CameraQuizPage.step tierType levelNumber qs e s) s es).1
          = CameraQuizPage.evaluationResults s.1 ++ more.
Proof.
  revert s. induction es as [|e es IH]; intros s.
  { exists []. by rewrite app_nil_r. }
  cbn [foldl]. destruct (CameraQuizPage.showResults s.1) eqn:Hres; [apply IH|].
  destruct (IH (CameraQuizPage.step tierType levelNumber qs e s)) as [more Hmore].
  destruct s as [st w].
  pose proof (quiz_step_results tierType levelNumber qs e st w) as Hstep.
  cbv zeta in Hstep. rewrite Hmore. cbn [fst].
  destruct e; [destruct Hstep as [-> | ->]| rewrite Hstep]; rewrite <- ?app_assoc; eauto.
Qed.

Lemma whole_without_skip es s :
  CameraQuizPage.SkipSign ∉ es ->
  Forall (fun r => ev_correct r = true) (CameraQuizPage.evaluationResults s.1) ->
  Forall (fun r => ev_correct r = true) (CameraQuizPage.evaluationResults (foldl (fun s e => if CameraQuizPage.showResults s.1 then s
       else CameraQuizPage.step tierType levelNumber qs e s) s es).1).
Proof.
  revert s. induction es as [|e es IH]; intros s Hskip Hs; [done|].
  apply not_elem_of_cons in Hskip as [He Hes].
  cbn [foldl]. apply IH; [done|].
  destruct (CameraQuizPage.showResults s.1) eqn:Hres; [done|].
  destruct s as [st w].
  pose proof (quiz_step_results tierType levelNumber qs e st w) as Hstep.
  cbv zeta in Hstep. destruct e; [|done].
  destruct Hstep as [-> | ->]; [done|].
  apply Forall_app. split; [done|]. by apply Forall_singleton.
Qed.

Lemma whole_with_skip es1 es2 s :
  CameraQuizPage.showResults (foldl (fun s e => if CameraQuizPage.showResults s.1 then s
       else CameraQuizPage.step tierType levelNumber qs e s) s es1).1 = false ->
  ¬ Forall (fun r => ev_correct r = true)
      (CameraQuizPage.evaluationResults (foldl (fun s e => if CameraQuizPage.showResults s.1 then s
       else CameraQuizPage.step tierType levelNumber qs e s) s (es1 ++ CameraQuizPage.SkipSign :: es2)).1).
Proof.
  intros Hres. rewrite foldl_app. cbn [foldl]. rewrite Hres.
  set (s1 := (foldl (fun s e => if CameraQuizPage.showResults s.1 then s
       else CameraQuizPage.step tierType levelNumber qs e s) s es1)).
  destruct (whole_grows es2 (CameraQuizPage.step tierType levelNumber qs
                               CameraQuizPage.SkipSign s1)) as [more ->].
  destruct s1 as [st1 w1].
  pose proof (quiz_step_results tierType levelNumber qs CameraQuizPage.SkipSign st1 w1)
    as Hstep.
  cbv zeta in Hstep. rewrite Hstep.
  rewrite !Forall_app, Forall_singleton. intros [[_ Hfalse] _]. done.
Qed.
End whole_steps.

(** X11. A camera quiz over a non-empty question list, started from the
    initial page, in which the user lets every press run its course (the
    answer of the classifier and the delayed update come before the next
    press), the presses after the results are shown reaching no button.
    Nothing is left pending.  Until the results are shown, the results
    recorded are exactly those of the questions before the current one, in
    question order, and the current index points at a question.  Once the
    results are shown there is exactly one result per question and the last
    request sent (when a user id is stored) saved the percentage of the
    results recorded as correct; with at most 39 questions that percentage
    is 100 exactly when every result is correct, it is 100 when Skip was
    never pressed, and it is not 100 when Skip was pressed while the
    questions were shown. *)
Theorem camera_session_records_each_question_once tierType levelNumber qs es storage :
  0 < length qs ->
  let start := (CameraQuizAsync.initialPage, mkWorld storage []) in
  let s := CameraQuizAsync.run tierType levelNumber qs (CameraQuizAsync.oneAtATime es) start in
  let st := CameraQuizAsync.state s.1 in
  let results := CameraQuizPage.evaluationResults st in
  let percentage := percentOf (correctCount results) (length qs) in
  CameraQuizAsync.quiet s.1
  ∧ (CameraQuizPage.showResults st = false ->
     ev_letter <$> results = take (CameraQuizPage.currentQuestionIndex st) qs
     ∧ CameraQuizPage.currentQuestionIndex st < length qs)
  ∧ (CameraQuizPage.showResults st = true ->
     ev_letter <$> results = qs
     ∧ (∀ u, storage !! "user_id" = Some u -> u ≠ "" ->
          last (sent s.2) = Some (SaveScore u tierType levelNumber percentage))
     ∧ (length qs <= 39 ->
          (percentage = Some 100%Z ↔ Forall (fun r => ev_correct r = true) results)
          ∧ (CameraQuizPage.SkipSign ∉ es -> percentage = Some 100%Z)
          ∧ (∀ es1 es2, es = es1 ++ CameraQuizPage.SkipSign :: es2 ->
               CameraQuizPage.showResults
                 (CameraQuizAsync.state
                    (CameraQuizAsync.run tierType levelNumber qs
                       (CameraQuizAsync.oneAtATime es1) start).1) = false ->
               percentage ≠ Some 100%Z))).
Proof.
  intros Hne start s st results percentage.
  assert (Hq0 : CameraQuizAsync.quiet CameraQuizAsync.initialPage) by done.
  destruct (oneAtATime_run tierType levelNumber qs es _ (mkWorld storage []) Hq0)
    as [Hquiet Hrun].
  fold start in Hrun. fold s in Hrun, Hquiet. fold st in Hrun.
  cbn [CameraQuizAsync.state CameraQuizAsync.initialPage] in Hrun.
  set (s0 := (CameraQuizPage.initialState, mkWorld storage [])) in *.
  assert (Hinv : sessionInvariant tierType levelNumber qs (storage !! "user_id") (st, s.2)).
  { rewrite Hrun. apply whole_session. split; [done|]. simpl. split; [done|lia]. }
  destruct Hinv as [Hu Hrest]. cbn [fst snd] in Hu, Hrest. fold results in Hrest.
  assert (Hst : st = (foldl (fun s e => if CameraQuizPage.showResults s.1 then s
                        else CameraQuizPage.step tierType levelNumber qs e s) s0 es).1)
    by by rewrite <- Hrun.
  split; [exact Hquiet|]. split.
  - intros Hres. by rewrite Hres in Hrest.
  - intros Hres. rewrite Hres in Hrest. destruct Hrest as [Hall Hsaved].
    split_and!; [done| |].
    + intros u Hsu Hnu. rewrite Hsu in Hsaved. apply Hsaved.
      unfold truthy. by rewrite bool_decide_eq_false_2.
    + intros H39.
      assert (Hlen : length results = length qs).
      { apply (f_equal length) in Hall. by rewrite length_fmap in Hall. }
      assert (H100 : percentage = Some 100%Z
                     ↔ Forall (fun r => ev_correct r = true) results).
      { unfold percentage. rewrite percentOf_100; [|lia|].
        - rewrite <- Hlen. apply correctCount_full.
        - rewrite <- Hlen. apply length_filter. }
      split_and!; [exact H100| |].
      * intros Hskip. apply H100. unfold results. rewrite Hst.
        by apply whole_without_skip.
      * intros es1 es2 -> Hres1. rewrite H100. unfold results. rewrite Hst.
        apply whole_with_skip.
        destruct (oneAtATime_run tierType levelNumber qs es1 _ (mkWorld storage []) Hq0)
          as [_ Hrun1].
        fold start in Hrun1. cbn [CameraQuizAsync.state CameraQuizAsync.initialPage] in Hrun1.
        fold s0 in Hrun1. by rewrite <- Hrun1.
Qed.

Lemma camera_session_records_each_question_once_witness :
  let qs := ["A"; "B"] in
  let es := [Scenario.rightSign "A"; CameraQuizPage.SkipSign; CameraQuizPage.SkipSign] in
  let s := CameraQuizAsync.run "pro" 1 qs (CameraQuizAsync.oneAtATime es)
             (CameraQuizAsync.initialPage, Scenario.signedIn) in
  0 < length qs
  ∧ CameraQuizPage.showResults (CameraQuizAsync.state s.1) = true
  ∧ ev_letter <$> CameraQuizPage.evaluationResults (CameraQuizAsync.state s.1) = qs.
Proof.
  intros qs es s.
  assert (Hne : 0 < length qs) by (simpl; lia).
  assert (Hres : CameraQuizPage.showResults (CameraQuizAsync.state s.1) = true)
    by (vm_compute; reflexivity).
  split; [exact Hne|]. split; [exact Hres|].
  exact (proj1 (proj2 (proj2 (camera_session_records_each_question_once "pro" 1 qs es
                                {[ "user_id" := "7" ]} Hne)) Hres)).
Defined.

(** X22. What the delay allows, for the tiers pro and expert.  When Skip is
    pressed after a check has passed and before its timer fires, the
    current question is recorded twice, first as correct and then as
    incorrect, and nothing is left pending once the timer has fired.  If it
    was not the last question the page ends one question further, the
    results not shown and nothing sent but the classifier call.  If it was
    the last question the results are shown and, for a signed-in user, the
    score is saved twice (by the skip and by the timer), both times with
    the percentage that counts the question as correct: a quiz of one
    question saves 100 although Skip was pressed. *)
Theorem skip_within_the_delay_records_the_question_twice
    tierType levelNumber qs p w points data :
  tierType = "pro" \/ tierType = "expert" ->
  CameraQuizAsync.quiet p ->
  CameraQuizPage.showResults (CameraQuizAsync.state p) = false ->
  21 <= length points ->
  CameraQuizPage.passes tierType data = true ->
  let st := CameraQuizAsync.state p in
  let letter := CameraQuizPage.currentLetter qs st in
  let index := CameraQuizPage.currentQuestionIndex st in
  let results := CameraQuizPage.evaluationResults st in
  let s := CameraQuizAsync.run tierType levelNumber qs
             [CameraQuizAsync.ClickCheck (Some points);
              CameraQuizAsync.Answer (Answered true data);
              CameraQuizAsync.ClickSkip;
              CameraQuizAsync.Timeout 0] (p, w) in
  let st' := CameraQuizAsync.state s.1 in
  let percentage := percentOf (correctCount results + 1) (length qs) in
  CameraQuizPage.evaluationResults st'
  = results ++ [mkEvaluation letter true; mkEvaluation letter false]
  ∧ CameraQuizAsync.quiet s.1
  ∧ (if bool_decide (Z.of_nat index < Z.of_nat (length qs) - 1)%Z
     then CameraQuizPage.currentQuestionIndex st' = index + 1
          ∧ CameraQuizPage.showResults st' = false
          ∧ newRequests w s.2 = [AslCheck letter (length points)]
     else CameraQuizPage.showResults st' = true
          ∧ ∀ u, localStorage w !! "user_id" = Some u -> u ≠ "" ->
              newRequests w s.2
              = [AslCheck letter (length points);
                 SaveScore u tierType levelNumber percentage;
                 SaveScore u tierType levelNumber percentage]).
Proof.
  intros _ Hq Hres Hpoints Hpass.
  destruct p as [st aw ts]. destruct Hq as (Haw & Hts & Hc).
  simpl in Haw, Hts, Hc, Hres. subst aw ts.
  destruct st as [chk res err idx results shown]. simpl in Hc, Hres. subst chk shown.
  cbv zeta.
  assert (Hp : bool_decide (length points < 21) = false)
    by (apply bool_decide_eq_false_2; lia).
  unfold CameraQuizAsync.run, CameraQuizAsync.step, CameraQuizAsync.clickCheck,
    CameraQuizAsync.answered, CameraQuizAsync.clickSkip, CameraQuizPage.handleSkip,
    CameraQuizAsync.timeout, CameraQuizPage.finish, CameraQuizAsync.quiet, newRequests,
    correctCount.
  repeat (first [rewrite Hp | rewrite Hpass
                | progress cbn -[Z.sub Z.lt Z.of_nat percentOf truthy bool_decide filter
                                 length drop]]).
  destruct (bool_decide (Z.of_nat idx < Z.of_nat (length qs) - 1)%Z) eqn:Hlast;
    repeat (first [rewrite Hlast
                  | progress cbn -[Z.sub Z.lt Z.of_nat percentOf truthy bool_decide filter
                                   length drop]]).
  - rewrite <- app_assoc, drop_app_length. split_and!; done.
  - unfold CameraQuizPage.currentLetter.
    cbn [CameraQuizPage.currentQuestionIndex CameraQuizPage.setChecking
         CameraQuizPage.setEvaluationResults CameraQuizPage.setResult
         CameraQuizPage.setError].
    set (letter := default "" (qs !! idx)).
    assert (Hcount : ∀ l, length (filter (fun r => ev_correct r = true)
                                    ((results ++ [mkEvaluation letter true]) ++ l))
                          = length (filter (fun r => ev_correct r = true) results)
                            + S (length (filter (fun r => ev_correct r = true) l))).
    { intros l. rewrite !filter_app, !length_app, filter_cons_True by done.
      simpl. lia. }
    rewrite (Hcount [mkEvaluation letter false]).
    pose proof (Hcount []) as Hcount0. rewrite app_nil_r in Hcount0. rewrite Hcount0.
    rewrite filter_cons_False by done.
    change (length (filter (fun r : Evaluation => ev_correct r = true) [])) with 0.
    destruct (truthy (localStorage w !! "user_id")) eqn:Hu;
      repeat (first [rewrite Hu
                    | progress cbn -[Z.sub Z.lt Z.of_nat percentOf truthy bool_decide filter
                                     length drop]]).
    + split_and!; try done.
      * by rewrite <- app_assoc.
      * intros u Hsu Hne. rewrite Hsu. cbn [default].
        rewrite <- !app_assoc. by rewrite drop_app_length.
    + split_and!; try done.
      * by rewrite <- app_assoc.
      * intros u Hsu Hne. exfalso.
        rewrite Hsu in Hu. unfold truthy in Hu.
        by rewrite bool_decide_eq_false_2 in Hu.
Qed.

Lemma skip_within_the_delay_records_the_question_twice_witness :
  let data := mkCheckResult true true "A" "A" 1%float None in
  let s := CameraQuizAsync.run "pro" 1 ["A"]
             [CameraQuizAsync.ClickCheck (Some twentyOnePoints);
              CameraQuizAsync.Answer (Answered true data);
              CameraQuizAsync.ClickSkip;
              CameraQuizAsync.Timeout 0] (CameraQuizAsync.initialPage, Scenario.signedIn) in
  ("pro" = "pro" \/ "pro" = "expert")
  ∧ CameraQuizAsync.quiet CameraQuizAsync.initialPage
  ∧ CameraQuizPage.showResults (CameraQuizAsync.state CameraQuizAsync.initialPage) = false
  ∧ 21 <= length twentyOnePoints
  ∧ CameraQuizPage.passes "pro" data = true
  ∧ CameraQuizPage.evaluationResults (CameraQuizAsync.state s.1)
    = [mkEvaluation "A" true; mkEvaluation "A" false]
  ∧ newRequests Scenario.signedIn s.2
    = [AslCheck "A" 21; SaveScore "7" "pro" 1 (Some 100%Z); SaveScore "7" "pro" 1 (Some 100%Z)].
Proof.
  intros data s.
  assert (Ht : "pro" = "pro" \/ "pro" = "expert") by (left; reflexivity).
  assert (Hq : CameraQuizAsync.quiet CameraQuizAsync.initialPage)
    by (split; [reflexivity|split; reflexivity]).
  assert (Hres : CameraQuizPage.showResults
                   (CameraQuizAsync.state CameraQuizAsync.initialPage) = false)
    by reflexivity.
  assert (Hpoints : 21 <= length twentyOnePoints) by (vm_compute; lia).
  assert (Hpass : CameraQuizPage.passes "pro" data = true) by (vm_compute; reflexivity).
  destruct (skip_within_the_delay_records_the_question_twice "pro" 1 ["A"]
              CameraQuizAsync.initialPage Scenario.signedIn twentyOnePoints data
              Ht Hq Hres Hpoints Hpass) as (Hresults & _ & Hlast).
  assert (Hu : localStorage Scenario.signedIn !! "user_id" = Some "7")
    by (vm_compute; reflexivity).
  assert (Hne : "7" ≠ "") by discriminate.
  split_and!; [exact Ht|exact Hq|exact Hres|exact Hpoints|exact Hpass|exact Hresults|].
  exact (proj2 Hlast "7" Hu Hne).
Defined.

(** ** Checks that record nothing *)

(** X12. One whole check of the camera quiz page, for the tiers pro and
    expert: the click with the answer of the classifier and the delayed
    update that follow it.  Without a hand of 21 landmarks it sends nothing
    at all and only reports that no hand was detected; otherwise it ends
    with [checking] false and its first request is the classifier call for
    the current target.  Only a check with a hand, answered with success by
    a result that passes, records a result (the current letter, correct);
    every other check leaves the results, the question index and the
    results screen as they were, and sends nothing but the classifier
    call. *)
Theorem only_a_passing_check_records_a_result
    tierType levelNumber qs landmarks answer st w :
  tierType = "pro" \/ tierType = "expert" ->
  let out := CameraQuizPage.handleCheck tierType levelNumber qs landmarks answer st w in
  (if handDetected landmarks
   then CameraQuizPage.checking out.1 = false
        ∧ ∃ rest, newRequests w out.2
                  = AslCheck (CameraQuizPage.currentLetter qs st) (landmarkCount landmarks)
                    :: rest
   else out.2 = w
        ∧ CameraQuizPage.checking out.1 = CameraQuizPage.checking st
        ∧ CameraQuizPage.error out.1
          = "No hand detected yet. Try showing your hand to the camera.")
  ∧ (if handDetected landmarks && accepted CameraQuizPage.passes tierType answer
     then CameraQuizPage.evaluationResults out.1
          = CameraQuizPage.evaluationResults st
            ++ [mkEvaluation (CameraQuizPage.currentLetter qs st) true]
     else CameraQuizPage.evaluationResults out.1 = CameraQuizPage.evaluationResults st
          ∧ CameraQuizPage.currentQuestionIndex out.1 = CameraQuizPage.currentQuestionIndex st
          ∧ CameraQuizPage.showResults out.1 = CameraQuizPage.showResults st
          ∧ (handDetected landmarks = true ->
             newRequests w out.2
             = [AslCheck (CameraQuizPage.currentLetter qs st) (landmarkCount landmarks)])).
Proof.
  intros _. cbv zeta. unfold CameraQuizPage.handleCheck, newRequests, handDetected, accepted.
  destruct landmarks as [points|]; [|by split_and!].
  destruct (decide (length points < 21)) as [Hlt|Hge].
  - rewrite (bool_decide_eq_true_2 (length points < 21)) by done.
    rewrite (bool_decide_eq_false_2 (21 <= length points)) by lia. by split_and!.
  - rewrite (bool_decide_eq_false_2 (length points < 21)) by done.
    rewrite (bool_decide_eq_true_2 (21 <= length points)) by lia.
    cbn [andb landmarkCount].
    destruct answer as [|[] data].
    + simpl. rewrite drop_app_length. split_and!; eauto.
    + destruct (CameraQuizPage.passes tierType data).
      * case_bool_decide.
        { simpl. rewrite drop_app_length. split_and!; eauto. }
        unfold CameraQuizPage.finish. destruct (truthy _); simpl.
        -- rewrite <- app_assoc, drop_app_length. split_and!; eauto.
        -- rewrite drop_app_length. split_and!; eauto.
      * simpl. rewrite drop_app_length. split_and!; eauto.
    + simpl. rewrite drop_app_length. split_and!; eauto.
Qed.

Lemma only_a_passing_check_records_a_result_witness :
  let landmarks := Some twentyOnePoints in
  let answer := Answered true (mkCheckResult true false "A" "B" 1%float None) in
  let out := CameraQuizPage.handleCheck "pro" 1 ["A"; "B"] landmarks answer
               CameraQuizPage.initialState Scenario.signedIn in
  ("pro" = "pro" \/ "pro" = "expert")
  ∧ handDetected landmarks = true
  ∧ newRequests Scenario.signedIn out.2 = [AslCheck "A" 21].
Proof.
  intros landmarks answer out.
  assert (Ht : "pro" = "pro" \/ "pro" = "expert") by (left; reflexivity).
  assert (Hhand : handDetected landmarks = true) by (vm_compute; reflexivity).
  split; [exact Ht|]. split; [exact Hhand|].
  exact (proj2 (proj2 (proj2 (proj2
           (only_a_passing_check_records_a_result "pro" 1 ["A"; "B"] landmarks answer
              CameraQuizPage.initialState Scenario.signedIn Ht)))) Hhand).
Defined.

(** ** The evaluation component and its parent *)

Lemma correctCount_snoc results l b :
  length (filter (fun r => ev_correct r = true) (results ++ [mkEvaluation l b]))
  = correctCount results + (if b then 1 else 0).
Proof.
  unfold correctCount. rewrite filter_app, length_app.
  destruct b; [by rewrite filter_cons_True|by rewrite filter_cons_False].
Qed.

(** X13. The evaluation component calls [onComplete] only at the last
    letter: by a check exactly when a hand was seen, the backend accepted
    the sign and the current letter is the last one, with the percentage of
    the results counting this one as correct; by a skip exactly when the
    current letter is the last one, with the percentage of the results
    recorded before.  So when fewer results than letters were recorded (and
    there are at most 39 letters), finishing by a skip never reports 100. *)
Theorem evaluator_reports_the_score_at_the_last_letter
    tierType letters landmarks answer st score :
  let checked := AICameraEvaluation.handleCheck tierType letters landmarks answer st in
  let skipped := AICameraEvaluation.handleNext letters st in
  let results := AICameraEvaluation.evaluationResults st in
  (AICameraEvaluation.Completed score ∈ checked.2
   ↔ handDetected landmarks = true
     ∧ accepted AICameraEvaluation.passes tierType answer = true
     ∧ length letters <= AICameraEvaluation.currentLetterIndex st + 1
     ∧ score = percentOf (correctCount results + 1) (length letters))
  ∧ (AICameraEvaluation.Completed score ∈ skipped.2
     ↔ length letters <= AICameraEvaluation.currentLetterIndex st + 1
       ∧ score = percentOf (correctCount results) (length letters))
  ∧ (length results < length letters <= 39 ->
     AICameraEvaluation.Completed (Some 100%Z) ∉ skipped.2).
Proof.
  cbv zeta.
  assert (Hskip : ∀ sc, AICameraEvaluation.Completed sc
                        ∈ (AICameraEvaluation.handleNext letters st).2
            ↔ length letters <= AICameraEvaluation.currentLetterIndex st + 1
              ∧ sc = percentOf (correctCount (AICameraEvaluation.evaluationResults st))
                       (length letters)).
  { intros sc. unfold AICameraEvaluation.handleNext.
    case_bool_decide as Hlt; simpl in Hlt; simpl.
    - rewrite elem_of_nil. split; [done|]. intros [? _]. lia.
    - rewrite list_elem_of_singleton.
      rewrite correctCount_snoc, Nat.add_0_r. split.
      + intros [= ->]. split; [lia|done].
      + by intros [_ ->]. }
  split_and!.
  - unfold AICameraEvaluation.handleCheck, handDetected, accepted.
    destruct landmarks as [points|]; [|simpl; rewrite elem_of_nil; split; [done|by intros [? _]]].
    destruct (decide (length points < 21)) as [Hlt|Hge].
    { rewrite (bool_decide_eq_true_2 (length points < 21)) by done.
      rewrite (bool_decide_eq_false_2 (21 <= length points)) by lia.
      simpl. rewrite elem_of_nil. split; [done|by intros [? _]]. }
    rewrite (bool_decide_eq_false_2 (length points < 21)) by done.
    rewrite (bool_decide_eq_true_2 (21 <= length points)) by lia.
    destruct answer as [|[] data]; simpl.
    + rewrite list_elem_of_singleton. split; [done|by intros (_ & ? & _)].
    + destruct (AICameraEvaluation.passes tierType data); simpl.
      * case_bool_decide as Hlast; simpl in Hlast; simpl.
        -- rewrite list_elem_of_singleton. split; [done|]. intros (_ & _ & ? & _). lia.
        -- rewrite elem_of_cons, list_elem_of_singleton.
           rewrite correctCount_snoc. split.
           ++ intros [[=]|[= ->]]. split_and!; [done|done|lia|done].
           ++ intros (_ & _ & _ & ->). by right.
      * rewrite list_elem_of_singleton. split; [done|by intros (_ & ? & _)].
    + rewrite list_elem_of_singleton. split; [done|by intros (_ & ? & _)].
  - apply Hskip.
  - intros [Hlen H39] Hin. apply Hskip in Hin as [_ H100]. symmetry in H100.
    apply percentOf_100 in H100; [|lia|].
    + pose proof (length_filter (fun r => ev_correct r = true)
                    (AICameraEvaluation.evaluationResults st)) as Hle.
      unfold correctCount in H100. lia.
    + pose proof (length_filter (fun r => ev_correct r = true)
                    (AICameraEvaluation.evaluationResults st)) as Hle.
      unfold correctCount. lia.
Qed.

Lemma evaluator_reports_the_score_at_the_last_letter_witness :
  let st := AICameraEvaluation.mkState false None "" 1 [mkEvaluation "A" true] in
  length (AICameraEvaluation.evaluationResults st) < length ["A"; "B"] <= 39
  ∧ AICameraEvaluation.Completed (Some 100%Z)
    ∉ (AICameraEvaluation.handleNext ["A"; "B"] st).2.
Proof.
  intros st.
  assert (Hlen : length (AICameraEvaluation.evaluationResults st) < length ["A"; "B"] <= 39)
    by (simpl; lia).
  split; [exact Hlen|].
  exact (proj2 (proj2 (evaluator_reports_the_score_at_the_last_letter
                         AICameraEvaluation.pro ["A"; "B"] None Failed st None)) Hlen).
Defined.

(** ** More on [shuffle] *)

Section shuffle_reach.
Context {A : Type}.
Implicit Types l a target : list A.

Lemma swap_drop i j a k : i < k -> j < k -> drop k (swap i j a) = drop k a.
Proof.
  intros Hi Hj. unfold swap.
  destruct (a !! j); [|done]. destruct (a !! i); [|done].
  by rewrite !drop_insert_lt.
Qed.

Lemma swap_lookup i j a x :
  i < length a -> a !! j = Some x -> swap i j a !! i = Some x.
Proof.
  intros Hi Hj. unfold swap. rewrite Hj.
  destruct (lookup_lt_is_Some_2 a i Hi) as [ai Hai]. rewrite Hai.
  destruct (decide (i = j)) as [->|Hne].
  - rewrite list_lookup_insert_eq; [congruence|]. by rewrite length_insert.
  - rewrite list_lookup_insert_ne by done.
    by rewrite list_lookup_insert_eq.
Qed.

Lemma Permutation_take_of_drop a target k :
  a ≡ₚ target -> drop k a = drop k target -> take k a ≡ₚ take k target.
Proof.
  intros Hp Hd.
  rewrite <- (take_drop k a), <- (take_drop k target), Hd in Hp.
  by apply Permutation_app_inv_r in Hp.
Qed.

(** The loop from [i] down reaches every arrangement of the positions up to
    [i]: for a target that is a permutation of the array and agrees with it
    after position [i], some [i] draws lead to it. *)
Lemma shuffle_loop_reaches i a target :
  i < length a \/ a = [] ->
  a ≡ₚ target -> drop (S i) a = drop (S i) target ->
  ∃ rs, length rs = i ∧ shuffle_loop i a rs = (target, []).
Proof.
  revert a. induction i as [|i IH]; intros a Hi Hp Hd.
  - exists []. split; [done|]. simpl. unfold JS.ret. f_equal.
    pose proof (Permutation_take_of_drop a target 1 Hp Hd) as Ht.
    rewrite <- (take_drop 1 a), <- (take_drop 1 target), Hd. f_equal.
    pose proof (Permutation_length Hp) as Hl.
    destruct a as [|x a], target as [|y target]; simpl in *; try done.
    rewrite !take_0 in *. by apply Permutation_singleton_inj in Ht as ->.
  - destruct Hi as [Hi| ->]; last first.
    { apply Permutation_nil_l in Hp as <-. exists (replicate (S i) 0).
      split; [by rewrite length_replicate|].
      clear. generalize (S i). intros n. induction n as [|n IHn]; [done|].
      cbn [shuffle_loop replicate]. unfold JS.bind. cbn [random_int].
      exact IHn. }
    pose proof (Permutation_length Hp) as Hl.
    destruct (lookup_lt_is_Some_2 target (S i) ltac:(lia)) as [x Hx].
    pose proof (Permutation_take_of_drop a target (S (S i)) Hp Hd) as Ht.
    assert (Hin : x ∈ take (S (S i)) a).
    { rewrite Ht. apply list_elem_of_lookup. exists (S i).
      rewrite lookup_take_lt by lia. done. }
    apply list_elem_of_lookup in Hin as [j Hj].
    assert (Hjlt : j < S (S i)).
    { apply lookup_lt_Some in Hj. rewrite length_take in Hj. lia. }
    rewrite lookup_take_lt in Hj by done.
    destruct (IH (swap (S i) j a)) as (rs & Hrs & Hrun).
    + left. rewrite (Permutation_length (swap_Permutation (S i) j a)). lia.
    + by rewrite swap_Permutation.
    + rewrite (drop_S _ x (S i)) by by apply swap_lookup.
      rewrite (drop_S target x (S i)) by done.
      rewrite swap_drop by lia. by rewrite Hd.
    + exists (j :: rs). split; [simpl; lia|].
      cbn [shuffle_loop]. unfold JS.bind. cbn [random_int].
      rewrite Nat.mod_small by lia. exact Hrun.
Qed.
End shuffle_reach.

(** X14. [shuffle] can return every arrangement of its input: for each
    permutation of the array there are draws of [Math.random], one per
    position but the first, that make the loop produce it. *)
Theorem shuffle_reaches_every_order {A} (l target : list A) :
  target ≡ₚ l ->
  ∃ rs, length rs = length l - 1 ∧ run (shuffle l) rs = target.
Proof.
  intros Hp. unfold run, shuffle.
  destruct (shuffle_loop_reaches (length l - 1) l target) as (rs & Hrs & Hrun).
  - destruct l; [by right|left; simpl; lia].
  - done.
  - rewrite !drop_ge; [done| |lia]. rewrite (Permutation_length Hp). lia.
  - exists rs. split; [done|]. by rewrite Hrun.
Qed.

Lemma shuffle_reaches_every_order_witness :
  ["C"; "A"; "B"] ≡ₚ ["A"; "B"; "C"]
  ∧ ∃ rs, length rs = 2 ∧ run (shuffle ["A"; "B"; "C"]) rs = ["C"; "A"; "B"].
Proof.
  assert (Hp : ["C"; "A"; "B"] ≡ₚ ["A"; "B"; "C"]).
  { apply (bool_decide_unpack _). vm_compute. exact I. }
  split; [exact Hp|].
  exact (shuffle_reaches_every_order ["A"; "B"; "C"] ["C"; "A"; "B"] Hp).
Defined.

Lemma shuffle_loop_draws {A} i (l : list A) rs :
  (shuffle_loop i l rs).2 = drop i rs.
Proof.
  revert l rs. induction i as [|i IH]; intros l rs; [done|].
  cbn [shuffle_loop]. unfold JS.bind.
  destruct rs as [|r rs]; cbn [random_int]; rewrite IH; [by rewrite drop_nil|done].
Qed.

(** X15. [shuffle] draws one random number per position but the first, in
    order, whatever the contents; an array of at most one element comes
    back as it is and draws nothing. *)
Theorem shuffle_draws_one_number_per_position {A} (l : list A) rs :
  (shuffle l rs).2 = drop (length l - 1) rs
  ∧ (length l <= 1 -> shuffle l rs = (l, rs)).
Proof.
  split; [apply shuffle_loop_draws|].
  intros Hl. unfold shuffle.
  replace (length l - 1) with 0 by lia. done.
Qed.

Lemma shuffle_draws_one_number_per_position_witness :
  length ["A"] <= 1 ∧ shuffle ["A"] [4; 2] = (["A"], [4; 2]).
Proof.
  assert (Hl : length ["A"] <= 1) by (simpl; lia).
  split; [exact Hl|].
  exact (proj2 (shuffle_draws_one_number_per_position ["A"] [4; 2]) Hl).
Defined.

(** ** The levels page *)

Lemma indexOf_tierName t :
  indexOf (tierName t) BeginnerLevels.tierOrder = indexOf t Beginner.tierOrder.
Proof. destruct t; vm_compute; reflexivity. Qed.

Lemma indexOf_tier_range t : (0 <= indexOf t Beginner.tierOrder <= 3)%Z.
Proof. destruct t; vm_compute; split; discriminate. Qed.

Lemma indexOf_absent {A} `{EqDecision A} (x : A) (l : list A) :
  x ∉ l -> indexOf x l = (-1)%Z.
Proof.
  intros Hx. unfold indexOf.
  destruct (list_find _ l) as [[i y]|] eqn:Hf; [|done].
  apply list_find_Some in Hf as (Hi & -> & _).
  exfalso. apply Hx. by eapply list_elem_of_lookup_2.
Qed.

Lemma allCompleted_initialLevels :
  BeginnerLevels.allCompleted = BeginnerLevels.initialLevels 6.
Proof.
  unfold BeginnerLevels.allCompleted, BeginnerLevels.initialLevels.
  apply list_fmap_ext. intros k i Hi.
  apply lookup_seqZ in Hi as [-> Hk].
  rewrite (proj2 (Z.ltb_lt _ _)) by lia. done.
Qed.

(** What [loadProgress] sets: nothing, or the levels from some current
    level. *)
Lemma loadProgress_cases tierType storage answer :
  BeginnerLevels.loadProgress tierType storage answer = []
  \/ ∃ c, BeginnerLevels.loadProgress tierType storage answer
          = BeginnerLevels.initialLevels c.
Proof.
  unfold BeginnerLevels.loadProgress.
  destruct (_ <? _)%Z; [by left|right].
  destruct (_ <? _)%Z; [exists 6%Z; apply allCompleted_initialLevels|].
  eexists. reflexivity.
Qed.

Lemma elem_of_initialLevels c l :
  l ∈ BeginnerLevels.initialLevels c
  ↔ ∃ i, (1 <= i <= 5)%Z
         ∧ l = BeginnerLevels.mkLevel i ("Level " +:+ pretty i)
                 (if (i <? c)%Z then BeginnerLevels.completed
                  else if bool_decide (i = c) then BeginnerLevels.unlocked
                       else BeginnerLevels.locked)
                 (if (i <? c)%Z then 100%Z else 0%Z).
Proof.
  unfold BeginnerLevels.initialLevels. rewrite list_elem_of_fmap. split.
  - intros (i & -> & Hi). apply elem_of_seqZ in Hi. exists i. split; [lia|done].
  - intros (i & Hi & ->). exists i. split; [done|]. apply elem_of_seqZ. lia.
Qed.

Lemma initialLevels_ids c :
  BeginnerLevels.id <$> BeginnerLevels.initialLevels c = [1; 2; 3; 4; 5]%Z.
Proof.
  unfold BeginnerLevels.initialLevels. rewrite <- list_fmap_compose.
  reflexivity.
Qed.

(** X16. The levels page shows either no level (a tier not reached yet) or
    the five levels 1 to 5 in order, each named after its number.  The
    completed levels come first, then at most one unlocked level, then the
    locked ones: a level before a completed level is completed, and every
    level after a level that is not completed is locked.  A level shows the
    score 100 when it is completed and 0 otherwise. *)
Theorem levels_are_completed_then_unlocked_then_locked tierType storage answer :
  let levels := BeginnerLevels.loadProgress tierType storage answer in
  (levels = [] \/ BeginnerLevels.id <$> levels = [1; 2; 3; 4; 5]%Z)
  ∧ (∀ l, l ∈ levels ->
       BeginnerLevels.name l = "Level " +:+ pretty (BeginnerLevels.id l)
       ∧ BeginnerLevels.score l
         = if bool_decide (BeginnerLevels.status l = BeginnerLevels.completed)
           then 100%Z else 0%Z)
  ∧ (∀ l l', l ∈ levels -> l' ∈ levels ->
       (BeginnerLevels.id l < BeginnerLevels.id l')%Z ->
       (BeginnerLevels.status l' = BeginnerLevels.completed ->
        BeginnerLevels.status l = BeginnerLevels.completed)
       ∧ (BeginnerLevels.status l ≠ BeginnerLevels.completed ->
          BeginnerLevels.status l' = BeginnerLevels.locked)).
Proof.
  cbv zeta.
  destruct (loadProgress_cases tierType storage answer) as [->|[c ->]].
  { split_and!; [by left| |]; intros; by exfalso; eapply not_elem_of_nil. }
  split_and!.
  - right. apply initialLevels_ids.
  - intros l (i & Hi & ->)%elem_of_initialLevels. simpl. split; [done|].
    destruct (i <? c)%Z; [done|]. destruct (bool_decide (i = c)); done.
  - intros l l' (i & Hi & ->)%elem_of_initialLevels
      (j & Hj & ->)%elem_of_initialLevels. simpl. intros Hlt.
    destruct (Z.ltb_spec i c), (Z.ltb_spec j c); try lia; split; try done.
    + by repeat case_bool_decide.
    + intros _. repeat case_bool_decide; try done; lia.
Qed.

Lemma levels_are_completed_then_unlocked_then_locked_witness :
  let storage : gmap string string := {[ "user_id" := "7"; "level_type" := "beginner" ]} in
  let answer := Answered true (mkUserProgress (Some "beginner") (Some 3%Z)) in
  let levels := BeginnerLevels.loadProgress beginner storage answer in
  let l := BeginnerLevels.mkLevel 3 "Level 3" BeginnerLevels.unlocked 0 in
  let l' := BeginnerLevels.mkLevel 4 "Level 4" BeginnerLevels.locked 0 in
  l ∈ levels ∧ l' ∈ levels
  ∧ (BeginnerLevels.id l < BeginnerLevels.id l')%Z
  ∧ BeginnerLevels.status l ≠ BeginnerLevels.completed
  ∧ BeginnerLevels.status l' = BeginnerLevels.locked.
Proof.
  intros storage answer levels l l'.
  assert (Hl : l ∈ levels) by (apply (list_elem_of_lookup_2 levels 2); vm_compute; reflexivity).
  assert (Hl' : l' ∈ levels) by (apply (list_elem_of_lookup_2 levels 3); vm_compute; reflexivity).
  assert (Hlt : (BeginnerLevels.id l < BeginnerLevels.id l')%Z) by (simpl; lia).
  assert (Hs : BeginnerLevels.status l ≠ BeginnerLevels.completed) by (simpl; discriminate).
  split; [exact Hl|]. split; [exact Hl'|]. split; [exact Hlt|]. split; [exact Hs|].
  exact (proj2 (proj2 (proj2 (levels_are_completed_then_unlocked_then_locked
                                beginner storage answer)) l l' Hl Hl' Hlt) Hs).
Defined.

(** ** The home page and the levels page *)

Lemma initialLevels_nonempty c : BeginnerLevels.initialLevels c ≠ [].
Proof.
  intros H. apply (f_equal (fmap BeginnerLevels.id)) in H.
  by rewrite initialLevels_ids in H.
Qed.

(** With a stored tier name, the levels page compares the positions of the
    stored tier and of the tier of the page. *)
Lemma loadProgress_known t0 tierType storage answer :
  orString (storage !! "level_type") "beginner" = tierName t0 ->
  ∃ c, BeginnerLevels.loadProgress tierType storage answer
       = if (indexOf t0 Beginner.tierOrder <? indexOf tierType Beginner.tierOrder)%Z then []
         else if (indexOf tierType Beginner.tierOrder <? indexOf t0 Beginner.tierOrder)%Z
              then BeginnerLevels.allCompleted
              else BeginnerLevels.initialLevels c.
Proof.
  intros H. unfold BeginnerLevels.loadProgress. rewrite H, !indexOf_tierName.
  eexists. reflexivity.
Qed.

Lemma loadProgress_unknown tierType storage answer :
  orString (storage !! "level_type") "beginner" ∉ BeginnerLevels.tierOrder ->
  BeginnerLevels.loadProgress tierType storage answer = [].
Proof.
  intros H. unfold BeginnerLevels.loadProgress.
  rewrite (indexOf_absent _ _ H), indexOf_tierName.
  pose proof (indexOf_tier_range tierType).
  by rewrite (proj2 (Z.ltb_lt _ _)) by lia.
Qed.

Lemma tierOrder_names levelType :
  levelType ∈ BeginnerLevels.tierOrder ↔ ∃ t, levelType = tierName t.
Proof.
  unfold BeginnerLevels.tierOrder. rewrite !elem_of_cons, elem_of_nil. split.
  - intros [->|[->|[->|[->|[]]]]];
      [by exists beginner|by exists intermediate|by exists expert|by exists pro].
  - intros [[] ->]; simpl; tauto.
Qed.

Lemma getTierProgress_known t0 storage :
  orString (storage !! "level_type") "beginner" = tierName t0 ->
  Home.getTierProgress storage = indexOf t0 Beginner.tierOrder.
Proof.
  intros H. unfold Home.getTierProgress. rewrite H.
  destruct t0; vm_compute; reflexivity.
Qed.

(** A click on one of the four tiers navigates exactly when the tier is the
    first one or was reached. *)
Lemma handleLevelClick_tier tierProgress tierId :
  (1 <= tierId <= 4)%Z ->
  Home.handleLevelClick tierProgress tierId
  = if bool_decide (tierId = 1%Z \/ (tierId - 1 <= tierProgress)%Z)
    then Home.tierRoutes !! tierId else None.
Proof.
  intros Hid.
  assert (Hcases : (tierId = 1 \/ tierId = 2 \/ tierId = 3 \/ tierId = 4)%Z) by lia.
  unfold Home.handleLevelClick, Home.lessons, Home.getTierStatus.
  destruct Hcases as [ -> | [ -> | [ -> | -> ] ] ]; cbn;
    repeat (case_decide; try (exfalso; lia)); cbn;
    repeat (case_bool_decide; try (exfalso; lia)); cbn.
  all: try done.
  all: exfalso;
    try match goal with H : context [(?a <=? ?b)%Z] |- _ => destruct (Z.leb_spec0 a b) end;
    simpl in *; first [done | lia | tauto].
Qed.

Lemma home_click tierProgress tierId path tierType :
  Home.tierRoutes !! tierId = Some path ->
  App.routes !! path = Some (App.Levels tierType) ->
  tierId = (indexOf tierType Beginner.tierOrder + 1)%Z
  ∧ (Home.handleLevelClick tierProgress tierId = Some path
     ↔ tierId = 1%Z \/ (tierId - 1 <= tierProgress)%Z).
Proof.
  intros Hroute Hpage.
  assert (Hid : (1 <= tierId <= 4)%Z ∧ tierId = (indexOf tierType Beginner.tierOrder + 1)%Z).
  { revert Hroute Hpage.
    unfold Home.tierRoutes. rewrite !lookup_insert_Some, lookup_empty.
    intros [[<- <-]|[_ [[<- <-]|[_ [[<- <-]|[_ [[<- <-]|[_ [=]]]]]]]]] Hpage;
      vm_compute in Hpage; injection Hpage as <-; (split; [lia|reflexivity]). }
  destruct Hid as [Hid Heq]. split; [exact Heq|].
  rewrite handleLevelClick_tier, Hroute by done.
  case_bool_decide; split; done.
Qed.

(** X17. The home page and the levels page agree on the tiers that are
    open, as long as the stored [level_type] is absent, empty or one of the
    four tier names: a click on a tier of the home page navigates to its
    levels page exactly when that page lists levels.  With any other stored
    [level_type] the levels page of every tier lists no level. *)
Theorem home_and_levels_page_agree_on_open_tiers
    storage answer tierId path tierType :
  Home.tierRoutes !! tierId = Some path ->
  App.routes !! path = Some (App.Levels tierType) ->
  let levels := BeginnerLevels.loadProgress tierType storage answer in
  (knownTier (storage !! "level_type") ->
   Home.handleLevelClick (Home.getTierProgress storage) tierId = Some path
   ↔ levels ≠ [])
  ∧ (¬ knownTier (storage !! "level_type") -> levels = []).
Proof.
  intros Hroute Hpage levels. unfold knownTier.
  destruct (home_click (Home.getTierProgress storage) _ _ _ Hroute Hpage) as [Hid Hclick].
  pose proof (indexOf_tier_range tierType) as Hr.
  split.
  - intros [t0 Hknown]%tierOrder_names. rewrite Hclick.
    rewrite (getTierProgress_known t0) by done.
    pose proof (indexOf_tier_range t0) as Hr0.
    destruct (loadProgress_known t0 tierType storage answer Hknown) as [c Hc].
    unfold levels. rewrite Hc.
    destruct (Z.ltb_spec (indexOf t0 Beginner.tierOrder) (indexOf tierType Beginner.tierOrder)).
    + split; [lia|done].
    + split; [intros _|lia].
      destruct (_ <? _)%Z; [|apply initialLevels_nonempty].
      rewrite allCompleted_initialLevels. apply initialLevels_nonempty.
  - intros Hunknown. by apply loadProgress_unknown.
Qed.

Lemma home_and_levels_page_agree_on_open_tiers_witness :
  let storage : gmap string string := {[ "level_type" := "intermediate" ]} in
  Home.tierRoutes !! 3%Z = Some "/expert-levels"
  ∧ App.routes !! "/expert-levels" = Some (App.Levels expert)
  ∧ knownTier (storage !! "level_type")
  ∧ (Home.handleLevelClick (Home.getTierProgress storage) 3 = Some "/expert-levels"
     ↔ BeginnerLevels.loadProgress expert storage Failed ≠ []).
Proof.
  intros storage.
  assert (Hroute : Home.tierRoutes !! 3%Z = Some "/expert-levels") by (vm_compute; reflexivity).
  assert (Hpage : App.routes !! "/expert-levels" = Some (App.Levels expert))
    by (vm_compute; reflexivity).
  assert (Hknown : knownTier (storage !! "level_type"))
    by (apply (bool_decide_unpack _); vm_compute; exact I).
  split; [exact Hroute|]. split; [exact Hpage|]. split; [exact Hknown|].
  exact (proj1 (home_and_levels_page_agree_on_open_tiers storage Failed 3
                  "/expert-levels" expert Hroute Hpage) Hknown).
Defined.

(** ** From the levels page to the lesson *)

Lemma lesson_of_four_letters level rs :
  (1 <= level <= 5)%Z ->
  length (Beginner.letters (run (Beginner.getLevelData level) rs)) = 4.
Proof.
  intros Hl.
  rewrite <- (length_fmap Beginner.lesson_letter), getLevelData_letters.
  assert (Hcases : (level = 1 \/ level = 2 \/ level = 3 \/ level = 4 \/ level = 5)%Z) by lia.
  destruct Hcases as [ -> | [ -> | [ -> | [ -> | -> ] ] ] ]; vm_compute; reflexivity.
Qed.

Lemma camera_questions_length level rs :
  (1 <= level)%Z ->
  length (run (CameraQuizPage.questions level) rs) = Nat.min (Z.to_nat (level * 4)) 9.
Proof.
  intros Hl. unfold CameraQuizPage.questions.
  rewrite shuffle_length, slice_0_nonneg by lia.
  by rewrite length_take.
Qed.

(** X18. Every Play button of the levels page opens the lesson page of the
    same tier, in learning mode, on a level between 1 and 5 that the page
    shows as unlocked or completed.  For the tiers with a manual quiz the
    lesson opened has four letters; for the tiers that redirect to the
    camera quiz, that quiz has at least one question. *)
Theorem play_button_opens_an_open_level tierType storage answer nav rs :
  let levels := BeginnerLevels.loadProgress tierType storage answer in
  nav ∈ BeginnerLevels.playButtons tierType levels ->
  App.routes !! BeginnerLevels.nav_path nav = Some (App.Lesson tierType)
  ∧ initialMode (Some (BeginnerLevels.nav_mode nav)) = Beginner.learning
  ∧ (1 <= BeginnerLevels.nav_level nav <= 5)%Z
  ∧ (∃ l, l ∈ levels ∧ BeginnerLevels.id l = BeginnerLevels.nav_level nav
          ∧ BeginnerLevels.status l ≠ BeginnerLevels.locked)
  ∧ if Beginner.usesCameraQuiz tierType
    then 0 < length (run (CameraQuizPage.questions (BeginnerLevels.nav_level nav)) rs)
    else length (Beginner.letters
                   (run (Beginner.getLevelData (BeginnerLevels.nav_level nav)) rs)) = 4.
Proof.
  intros levels Hnav. unfold BeginnerLevels.playButtons in Hnav.
  apply list_elem_of_omap in Hnav as (l & Hl & Hbutton).
  case_bool_decide as Hlocked; [done|].
  unfold BeginnerLevels.handleLevelClick in Hbutton.
  rewrite bool_decide_eq_false_2 in Hbutton by done.
  injection Hbutton as <-. cbn [BeginnerLevels.nav_path BeginnerLevels.nav_level
                                BeginnerLevels.nav_mode].
  assert (Hid : (1 <= BeginnerLevels.id l <= 5)%Z).
  { unfold levels in Hl.
    destruct (loadProgress_cases tierType storage answer) as [Hnil|[c Hc]].
    - rewrite Hnil in Hl. by apply not_elem_of_nil in Hl.
    - rewrite Hc in Hl. by apply elem_of_initialLevels in Hl as (i & Hi & ->). }
  split_and!.
  - destruct tierType; vm_compute; reflexivity.
  - reflexivity.
  - lia.
  - lia.
  - by exists l.
  - destruct (Beginner.usesCameraQuiz tierType).
    + rewrite camera_questions_length by lia. lia.
    + apply lesson_of_four_letters. lia.
Qed.

Lemma play_button_opens_an_open_level_witness :
  let storage : gmap string string := {[ "user_id" := "7"; "level_type" := "beginner" ]} in
  let answer := Answered true (mkUserProgress (Some "beginner") (Some 3%Z)) in
  let nav := BeginnerLevels.mkNavigation "/beginner" 2 "lesson" in
  nav ∈ BeginnerLevels.playButtons beginner
          (BeginnerLevels.loadProgress beginner storage answer)
  ∧ App.routes !! BeginnerLevels.nav_path nav = Some (App.Lesson beginner).
Proof.
  intros storage answer nav.
  assert (Hnav : nav ∈ BeginnerLevels.playButtons beginner
                         (BeginnerLevels.loadProgress beginner storage answer)).
  { apply (list_elem_of_lookup_2 _ 1). vm_compute. reflexivity. }
  split; [exact Hnav|].
  exact (proj1 (play_button_opens_an_open_level beginner storage answer nav [] Hnav)).
Defined.

(** ** Signing out *)

Lemma handleSignOut_lookup w k :
  localStorage (Home.handleSignOut w) !! k
  = if bool_decide (k ∈ ["user_id"; "username"; "level_type"; "level_number"])
    then None else localStorage w !! k.
Proof.
  unfold Home.handleSignOut, removeItem. cbn [localStorage].
  case_bool_decide as Hk.
  - rewrite !elem_of_cons, elem_of_nil in Hk.
    destruct Hk as [->|[->|[->|[->|[]]]]];
      rewrite ?lookup_delete_eq, ?lookup_delete_ne by done;
      rewrite ?lookup_delete_eq, ?lookup_delete_ne by done; done.
  - rewrite !not_elem_of_cons in Hk. destruct Hk as (H1 & H2 & H3 & H4 & _).
    by rewrite !lookup_delete_ne.
Qed.

(** X19. Signing out removes the stored user, user name and progress and
    nothing else, and sends nothing.  From then on the home page shows tier
    progress 0 and its refresh does nothing; the levels page lists level 1
    unlocked and the others locked for the beginner tier and no level for
    the other tiers; and neither a manual quiz submission nor the end of a
    camera quiz sends or stores anything. *)
Theorem signing_out_forgets_user_and_progress w :
  let w' := Home.handleSignOut w in
  sent w' = sent w
  ∧ (∀ k, localStorage w' !! k
          = if bool_decide (k ∈ ["user_id"; "username"; "level_type"; "level_number"])
            then None else localStorage w !! k)
  ∧ Home.getTierProgress (localStorage w') = 0%Z
  ∧ (∀ answer tierProgress, Home.checkProgress answer tierProgress w' = (tierProgress, w'))
  ∧ (∀ tierType answer,
       BeginnerLevels.loadProgress tierType (localStorage w') answer
       = if bool_decide (tierType = beginner) then BeginnerLevels.initialLevels 1 else [])
  ∧ (∀ tierType levelNumber qs sa pa st,
       (Beginner.handleSubmitQuiz tierType levelNumber qs sa pa st w').2 = w')
  ∧ (∀ tierType levelNumber qs results st,
       (CameraQuizPage.finish tierType levelNumber qs results st w').2 = w').
Proof.
  intros w'.
  assert (Hu : localStorage w' !! "user_id" = None)
    by (unfold w'; by rewrite handleSignOut_lookup).
  assert (Ht : localStorage w' !! "level_type" = None)
    by (unfold w'; by rewrite handleSignOut_lookup).
  split_and!.
  - done.
  - intros k. apply handleSignOut_lookup.
  - unfold Home.getTierProgress. by rewrite Ht.
  - intros answer tierProgress. unfold Home.checkProgress. by rewrite Hu.
  - intros tierType answer. unfold BeginnerLevels.loadProgress. rewrite Hu, Ht.
    destruct tierType; reflexivity.
  - intros tierType levelNumber qs sa pa st.
    unfold Beginner.handleSubmitQuiz, Beginner.advances. rewrite Hu. cbn [truthy].
    by rewrite andb_false_r.
  - intros tierType levelNumber qs results st.
    unfold CameraQuizPage.finish. by rewrite Hu.
Qed.

(** ** From a perfect quiz to the next level *)

Lemma tierName_truthy t : truthy (Some (tierName t)) = true.
Proof. by destruct t. Qed.

(** X20. After a perfect manual quiz of a signed-in user at a level from 1
    to 5, acknowledged by the backend, the pages follow: the home page
    shows the tier the user is now in as reached; the levels page of that
    tier, once the backend returns the row that was sent, lists the levels
    before the new current level as completed, the new current level as
    unlocked and the rest as locked; the levels page of every earlier tier
    lists all five levels as completed, and that of every later tier lists
    none.  After level 5 the new current level is level 1 of the next tier
    (of the same tier for pro), otherwise the next level of the tier. *)
Theorem a_perfect_level_opens_the_next tierType levelNumber qs sa pa st w :
  (1 <= levelNumber <= 5)%Z ->
  advances (percentOf (calculateScore qs st) (length qs)) (localStorage w !! "user_id")
  = true ->
  succeeded pa = true ->
  let out := handleSubmitQuiz tierType levelNumber qs sa pa st w in
  let storage := localStorage out.2 in
  let nextTier := if bool_decide (levelNumber = 5%Z) then nextTierOf tierType else tierType in
  let nextNumber := if bool_decide (levelNumber = 5%Z) then 1%Z else (levelNumber + 1)%Z in
  let row := Answered true (mkUserProgress (Some (tierName nextTier)) (Some nextNumber)) in
  Home.getTierProgress storage = indexOf nextTier tierOrder
  ∧ BeginnerLevels.loadProgress nextTier storage row = BeginnerLevels.initialLevels nextNumber
  ∧ (∀ t answer, (indexOf t tierOrder < indexOf nextTier tierOrder)%Z ->
       BeginnerLevels.loadProgress t storage answer = BeginnerLevels.allCompleted)
  ∧ (∀ t answer, (indexOf nextTier tierOrder < indexOf t tierOrder)%Z ->
       BeginnerLevels.loadProgress t storage answer = []).
Proof.
  intros Hlevel Hadv Hok out storage nextTier nextNumber row.
  destruct (handleSubmitQuiz_effects tierType levelNumber qs sa pa st w)
    as (_ & Hstore & _).
  rewrite Hadv, Hok in Hstore. cbn [andb] in Hstore.
  assert (Htype : storage !! "level_type" = Some (tierName nextTier)).
  { unfold storage, out. rewrite Hstore, lookup_insert_ne, lookup_insert_eq by done.
    unfold nextTier. by case_bool_decide. }
  assert (Huser : truthy (storage !! "user_id") = true).
  { unfold storage, out. rewrite Hstore, !lookup_insert_ne by done.
    unfold advances in Hadv. by apply andb_prop in Hadv as [_ ?]. }
  assert (Hknown : orString (storage !! "level_type") "beginner" = tierName nextTier).
  { rewrite Htype. unfold orString. by rewrite tierName_truthy. }
  split_and!.
  - by apply getTierProgress_known.
  - unfold BeginnerLevels.loadProgress. rewrite Hknown, Huser, Z.ltb_irrefl.
    rewrite (bool_decide_eq_true_2 (tierName nextTier = tierName nextTier)) by done.
    cbn [andb row up_level_type up_level_number].
    rewrite (bool_decide_eq_true_2 (Some (tierName nextTier) = Some (tierName nextTier)))
      by done.
    unfold orNumber. rewrite bool_decide_eq_false_2; [done|].
    unfold nextNumber. case_bool_decide; lia.
  - intros t answer Hlt.
    destruct (loadProgress_known nextTier t storage answer Hknown) as [c ->].
    rewrite (proj2 (Z.ltb_ge _ _)) by lia.
    by rewrite (proj2 (Z.ltb_lt _ _)) by lia.
  - intros t answer Hlt.
    destruct (loadProgress_known nextTier t storage answer Hknown) as [c ->].
    by rewrite (proj2 (Z.ltb_lt _ _)) by lia.
Qed.

Lemma a_perfect_level_opens_the_next_witness :
  let before := Scenario.play (Scenario.untilMatched ++ take 2 Scenario.untilSubmitted)
                  Scenario.signedIn in
  let out := handleSubmitQuiz beginner 1 (questions Scenario.level1)
               Scenario.saved Scenario.updated before.1 before.2 in
  (1 <= 1 <= 5)%Z
  ∧ advances (percentOf (calculateScore (questions Scenario.level1) before.1)
                        (length (questions Scenario.level1)))
             (localStorage before.2 !! "user_id") = true
  ∧ succeeded Scenario.updated = true
  ∧ BeginnerLevels.loadProgress beginner (localStorage out.2)
      (Answered true (mkUserProgress (Some "beginner") (Some 2%Z)))
    = BeginnerLevels.initialLevels 2.
Proof.
  intros before out.
  assert (Hl : (1 <= 1 <= 5)%Z) by lia.
  assert (Hadv : advances (percentOf (calculateScore (questions Scenario.level1) before.1)
                                     (length (questions Scenario.level1)))
                          (localStorage before.2 !! "user_id") = true)
    by (vm_compute; reflexivity).
  assert (Hok : succeeded Scenario.updated = true) by reflexivity.
  split; [exact Hl|]. split; [exact Hadv|]. split; [exact Hok|].
  exact (proj1 (proj2 (a_perfect_level_opens_the_next beginner 1 (questions Scenario.level1)
                         Scenario.saved Scenario.updated before.1 before.2 Hl Hadv Hok))).
Defined.

(** ** The refresh of the home page *)

Lemma orString_truthy o d : truthy (Some d) = true -> truthy (Some (orString o d)) = true.
Proof.
  intros Hd. unfold orString. destruct (truthy o) eqn:Ho; [|done].
  by destruct o.
Qed.

Lemma tierMap_range levelType :
  (0 <= orNumber (Home.tierMap !! levelType) 0 <= 3)%Z.
Proof.
  unfold orNumber. destruct (Home.tierMap !! levelType) as [n|] eqn:Hn; [|lia].
  unfold Home.tierMap in Hn. rewrite !lookup_insert_Some, lookup_empty in Hn.
  case_bool_decide; [lia|].
  destruct Hn as [[_ <-]|[_ [[_ <-]|[_ [[_ <-]|[_ [[_ <-]|[_ [=]]]]]]]]]; lia.
Qed.

(** X21. The refresh of the home page, when the row it takes has a
    [level_type] that is absent, empty or a tier name.  It sends nothing
    that is recorded, and when it takes the row it stores a non-empty
    [level_type].  If the stored [level_type] was absent, empty or a tier
    name and the displayed tier progress agreed with it, then after the
    refresh the stored [level_type] is a tier name or still as it was, the
    displayed progress agrees with it and lies between 0 and 3.
    Refreshing again with the same answer changes nothing more. *)
Theorem home_refresh_keeps_progress_and_storage_in_step answer tierProgress w :
  knownRow answer ->
  let out := Home.checkProgress answer tierProgress w in
  sent out.2 = sent w
  ∧ (knownTier (localStorage w !! "level_type") ->
     tierProgress = Home.getTierProgress (localStorage w) ->
     knownTier (localStorage out.2 !! "level_type")
     ∧ out.1 = Home.getTierProgress (localStorage out.2)
     ∧ (0 <= out.1 <= 3)%Z)
  ∧ (out.2 = w \/ truthy (localStorage out.2 !! "level_type") = true)
  ∧ Home.checkProgress answer out.1 out.2 = out.
Proof.
  intros Hrow. cbv zeta. unfold Home.checkProgress.
  assert (Hrange : (0 <= Home.getTierProgress (localStorage w) <= 3)%Z)
    by apply tierMap_range.
  destruct (truthy (localStorage w !! "user_id")) eqn:Hu; cbn [fst snd];
    [|rewrite Hu; split_and!; [done|by intros ? ->|by left|done]].
  destruct answer as [|[] data]; cbn [fst snd];
    try (rewrite Hu; split_and!; [done|by intros ? ->|by left|done]).
  simpl in Hrow. unfold knownTier in Hrow.
  set (levelType := orString (up_level_type data) "beginner") in *.
  assert (Ht : truthy (Some levelType) = true) by by apply orString_truthy.
  cbn [setItem localStorage sent].
  rewrite (lookup_insert_ne _ "level_type" "user_id"), Hu by done.
  assert (Hself : orString (Some levelType) "beginner" = levelType)
    by (unfold orString at 1; by rewrite Ht).
  split_and!.
  - done.
  - intros _ _. rewrite lookup_insert_eq. split; [|split].
    + unfold knownTier. by rewrite Hself.
    + unfold Home.getTierProgress. by rewrite lookup_insert_eq, Hself.
    + apply tierMap_range.
  - right. by rewrite lookup_insert_eq.
  - unfold setItem. cbn [localStorage sent]. by rewrite insert_insert_eq.
Qed.

Lemma home_refresh_keeps_progress_and_storage_in_step_witness :
  let w := mkWorld {[ "user_id" := "7"; "level_type" := "beginner" ]} [] in
  let answer := Answered true (mkUserProgress (Some "expert") (Some 2%Z)) in
  let out := Home.checkProgress answer 0 w in
  knownRow answer
  ∧ knownTier (localStorage w !! "level_type")
  ∧ 0%Z = Home.getTierProgress (localStorage w)
  ∧ out.1 = Home.getTierProgress (localStorage out.2)
  ∧ out.1 = 2%Z.
Proof.
  intros w answer out.
  assert (Hrow : knownRow answer) by (apply (bool_decide_unpack _); vm_compute; exact I).
  assert (Hknown : knownTier (localStorage w !! "level_type"))
    by (apply (bool_decide_unpack _); vm_compute; exact I).
  assert (H0 : 0%Z = Home.getTierProgress (localStorage w)) by (vm_compute; reflexivity).
  split; [exact Hrow|]. split; [exact Hknown|]. split; [exact H0|].
  split; [|vm_compute; reflexivity].
  exact (proj1 (proj2 (proj1 (proj2 (home_refresh_keeps_progress_and_storage_in_step
                                       answer 0 w Hrow)) Hknown H0))).
Defined.
